(** * autopen: target expansion, liveness probing and finding extraction

    A shallow embedding of [core/aggregator.py] and [core/parse_engine.py].

    Python text is modelled by [string]: a sequence of characters with code
    points 0..255.  Python exceptions are modelled by the [result] type; a
    [try ... except E] block is [try_except].  The parts of Python's
    [ipaddress] module that [expand_targets] calls are embedded in
    [Module IpAddress] (CPython 3.10+: leading zeros in octets are rejected
    and a /32 network has its single address as host). *)

From Stdlib Require Import ZArith Lia String Ascii List Bool.
From stdpp Require Import base option list sorting gmap strings.

Set Warnings "-clear-no-such-hyp".

Local Open Scope string_scope.
Local Open Scope list_scope.
Local Open Scope Z_scope.

(** ** Exceptions *)

Inductive exn :=
| ValueError
| AddressValueError
| NetmaskValueError
| AttributeError
| TypeError
| KeyError
| OSError
| UnicodeDecodeError
| YAMLError
| JSONDecodeError
| JMESPathError
| XPathError
| XMLSyntaxError.

(** [Ok a]: the call returns [a]; [Raise e]: it raises [e]; [OutOfFuel]:
    the model of a [while] loop ran out of iterations. *)
Inductive result (A : Type) :=
| Ok (a : A)
| Raise (e : exn)
| OutOfFuel.
Arguments Ok {A} a.
Arguments Raise {A} e.
Arguments OutOfFuel {A}.

#[global] Instance result_ret : MRet result := fun A a => Ok a.
#[global] Instance result_bind : MBind result := fun A B f c =>
  match c with
  | Ok a => f a
  | Raise e => Raise e
  | OutOfFuel => OutOfFuel
  end.

(** [AddressValueError] and [NetmaskValueError] subclass [ValueError];
    [json.JSONDecodeError] does too. *)
Definition is_ValueError (e : exn) : bool :=
  match e with
  | ValueError | AddressValueError | NetmaskValueError
  | JSONDecodeError | UnicodeDecodeError => true
  | _ => false
  end.

Definition is_AddressValueError (e : exn) : bool :=
  match e with AddressValueError => true | _ => false end.

Definition is_NetmaskValueError (e : exn) : bool :=
  match e with NetmaskValueError => true | _ => false end.

Definition is_Address_or_Netmask_error (e : exn) : bool :=
  is_AddressValueError e || is_NetmaskValueError e.

(** [try: c  except E: h] *)
Definition try_except {A} (c : result A) (catches : exn → bool)
    (h : result A) : result A :=
  match c with
  | Raise e => if catches e then h else Raise e
  | r => r
  end.

(** [try: c  except E as exc: raise e' from None] *)
Definition reraise_as {A} (c : result A) (catches : exn → bool) (e' : exn)
    : result A :=
  try_except c catches (Raise e').

(** [returns_or_ValueError c]: the call returns, or raises an exception
    that [except ValueError] catches. *)
Definition returns_or_ValueError {A} (c : result A) : Prop :=
  match c with
  | Ok _ => True
  | Raise e => is_ValueError e = true
  | OutOfFuel => False
  end.

Fixpoint mapM {A B} (f : A → result B) (l : list A) : result (list B) :=
  match l with
  | [] => Ok []
  | x :: r => y ← f x; ys ← mapM f r; Ok (y :: ys)
  end.

Fixpoint foldM {A S} (f : S → A → result S) (s : S) (l : list A) : result S :=
  match l with
  | [] => Ok s
  | x :: r => s' ← f s x; foldM f s' r
  end.

(** ** Python [str] methods *)

Module PyStr.

Definition code (c : ascii) : Z := Z.of_N (N_of_ascii c).

(** [str.isspace] on one character *)
Definition is_space (c : ascii) : bool :=
  let n := code c in
  ((9 <=? n) && (n <=? 13)) || ((28 <=? n) && (n <=? 32))
  || (n =? 133) || (n =? 160).

Definition is_ascii_digit (c : ascii) : bool :=
  let n := code c in (48 <=? n) && (n <=? 57).

Definition is_empty (s : string) : bool :=
  match s with EmptyString => true | _ => false end.

Fixpoint all_chars (p : ascii → bool) (s : string) : bool :=
  match s with
  | EmptyString => true
  | String c r => p c && all_chars p r
  end.

Fixpoint has_char (c : ascii) (s : string) : bool :=
  match s with
  | EmptyString => false
  | String a r => Ascii.eqb a c || has_char c r
  end.

Fixpoint lstrip (s : string) : string :=
  match s with
  | EmptyString => EmptyString
  | String c r => if is_space c then lstrip r else s
  end.

Fixpoint rstrip (s : string) : string :=
  match s with
  | EmptyString => EmptyString
  | String c r =>
      let r' := rstrip r in
      if is_space c && is_empty r' then EmptyString else String c r'
  end.

(** [s.strip()] *)
Definition strip (s : string) : string := rstrip (lstrip s).

(** the rest of [s] after the prefix [p], when [s] starts with [p] *)
Fixpoint strip_prefix (p s : string) : option string :=
  match p, s with
  | EmptyString, _ => Some s
  | String a p', String b s' =>
      if Ascii.eqb a b then strip_prefix p' s' else None
  | String _ _, EmptyString => None
  end.

(** [s.startswith(p)] *)
Definition startswith (p s : string) : bool :=
  match strip_prefix p s with Some _ => true | None => false end.

(** [s.partition(sep)] when [sep] occurs in [s]: the text before the
    first occurrence and the text after it *)
Fixpoint find_sep (sep s : string) : option (string * string) :=
  match strip_prefix sep s with
  | Some rest => Some (EmptyString, rest)
  | None =>
      match s with
      | EmptyString => None
      | String c r =>
          match find_sep sep r with
          | Some (a, b) => Some (String c a, b)
          | None => None
          end
      end
  end.

(** [sep in s] *)
Definition contains (sep s : string) : bool :=
  match find_sep sep s with Some _ => true | None => false end.

(** [s.split(sep, 1)[0]] *)
Definition split1_head (sep s : string) : string :=
  match find_sep sep s with Some (a, _) => a | None => s end.

(** [s.split(sep, 1)[1]], which raises [IndexError] when [sep] does not
    occur; the callers test [sep in s] first *)
Definition split1_tail (sep s : string) : option string :=
  match find_sep sep s with Some (_, b) => Some b | None => None end.

(** [s.split(c)] for a one-character separator *)
Fixpoint split (c : ascii) (s : string) : list string :=
  match s with
  | EmptyString => [EmptyString]
  | String a r =>
      if Ascii.eqb a c then EmptyString :: split c r
      else match split c r with
           | h :: t => String a h :: t
           | [] => [String a EmptyString]
           end
  end.

(** [sep.join(l)] *)
Fixpoint join (sep : string) (l : list string) : string :=
  match l with
  | [] => EmptyString
  | [x] => x
  | x :: r => x +:+ sep +:+ join sep r
  end.

(** [s.replace(old, new)] for a non-empty [old]; [fuel] bounds the number
    of characters visited *)
Fixpoint replace_fuel (fuel : nat) (old new s : string) : string :=
  match fuel with
  | O => s
  | S f =>
      match strip_prefix old s with
      | Some rest => new +:+ replace_fuel f old new rest
      | None =>
          match s with
          | EmptyString => EmptyString
          | String c r => String c (replace_fuel f old new r)
          end
      end
  end.

Definition replace (old new s : string) : string :=
  if is_empty old then s
  else replace_fuel (S (String.length s)) old new s.

Definition digit_val (c : ascii) : Z := code c - 48.

Fixpoint int_of_digits_from (acc : Z) (s : string) : Z :=
  match s with
  | EmptyString => acc
  | String c r => int_of_digits_from (acc * 10 + digit_val c) r
  end.

(** [int(s, 10)] on a string of ASCII digits *)
Definition int_of_digits (s : string) : Z := int_of_digits_from 0 s.

Definition digit_char (d : Z) : ascii := ascii_of_N (Z.to_N (48 + d)).

Fixpoint dec_digits (fuel : nat) (n : Z) (acc : string) : string :=
  let acc' := String (digit_char (n mod 10)) acc in
  match fuel with
  | O => acc'
  | S f => if n <? 10 then acc' else dec_digits f (n / 10) acc'
  end.

(** [str(n)] for an [int] *)
Definition str_of_int (n : Z) : string :=
  if n <? 0 then String "-" (dec_digits (Z.to_nat (Z.log2 (- n))) (- n) "")
  else dec_digits (Z.to_nat (Z.log2 n)) n "".

Definition hex_char (d : Z) : ascii :=
  if d <? 10 then digit_char d else ascii_of_N (Z.to_N (87 + d)).

Fixpoint hex_digits (fuel : nat) (n : Z) (acc : string) : string :=
  let acc' := String (hex_char (n mod 16)) acc in
  match fuel with
  | O => acc'
  | S f => if n <? 16 then acc' else hex_digits f (n / 16) acc'
  end.

(** ['%x' % n] for [0 <= n] *)
Definition hex_of_int (n : Z) : string :=
  hex_digits (Z.to_nat (Z.log2 n)) n "".

Definition hex_val (c : ascii) : option Z :=
  let n := code c in
  if (48 <=? n) && (n <=? 57) then Some (n - 48)
  else if (65 <=? n) && (n <=? 70) then Some (n - 55)
  else if (97 <=? n) && (n <=? 102) then Some (n - 87)
  else None.

End PyStr.

(** ** The [ipaddress] module, as far as [expand_targets] calls it *)

Module IpAddress.
Import PyStr.

(** An address object: [IPv4Address] or [IPv6Address] (with its scope id). *)
Inductive ip :=
| IPv4Address (n : Z)
| IPv6Address (n : Z) (scope_id : option string).

(** [int(a)] *)
Definition int (a : ip) : Z :=
  match a with IPv4Address n => n | IPv6Address n _ => n end.

Definition max_prefixlen (v6 : bool) : Z := if v6 then 128 else 32.
Definition ALL_ONES (v6 : bool) : Z := 2 ^ max_prefixlen v6 - 1.

(** [_BaseV4._parse_octet] *)
Definition parse_octet (octet_str : string) : result Z :=
  if is_empty octet_str then Raise ValueError
  else if negb (all_chars is_ascii_digit octet_str) then Raise ValueError
  else if (3 <? String.length octet_str)%nat then Raise ValueError
  else if negb (String.eqb octet_str "0") && startswith "0" octet_str
  then Raise ValueError
  else
    let octet_int := int_of_digits octet_str in
    if 255 <? octet_int then Raise ValueError else Ok octet_int.

(** [int.from_bytes(bs, 'big')] *)
Definition from_bytes (bs : list Z) : Z :=
  fold_left (fun acc b => acc * 256 + b) bs 0.

(** [n.to_bytes(4, 'big')] *)
Definition to_bytes4 (n : Z) : list Z :=
  [(n / 2 ^ 24) mod 256; (n / 2 ^ 16) mod 256; (n / 2 ^ 8) mod 256;
   n mod 256].

(** [_BaseV4._ip_int_from_string] *)
Definition v4_int_from_string (ip_str : string) : result Z :=
  if is_empty ip_str then Raise AddressValueError
  else
    let octets := split "." ip_str in
    if negb (length octets =? 4)%nat then Raise AddressValueError
    else reraise_as (bs ← mapM parse_octet octets; Ok (from_bytes bs))
           is_ValueError AddressValueError.

(** [_BaseV4._string_from_ip_int] *)
Definition v4_string_from_int (n : Z) : string :=
  join "." (map str_of_int (to_bytes4 n)).

(** [IPv4Address(address)] for a [str] argument *)
Definition IPv4Address_of_string (address : string) : result ip :=
  if contains "/" address then Raise AddressValueError
  else n ← v4_int_from_string address; Ok (IPv4Address n).

(** [IPv4Address(address)] / [IPv6Address(address)] for an [int] argument *)
Definition check_int_address (v6 : bool) (n : Z) : result Z :=
  if n <? 0 then Raise AddressValueError
  else if ALL_ONES v6 <? n then Raise AddressValueError
  else Ok n.

Definition is_hex_digit (c : ascii) : bool :=
  match hex_val c with Some _ => true | None => false end.

(** [int(s, 16)] on a string of hex digits; the empty string is a
    [ValueError] *)
Definition int_of_hex (s : string) : result Z :=
  if is_empty s then Raise ValueError
  else Ok ((fix go (acc : Z) (s : string) : Z :=
              match s with
              | EmptyString => acc
              | String c r => go (acc * 16 + default 0 (hex_val c)) r
              end) 0 s).

(** [_BaseV6._parse_hextet] *)
Definition parse_hextet (hextet_str : string) : result Z :=
  if negb (all_chars is_hex_digit hextet_str) then Raise ValueError
  else if (4 <? String.length hextet_str)%nat then Raise ValueError
  else int_of_hex hextet_str.

(** [_BaseV6._split_scope_id] *)
Definition split_scope_id (ip_str : string)
    : result (string * option string) :=
  match find_sep "%" ip_str with
  | None => Ok (ip_str, None)
  | Some (addr, scope_id) =>
      if is_empty scope_id || contains "%" scope_id
      then Raise AddressValueError
      else Ok (addr, Some scope_id)
  end.

Definition shift_in_hextets (acc : Z) (hs : list string) : result Z :=
  foldM (fun acc h => v ← parse_hextet h; Ok (Z.lor (Z.shiftl acc 16) v))
    acc hs.

(** [_BaseV6._ip_int_from_string] *)
Definition v6_int_from_string (ip_str : string) : result Z :=
  if is_empty ip_str then Raise AddressValueError
  else
    let parts := split ":" ip_str in
    if (length parts <? 3)%nat then Raise AddressValueError
    else
      parts ←
        (let tail := List.last parts "" in
         if contains "." tail then
           a ← reraise_as (IPv4Address_of_string tail)
                  is_AddressValueError AddressValueError;
           let ipv4_int := int a in
           Ok (removelast parts
                 ++ [hex_of_int (Z.land (Z.shiftr ipv4_int 16) 65535);
                     hex_of_int (Z.land ipv4_int 65535)])
         else Ok parts);
      let n := length parts in
      if (9 <? n)%nat then Raise AddressValueError
      else
        let first_empty := is_empty (List.nth 0 parts "") in
        let last_empty := is_empty (List.last parts "") in
        bounds ←
          match List.filter (fun i => is_empty (List.nth i parts ""))
                  (seq 1 (n - 2)) with
          | _ :: _ :: _ => Raise AddressValueError
          | [skip_index] =>
              let parts_hi := skip_index in
              let parts_lo := (n - skip_index - 1)%nat in
              parts_hi ←
                (if first_empty then
                   if (parts_hi - 1 =? 0)%nat then Ok (parts_hi - 1)%nat
                   else Raise AddressValueError
                 else Ok parts_hi);
              parts_lo ←
                (if last_empty then
                   if (parts_lo - 1 =? 0)%nat then Ok (parts_lo - 1)%nat
                   else Raise AddressValueError
                 else Ok parts_lo);
              let parts_skipped := 8 - Z.of_nat (parts_hi + parts_lo) in
              if parts_skipped <? 1 then Raise AddressValueError
              else Ok (parts_hi, parts_lo, parts_skipped)
          | [] =>
              if negb (n =? 8)%nat then Raise AddressValueError
              else if first_empty then Raise AddressValueError
              else if last_empty then Raise AddressValueError
              else Ok (n, O, 0)
          end;
        let '(parts_hi, parts_lo, parts_skipped) := bounds in
        reraise_as
          (hi ← shift_in_hextets 0 (take parts_hi parts);
           shift_in_hextets (Z.shiftl hi (16 * parts_skipped))
             (drop (n - parts_lo) parts))
          is_ValueError AddressValueError.

(** [IPv6Address(address)] for a [str] argument *)
Definition IPv6Address_of_string (address : string) : result ip :=
  if contains "/" address then Raise AddressValueError
  else
    '(addr_str, scope_id) ← split_scope_id address;
    n ← v6_int_from_string addr_str;
    Ok (IPv6Address n scope_id).

(** [ipaddress.ip_address(address)] for a [str] argument *)
Definition ip_address (address : string) : result ip :=
  try_except (IPv4Address_of_string address) is_Address_or_Netmask_error
    (try_except (IPv6Address_of_string address) is_Address_or_Netmask_error
       (Raise ValueError)).

(** [ipaddress.ip_address(address)] for an [int] argument *)
Definition ip_address_of_int (address : Z) : result ip :=
  try_except (n ← check_int_address false address; Ok (IPv4Address n))
    is_Address_or_Netmask_error
    (try_except
       (n ← check_int_address true address; Ok (IPv6Address n None))
       is_Address_or_Netmask_error
       (Raise ValueError)).

(** One step of the scan in [_BaseV6._compress_hextets]; the state is
    (best start, best length, current start, current length, index). *)
Definition compress_step (st : Z * Z * Z * Z * Z) (hextet : string)
    : Z * Z * Z * Z * Z :=
  let '(best_start, best_len, cur_start, cur_len, index) := st in
  if String.eqb hextet "0" then
    let cur_len := cur_len + 1 in
    let cur_start := if cur_start =? -1 then index else cur_start in
    if best_len <? cur_len
    then (cur_start, cur_len, cur_start, cur_len, index + 1)
    else (best_start, best_len, cur_start, cur_len, index + 1)
  else (best_start, best_len, -1, 0, index + 1).

(** [_BaseV6._compress_hextets] *)
Definition compress_hextets (hextets : list string) : list string :=
  let '(best_start, best_len, _, _, _) :=
    fold_left compress_step hextets (-1, 0, -1, 0, 0) in
  if 1 <? best_len then
    let best_end := best_start + best_len in
    let hextets :=
      if best_end =? Z.of_nat (length hextets) then hextets ++ [""]
      else hextets in
    let hextets :=
      take (Z.to_nat best_start) hextets ++ [""]
        ++ drop (Z.to_nat best_end) hextets in
    if best_start =? 0 then "" :: hextets else hextets
  else hextets.

(** [_BaseV6._string_from_ip_int] *)
Definition v6_string_from_int (n : Z) : string :=
  join ":"
    (compress_hextets
       (map (fun i => hex_of_int (Z.land (Z.shiftr n (16 * (7 - i))) 65535))
          [0; 1; 2; 3; 4; 5; 6; 7])).

(** [str(a)] *)
Definition ip_str (a : ip) : string :=
  match a with
  | IPv4Address n => v4_string_from_int n
  | IPv6Address n None => v6_string_from_int n
  | IPv6Address n (Some scope_id) =>
      if is_empty scope_id then v6_string_from_int n
      else v6_string_from_int n +:+ "%" +:+ scope_id
  end.

(** A network object: [IPv4Network] or [IPv6Network]. [net_addr] is the
    address object built from the text before the slash. *)
Record network := {
  net_v6 : bool;
  net_addr : ip;
  network_address : Z;
  prefixlen : Z
}.

(** [_IPAddressBase._ip_int_from_prefix] *)
Definition ip_int_from_prefix (v6 : bool) (p : Z) : Z :=
  Z.lxor (ALL_ONES v6) (Z.shiftr (ALL_ONES v6) p).

(** [n.bit_length()] for [0 <= n] *)
Definition bit_length (n : Z) : Z := if n =? 0 then 0 else Z.log2 n + 1.

Definition count_righthand_zero_bits (number bits : Z) : Z :=
  if number =? 0 then bits
  else Z.min bits (bit_length (Z.land (Z.lnot number) (number - 1))).

(** [_IPAddressBase._prefix_from_ip_int] *)
Definition prefix_from_ip_int (v6 : bool) (ip_int : Z) : result Z :=
  let trailing_zeroes :=
    count_righthand_zero_bits ip_int (max_prefixlen v6) in
  let p := max_prefixlen v6 - trailing_zeroes in
  let leading_ones := Z.shiftr ip_int trailing_zeroes in
  let all_ones := Z.shiftl 1 p - 1 in
  if negb (leading_ones =? all_ones) then Raise ValueError else Ok p.

(** [_IPAddressBase._prefix_from_prefix_string] *)
Definition prefix_from_prefix_string (v6 : bool) (s : string) : result Z :=
  if negb (negb (is_empty s) && all_chars is_ascii_digit s)
  then Raise NetmaskValueError
  else
    let p := int_of_digits s in
    if negb ((0 <=? p) && (p <=? max_prefixlen v6))
    then Raise NetmaskValueError
    else Ok p.

(** [_IPAddressBase._prefix_from_ip_string] (IPv4 only) *)
Definition prefix_from_ip_string (s : string) : result Z :=
  ip_int ← reraise_as (v4_int_from_string s) is_AddressValueError
              NetmaskValueError;
  try_except (prefix_from_ip_int false ip_int) is_ValueError
    (reraise_as (prefix_from_ip_int false (Z.lxor ip_int (ALL_ONES false)))
       is_ValueError NetmaskValueError).

(** [_make_netmask]: [None] is the integer [max_prefixlen] that
    [_split_addr_prefix] supplies when there is no slash *)
Definition make_netmask (v6 : bool) (arg : option string) : result Z :=
  match arg with
  | None => Ok (max_prefixlen v6)
  | Some s =>
      if v6 then prefix_from_prefix_string true s
      else try_except (prefix_from_prefix_string false s)
             is_NetmaskValueError (prefix_from_ip_string s)
  end.

(** [_split_optional_netmask] and [_split_addr_prefix] *)
Definition split_addr_prefix (address : string)
    : result (string * option string) :=
  match split "/" address with
  | [addr] => Ok (addr, None)
  | [addr; mask] => Ok (addr, Some mask)
  | _ => Raise AddressValueError
  end.

(** [IPv4Network(address, strict)] and [IPv6Network(address, strict)] *)
Definition Network_of_string (v6 : bool) (address : string) (strict : bool)
    : result network :=
  '(addr, mask) ← split_addr_prefix address;
  a ← (if v6 then IPv6Address_of_string addr
       else IPv4Address_of_string addr);
  p ← make_netmask v6 mask;
  let packed := int a in
  let netmask := ip_int_from_prefix v6 p in
  if negb (Z.land packed netmask =? packed) then
    if strict then Raise ValueError
    else Ok {| net_v6 := v6; net_addr := a;
               network_address := Z.land packed netmask; prefixlen := p |}
  else Ok {| net_v6 := v6; net_addr := a;
             network_address := packed; prefixlen := p |}.

(** [ipaddress.ip_network(address, strict)] *)
Definition ip_network (address : string) (strict : bool) : result network :=
  try_except (Network_of_string false address strict)
    is_Address_or_Netmask_error
    (try_except (Network_of_string true address strict)
       is_Address_or_Netmask_error
       (Raise ValueError)).

Definition address_class (v6 : bool) (n : Z) : ip :=
  if v6 then IPv6Address n None else IPv4Address n.

Definition broadcast_address (net : network) : Z :=
  Z.lor (network_address net)
    (Z.lxor (ip_int_from_prefix (net_v6 net) (prefixlen net))
       (ALL_ONES (net_v6 net))).

(** [range(a, b)] *)
Definition py_range (a b : Z) : list Z := seqZ a (b - a).

(** [net.hosts()] *)
Definition hosts (net : network) : list ip :=
  let v6 := net_v6 net in
  let network := network_address net in
  let broadcast := broadcast_address net in
  if prefixlen net =? max_prefixlen v6 - 1
  then map (address_class v6) (py_range network (broadcast + 1))
  else if prefixlen net =? max_prefixlen v6
  then [net_addr net]
  else if v6
  then map (address_class v6) (py_range (network + 1) (broadcast + 1))
  else map (address_class v6) (py_range (network + 1) broadcast).

End IpAddress.

(** ** [core/aggregator.py] *)

Module Aggregator.
Import PyStr IpAddress.

(** The loop of [_dedupe_preserve_order]: [seen] is the set, [out] the
    list built so far. *)
Fixpoint dedupe_loop (items : list string) (seen : gset string)
    (out : list string) : list string :=
  match items with
  | [] => out
  | x :: rest =>
      if decide (x ∈ seen) then dedupe_loop rest seen out
      else dedupe_loop rest ({[x]} ∪ seen) (out ++ [x])
  end.

Definition _dedupe_preserve_order (items : list string) : list string :=
  dedupe_loop items ∅ [].

(** The right bound of a range: a full address when it has a dot, else
    the last octet put after the first three octets of [left]. *)
Definition range_end (left_ right_ : string) : result ip :=
  if contains "." right_ then ip_address right_
  else
    let base := split "." left_ in
    if negb (length base =? 4)%nat then Raise ValueError
    else ip_address (join "." (take 3 base ++ [right_])).

(** How the [while] loop of the range rule ends. *)
Inductive loop_exit :=
| LoopDone
| LoopRaised (e : exn)
| LoopFuel.

(** [while int(cur) <= int(end): out.append(str(cur));
    cur = ipaddress.ip_address(int(cur) + 1)].  The appended targets stay
    in [out] whatever way the loop ends. *)
Fixpoint range_while (fuel : nat) (cur end_ : ip) (out : list string)
    : list string * loop_exit :=
  if int cur <=? int end_ then
    match fuel with
    | O => (out, LoopFuel)
    | S fuel' =>
        let out := out ++ [ip_str cur] in
        match ip_address_of_int (int cur + 1) with
        | Ok cur' => range_while fuel' cur' end_ out
        | Raise e => (out, LoopRaised e)
        | OutOfFuel => (out, LoopFuel)
        end
    end
  else (out, LoopDone).

(** The range rule on [s] (which contains a dash).  The boolean is [true]
    when the rule ended in [continue]. *)
Definition range_rule (s : string) (out : list string)
    : result (list string * bool) :=
  match find_sep "-" s with
  | None => Ok (out, false)
  | Some (left_, right_) =>
      match (start ← ip_address left_;
             end_ ← range_end left_ right_;
             Ok (start, end_)) with
      | Ok (start, end_) =>
          if int start <=? int end_ then
            match range_while (Z.to_nat (int end_ - int start + 1))
                    start end_ out with
            | (out, LoopDone) => Ok (out, true)
            | (out, LoopRaised e) =>
                if is_ValueError e then Ok (out, false) else Raise e
            | (_, LoopFuel) => OutOfFuel
            end
          else Ok (out, false)
      | Raise e => if is_ValueError e then Ok (out, false) else Raise e
      | OutOfFuel => OutOfFuel
      end
  end.

(** The text of a line that the rules see: [None] for a skipped line
    (blank or comment), else the line without scheme, path and port. *)
Definition normalize (raw : string) : option string :=
  let s := strip raw in
  if is_empty s || startswith "#" s then None
  else
    let s := match split1_tail "://" s with Some t => t | None => s end in
    let s := split1_head "/" s in
    let s := if contains ":" s then split1_head ":" s else s in
    Some s.

(** The CIDR, single-address and hostname rules on [s]. *)
Definition network_or_host (s : string) (out : list string)
    : result (list string) :=
  try_except
    (net ← ip_network s false; Ok (out ++ map ip_str (hosts net)))
    is_ValueError
    (try_except (a ← ip_address s; Ok (out ++ [ip_str a]))
       is_ValueError
       (Ok (out ++ [s]))).

(** The rules on the stripped text of a line, first match wins: range,
    then network block, address and hostname. *)
Definition apply_rules (s : string) (out : list string)
    : result (list string) :=
  '(out, continued) ←
    (if contains "-" s then range_rule s out else Ok (out, false));
  if continued : bool then Ok out else network_or_host s out.

(** The body of the [for raw in lines] loop. *)
Definition expand_line (out : list string) (raw : string)
    : result (list string) :=
  match normalize raw with
  | None => Ok out
  | Some s => apply_rules s out
  end.

Definition expand_targets (lines : list string) : result (list string) :=
  out ← foldM expand_line [] lines;
  Ok (_dedupe_preserve_order out).

Definition LF : string := String (ascii_of_nat 10) EmptyString.

(** [str.splitlines] boundaries among the code points 0..255 *)
Definition is_linebreak (c : ascii) : bool :=
  let n := code c in
  ((10 <=? n) && (n <=? 13)) || ((28 <=? n) && (n <=? 30)) || (n =? 133).

Fixpoint splitlines_from (s cur : string) (after_cr : bool) : list string :=
  match s with
  | EmptyString => if is_empty cur then [] else [cur]
  | String c r =>
      if after_cr && (code c =? 10) then splitlines_from r cur false
      else if is_linebreak c
      then cur :: splitlines_from r EmptyString (code c =? 13)
      else splitlines_from r (cur +:+ String c EmptyString) false
  end.

(** [s.splitlines()] *)
Definition splitlines (s : string) : list string :=
  splitlines_from s EmptyString false.

(** What [subprocess.run(..., capture_output=True, check=False)] returns:
    the exit status and the outcome of [proc.stdout.decode()]. *)
Record CompletedProcess := {
  returncode : Z;
  stdout_decode : result string
}.

Section Prober.
(** The outside world: the state of the host and the network. *)
Variable world : Type.
(** [subprocess.run(["bash", "-lc", "fping -a -q -f /dev/stdin
    2>/dev/null"], input=..., capture_output=True, check=False)]: it
    raises when the process cannot be started, and returns the
    completed process whatever its exit status. *)
Variable subprocess_run : string → world → result CompletedProcess * world.
(** [socket.create_connection((host, port), timeout=t)] *)
Variable create_connection :
  string → Z → Z → world → result unit * world.

(** [for h in hosts: try: with create_connection((h, 80), timeout=1):
    alive.append(h)  except Exception: pass] *)
Fixpoint tcp_probe (hosts : list string) (alive : list string) (w : world)
    : list string * world :=
  match hosts with
  | [] => (alive, w)
  | h :: rest =>
      match create_connection h 80 1 w with
      | (Ok _, w') => tcp_probe rest (alive ++ [h]) w'
      | (_, w') => tcp_probe rest alive w'
      end
  end.

(** [fping_alive]: the [except Exception] branch runs whenever the [try]
    block does not return. *)
Definition fping_alive (hosts : list string) (w : world)
    : list string * world :=
  match hosts with
  | [] => ([], w)
  | _ =>
      let '(r, w) := subprocess_run (join LF hosts) w in
      match (proc ← r;
             text ← stdout_decode proc;
             Ok (_dedupe_preserve_order
                   (map strip
                      (List.filter (fun x => negb (is_empty (strip x)))
                         (splitlines text))))) with
      | Ok alive => (alive, w)
      | _ =>
          let '(alive, w) := tcp_probe hosts [] w in
          (_dedupe_preserve_order alive, w)
      end
  end.
End Prober.

End Aggregator.

(** ** [core/parse_engine.py] *)

Module ParseEngine.
Import PyStr.

(** The Python values that reach the engine: what [yaml.safe_load],
    [json.loads], [jmespath.search] and lxml's [xpath] return.  A float is
    kept as its printed text (first character and rest) with a flag for
    being non-zero; a [dict] is the list of its items, keys unique. *)
#[warnings="-register-all"]
Inductive value :=
| VNone
| VBool (b : bool)
| VInt (n : Z)
| VFloat (nonzero : bool) (first : ascii) (rest : string)
| VStr (s : string)
| VList (l : list value)
| VDict (items : list (string * value)).

(** [bool(v)] *)
Definition truthy (v : value) : bool :=
  match v with
  | VNone => false
  | VBool b => b
  | VInt n => negb (n =? 0)
  | VFloat nonzero _ _ => nonzero
  | VStr s => negb (is_empty s)
  | VList l => match l with [] => false | _ => true end
  | VDict items => match items with [] => false | _ => true end
  end.

Definition hex2 (n : Z) : string :=
  String (hex_char (n / 16)) (String (hex_char (n mod 16)) EmptyString).

Definition BACKSLASH : ascii := ascii_of_nat 92.
Definition SQUOTE : ascii := ascii_of_nat 39.
Definition DQUOTE : ascii := ascii_of_nat 34.

Definition repr_char (quote c : ascii) : string :=
  let n := code c in
  if Ascii.eqb c quote || Ascii.eqb c BACKSLASH
  then String BACKSLASH (String c EmptyString)
  else if n =? 9 then String BACKSLASH "t"
  else if n =? 10 then String BACKSLASH "n"
  else if n =? 13 then String BACKSLASH "r"
  else if (n <? 32) || (n =? 127) || ((128 <=? n) && (n <=? 160))
          || (n =? 173)
  then String BACKSLASH (String "x" (hex2 n))
  else String c EmptyString.

(** [repr(s)] for a [str] *)
Definition repr_str (s : string) : string :=
  let quote :=
    if has_char SQUOTE s && negb (has_char DQUOTE s) then DQUOTE
    else SQUOTE in
  String quote
    ((fix go (s : string) : string :=
        match s with
        | EmptyString => String quote EmptyString
        | String c r => repr_char quote c +:+ go r
        end) s).

(** [repr(v)] *)
Fixpoint py_repr (v : value) : string :=
  match v with
  | VNone => "None"
  | VBool true => "True"
  | VBool false => "False"
  | VInt n => str_of_int n
  | VFloat _ c r => String c r
  | VStr s => repr_str s
  | VList l => "[" +:+ join ", " (map py_repr l) +:+ "]"
  | VDict items =>
      "{" +:+ join ", "
                (map (fun kv => repr_str (fst kv) +:+ ": "
                                +:+ py_repr (snd kv)) items)
      +:+ "}"
  end.

(** [str(v)] *)
Definition py_str (v : value) : string :=
  match v with
  | VStr s => s
  | _ => py_repr v
  end.

(** [d.get(k, dflt)] on a value: [AttributeError] unless it is a dict *)
Definition value_get (d : value) (k : string) (dflt : value) : result value :=
  match d with
  | VDict items =>
      Ok (default dflt (snd <$> List.find (fun kv => String.eqb (fst kv) k)
                                  items))
  | _ => Raise AttributeError
  end.

(** [d.items()] on a value *)
Definition value_items (d : value) : result (list (string * value)) :=
  match d with
  | VDict items => Ok items
  | _ => Raise AttributeError
  end.

(** A candidate record: the [obj] dict. *)
Abbreviation record := (gmap string value).

(** [obj.get(k)]: [None] when the key is absent *)
Definition obj_get (obj : record) (k : string) : value :=
  default VNone (obj !! k).

(** [bool(obj.get(k))] *)
Definition field_truthy (obj : record) (k : string) : bool :=
  truthy (obj_get obj k).

(** [a or b] *)
Definition py_or (a b : value) : value := if truthy a then a else b.

(** [obj.setdefault(k, v)] *)
Definition setdefault (k : string) (v : value) (obj : record) : record :=
  match obj !! k with
  | Some _ => obj
  | None => <[k := v]> obj
  end.

(** The run context: a dict, as the list of its items. *)
Definition context := list (string * value).

(** [ctx[k]] *)
Definition ctx_lookup (ctx : context) (k : string) : result value :=
  match List.find (fun kv => String.eqb (fst kv) k) ctx with
  | Some kv => Ok (snd kv)
  | None => Raise KeyError
  end.

(** [_sub_literals]: the placeholder of key [k] is the text [{{k}}] *)
Definition _sub_literals (s : string) (ctx : context) : string :=
  fold_left (fun out kv => replace ("{{" +:+ fst kv +:+ "}}")
                             (py_str (snd kv)) out)
    ctx s.

(** [expr[1:-1]] *)
Definition strip_ends (s : string) : string :=
  String.substring 1 (String.length s - 2) s.

(** The test [isinstance(expr, str) and len(expr) >= 2 and
    expr[0] == expr[-1] == "'"] with the literal text when it holds. *)
Definition quoted_literal (expr : value) : option string :=
  match expr with
  | VStr s =>
      if (2 <=? String.length s)%nat
         && bool_decide (String.get 0 s = Some SQUOTE)
         && bool_decide (String.get (String.length s - 1) s = Some SQUOTE)
      then Some (strip_ends s)
      else None
  | _ => None
  end.

(** What lxml's [xpath] yields: elements, strings and other values, in a
    list or as one scalar. *)
Inductive xpath_item (elem : Type) :=
| XElement (e : elem)
| XString (s : string)
| XOther (v : value).
Arguments XElement {elem} e.
Arguments XString {elem} s.
Arguments XOther {elem} v.

Inductive xpath_result (elem : Type) :=
| XList (l : list (xpath_item elem))
| XScalar (v : value).
Arguments XList {elem} l.
Arguments XScalar {elem} v.

(** [if not obj.get("asset"): for k in ("url", "host", "ip", "domain"):
    if obj.get(k): obj["asset"] = obj[k]; break] *)
Definition fill_asset (obj : record) : record :=
  if negb (field_truthy obj "asset") then
    match List.find (field_truthy obj) ["url"; "host"; "ip"; "domain"] with
    | Some k => <["asset" := obj_get obj k]> obj
    | None => obj
    end
  else obj.

(** [title = obj.get("title") or obj.get("service") or obj.get("status")] *)
Definition title_of (obj : record) : value :=
  py_or (obj_get obj "title")
    (py_or (obj_get obj "service") (obj_get obj "status")).

(** [if not obj.get("summary"): obj["summary"] = str(title or "finding")] *)
Definition fill_summary (obj : record) : record :=
  if negb (field_truthy obj "summary") then
    <["summary" := VStr (py_str (py_or (title_of obj) (VStr "finding")))]> obj
  else obj.

(** [missing = [k for k in ("asset", "summary") if not obj.get(k)];
    obj["partial"] = bool(missing)] *)
Definition mark_partial (obj : record) : record :=
  let missing :=
    List.filter (fun k => negb (field_truthy obj k)) ["asset"; "summary"] in
  <["partial" := VBool (match missing with [] => false | _ => true end)]> obj.

(** [if "severity" not in obj: obj["severity"] = "unknown"] *)
Definition default_severity (obj : record) : record :=
  match obj !! "severity" with
  | Some _ => obj
  | None => <["severity" := VStr "unknown"]> obj
  end.

(** [_ensure_soft_schema]; [now] is
    [datetime.datetime.utcnow().isoformat() + "Z"]. *)
Definition _ensure_soft_schema (now : string) (obj : record) (ctx : context)
    : result record :=
  run_id ← ctx_lookup ctx "run_id";
  let obj := setdefault "run_id" run_id obj in
  let obj := setdefault "ts" (VStr now) obj in
  let obj := fill_asset obj in
  let obj := fill_summary obj in
  let obj := mark_partial obj in
  let obj := default_severity obj in
  Ok obj.

(** [_emit]: the new [out_records] *)
Definition _emit (now : string) (obj : record) (ctx : context)
    (out_records : list record) : result (list record) :=
  obj ← _ensure_soft_schema now obj ctx;
  if negb (field_truthy obj "tool") || negb (field_truthy obj "asset")
     || negb (field_truthy obj "summary")
  then Ok out_records
  else Ok (out_records ++ [obj]).

Section Engine.
(** The clock reading, the run directory's name, and the libraries and
    files the engine reads. *)
Variable now : string.
Variable run_id : string.
(** [jmespath.search(expr, data)] *)
Variable jmespath_search : value → value → result value.
(** lxml elements, [elem.xpath(expr)] and [elem.text] *)
Variable elem : Type.
Variable elem_xpath : elem → value → result (xpath_result elem).
Variable elem_text : elem → value.
(** [glob.glob(str(home / "parsers.d" / "*.yaml"))] *)
Variable parsers_glob : list string.
(** [glob.glob(str(run_root / glob_pat))] *)
Variable run_glob : string → list string.
(** [yaml.safe_load(open(p, "rb"))] *)
Variable yaml_safe_load : string → result value.
(** [open(path, "r", encoding="utf-8", errors="ignore")] and the lines
    read from it *)
Variable open_lines : string → result (list string).
(** [json.loads(line)] *)
Variable json_loads : string → result value.
(** [ET.parse(path).getroot()] *)
Variable ET_parse : string → result elem.

Definition _eval_jmes (expr record : value) (ctx : context) : value :=
  match quoted_literal expr with
  | Some lit => VStr (_sub_literals lit ctx)
  | None =>
      match jmespath_search expr record with
      | Ok v => v
      | _ => VNone
      end
  end.

Definition _eval_xpath (expr : value) (item : xpath_item elem)
    (ctx : context) : value :=
  match quoted_literal expr with
  | Some lit => VStr (_sub_literals lit ctx)
  | None =>
      match item with
      | XElement e =>
          match elem_xpath e expr with
          | Ok (XList []) => VNone
          | Ok (XList (XElement v0 :: _)) => elem_text v0
          | Ok (XList (XString s :: _)) => VStr s
          | Ok (XList (XOther v :: _)) => v
          | Ok (XScalar v) => v
          | _ => VNone
          end
      | _ => VNone
      end
  end.

(** [obj = {}; for k, expr in fields.items(): obj[k] = eval(expr)] *)
Definition map_fields (eval : value → value) (fields : value)
    : result record :=
  items ← value_items fields;
  Ok (fold_left (fun obj kv => <[fst kv := eval (snd kv)]> obj)
        items (∅ : record)).

(** The body of [for line in fh] *)
Definition ndjson_line (rec_expr fields : value) (ctx : context)
    (out_records : list record) (line : string) : result (list record) :=
  let line := strip line in
  if is_empty line then Ok out_records
  else
    match json_loads line with
    | Ok raw =>
        base ← jmespath_search rec_expr raw;
        let items := match base with VList l => l | _ => [base] end in
        foldM (fun out itm =>
                 match itm with
                 | VNone => Ok out
                 | _ =>
                     obj ← map_fields (fun expr => _eval_jmes expr itm ctx)
                             fields;
                     _emit now obj ctx out
                 end)
          out_records items
    | _ => Ok out_records
    end.

(** [run_root / glob_pat]: a [TypeError] unless [glob_pat] is a [str] *)
Definition matched_files (glob_pat : value) : result (list string) :=
  match glob_pat with
  | VStr pat => Ok (run_glob pat)
  | _ => Raise TypeError
  end.

(** [for elem in root.xpath(rx)]: iterating a string yields its
    characters, another scalar is not iterable *)
Definition xpath_records (root : elem) (rx : value)
    : result (list (xpath_item elem)) :=
  r ← elem_xpath root rx;
  match r with
  | XList l => Ok l
  | XScalar (VStr s) =>
      Ok (map (fun c => XString (String c EmptyString))
            (list_ascii_of_string s))
  | XScalar _ => Raise TypeError
  end.

(** The body of [for p in parsers] *)
Definition run_parser (ctx : context) (out_records : list record)
    (p : string) : result (list record) :=
  loaded ← yaml_safe_load p;
  let meta := if truthy loaded then loaded else VDict [] in
  ptype ← value_get meta "type" VNone;
  match ptype with
  | VStr "ndjson" =>
      glob_pat ← value_get meta "glob" (VStr "");
      rec_expr ← value_get meta "record_jmes" (VStr "@");
      fields ← value_get meta "fields" (VDict []);
      paths ← matched_files glob_pat;
      foldM (fun out path =>
               match open_lines path with
               | Ok lines =>
                   foldM (ndjson_line rec_expr fields ctx) out lines
               | _ => Ok out
               end)
        out_records paths
  | VStr "xml" =>
      glob_pat ← value_get meta "glob" (VStr "");
      rx ← value_get meta "record_xpath" (VStr "");
      fields ← value_get meta "fields" (VDict []);
      paths ← matched_files glob_pat;
      foldM (fun out path =>
               match ET_parse path with
               | Ok root =>
                   items ← xpath_records root rx;
                   foldM (fun out item =>
                            obj ← map_fields
                                    (fun expr => _eval_xpath expr item ctx)
                                    fields;
                            _emit now obj ctx out)
                     out items
               | _ => Ok out
               end)
        out_records paths
  | _ => Ok out_records
  end.

(** [parse_and_merge]: the records written to
    [03-merge/findings_merged.ndjson]; the function returns their
    number. *)
Definition parse_and_merge : result (list record) :=
  let parsers := merge_sort String.le parsers_glob in
  let ctx_global := [("run_id", VStr run_id)] in
  foldM (run_parser ctx_global) [] parsers.

End Engine.

End ParseEngine.

(** ** Specification-side definitions *)

Module Spec.
Import PyStr IpAddress Aggregator.

(** Order-preserving deduplication as the specification words it: the
    first occurrence of a target keeps its position, every later
    duplicate is discarded. *)
Fixpoint first_occurrences (items : list string) : list string :=
  match items with
  | [] => []
  | x :: rest => x :: filter (λ y, y ≠ x) (first_occurrences rest)
  end.

(** The addresses [a], [a + 1], ..., [b] in dotted-quad text. *)
Definition v4_range (a b : Z) : list string :=
  map (λ n, ip_str (IPv4Address n)) (seqZ a (b - a + 1)).

(** Two target lists hold the same set of targets. *)
Definition same_targets (l1 l2 : list string) : Prop :=
  ∀ x, x ∈ l1 ↔ x ∈ l2.

(** Idempotence of expansion up to set equality, on one input. *)
Definition expansion_idempotent_on (lines : list string) : Prop :=
  ∀ out1 out2,
    expand_targets lines = Ok out1 →
    expand_targets out1 = Ok out2 →
    same_targets out2 out1.

(** A target that a second pass reads back as it is: not empty, no
    whitespace at either end, not a comment. *)
Definition stable_text (t : string) : bool :=
  negb (is_empty t) && String.eqb (strip t) t && negb (startswith "#" t).

(** A digit or a dot. *)
Definition dotted_char (c : ascii) : bool :=
  is_ascii_digit c || Ascii.eqb c ".".

(** The range rule lets [s] through: it emits nothing and does not end
    in [continue]. *)
Definition range_rule_passes (s : string) : bool :=
  negb (contains "-" s)
  || match range_rule s [] with Ok ([], false) => true | _ => false end.

(** No rule of the expander matches [s]: it is no range, no network
    block and no address. *)
Definition no_rule_matches (s : string) : bool :=
  range_rule_passes s
  && match ip_network s false with Raise _ => true | _ => false end
  && match ip_address s with Raise _ => true | _ => false end.

Section Probe.
Variable world : Type.
Variable create_connection : string → Z → Z → world → result unit * world.

(** [probed hosts w alive w']: connecting to port 80 of each host in
    turn, with a timeout of one second, from the world [w], succeeds
    exactly for [alive] and leaves the world [w']. *)
Inductive probed : list string → world → list string → world → Prop :=
| probed_nil w : probed [] w [] w
| probed_up h rest w w' alive w'' :
    create_connection h 80 1 w = (Ok (), w') →
    probed rest w' alive w'' →
    probed (h :: rest) w (h :: alive) w''
| probed_down h rest w r w' alive w'' :
    create_connection h 80 1 w = (r, w') →
    r ≠ Ok () →
    probed rest w' alive w'' →
    probed (h :: rest) w alive w''.

Variable subprocess_run : string → world → result CompletedProcess * world.

(** The sweep invocation on [hosts] from the world [w] raises, when the
    process is started or when its output is decoded, and leaves the
    world [w1]. *)
Definition sweep_raises (hosts : list string) (w w1 : world) : Prop :=
  (∃ e, subprocess_run (join LF hosts) w = (Raise e, w1))
  ∨ (∃ proc e, subprocess_run (join LF hosts) w = (Ok proc, w1)
               ∧ stdout_decode proc = Raise e).
End Probe.

End Spec.

(** ** A small run of the engine and of the prober, for the examples *)

Module Fixture.
Import PyStr Aggregator ParseEngine.

(** [jmespath.search] on the two kinds of expression the examples use:
    the current node [@] and a field name. *)
Definition jmespath_fields (expr data : value) : result value :=
  match expr with
  | VStr "@" => Ok data
  | VStr k =>
      match data with
      | VDict _ => value_get data k VNone
      | _ => Ok VNone
      end
  | _ => Raise JMESPathError
  end.

(** A well-formed rule: record-stream output of one tool. *)
Definition nmap_rule : value :=
  VDict [("type", VStr "ndjson"); ("glob", VStr "02-raw/nmap.ndjson");
         ("fields", VDict [("tool", VStr "'nmap'"); ("asset", VStr "host");
                           ("summary", VStr "title")])].

(** [10-bad.yaml] is not parsable YAML; [20-nmap.yaml] holds
    [nmap_rule]. *)
Definition yaml_files (p : string) : result value :=
  if String.eqb p "parsers.d/10-bad.yaml" then Raise YAMLError
  else if String.eqb p "parsers.d/20-nmap.yaml" then Ok nmap_rule
  else Raise OSError.

(** The text [s] between double quotes. *)
Definition dq (s : string) : string :=
  String DQUOTE (s +:+ String DQUOTE EmptyString).

(** One line of the tool's output: a JSON object with the keys [host]
    and [title]. *)
Definition nmap_line : string :=
  "{" +:+ dq "host" +:+ ": " +:+ dq "10.0.0.5" +:+ ", "
      +:+ dq "title" +:+ ": " +:+ dq "Open port" +:+ "}".

Definition json_lines (line : string) : result value :=
  if String.eqb line nmap_line
  then Ok (VDict [("host", VStr "10.0.0.5"); ("title", VStr "Open port")])
  else Raise JSONDecodeError.

Definition run_engine (parsers : list string)
    : result (list (gmap string value)) :=
  parse_and_merge "2026-01-01T00:00:00Z" "run-1" jmespath_fields
    unit (λ _ _, Raise XPathError) (λ _, VNone)
    parsers
    (λ pat, [pat])
    yaml_files
    (λ _, Ok [nmap_line; "not json"])
    json_lines
    (λ _, Raise XMLSyntaxError).

(** The run context of the engine. *)
Definition ctx_global : context := [("run_id", VStr "run-1")].

(** A mapped record with a tool and a host, and neither [asset] nor
    [summary]. *)
Definition host_only_record : gmap string value :=
  {[ "tool" := VStr "nmap"; "host" := VStr "10.0.0.5" ]}.

(** A mapped record whose [summary] is the number 443. *)
Definition numeric_summary_record : gmap string value :=
  {[ "tool" := VStr "nmap"; "asset" := VStr "10.0.0.5";
     "summary" := VInt 443 ]}.

(** A host where the sweep utility runs, reports no host and exits with
    status 1, while every TCP connection succeeds. *)
Definition sweep_exit_1 (input : string) (w : unit)
    : result CompletedProcess * unit :=
  (Ok {| returncode := 1; stdout_decode := Ok "" |}, w).

(** A host where the sweep process cannot be started. *)
Definition sweep_not_started (input : string) (w : unit)
    : result CompletedProcess * unit :=
  (Raise OSError, w).

Definition connect_always (h : string) (port timeout : Z) (w : unit)
    : result unit * unit :=
  (Ok (), w).

(** Only [10.0.0.2] accepts connections. *)
Definition connect_one (h : string) (port timeout : Z) (w : unit)
    : result unit * unit :=
  (if String.eqb h "10.0.0.2" then Ok () else Raise OSError, w).

End Fixture.

(** ** Calls that change the outside world *)

Module IO.

(** A call on the world [W] (files, processes, the network) that returns
    or raises, and leaves a world behind. *)
Definition io (W A : Type) : Type := W → result A * W.

#[global] Instance io_ret {W} : MRet (io W) := fun A a w => (Ok a, w).
#[global] Instance io_bind {W} : MBind (io W) := fun A B f c w =>
  match c w with
  | (Ok a, w') => f a w'
  | (Raise e, w') => (Raise e, w')
  | (OutOfFuel, w') => (OutOfFuel, w')
  end.

(** A computation that does not touch the world. *)
Definition lift {W A} (r : result A) : io W A := fun w => (r, w).

(** A look at the world. *)
Definition reads {W A} (f : W → A) : io W A := fun w => (Ok (f w), w).

End IO.

(** ** [core/utils.py] *)

Module Utils.
Import PyStr Aggregator IO.

(** The loop of [read_lines] over [data.splitlines()]: each line is
    stripped, blank lines and comment lines are left out. *)
Definition kept_lines (data : string) : list string :=
  List.filter (fun line => negb (is_empty line) && negb (startswith "#" line))
    (map strip (splitlines data)).

Section Files.
(** The file system and its paths ([pathlib.Path]). *)
Variable world : Type.
Variable Path : Type.
(** [p.exists()] *)
Variable path_exists : Path → world → bool.
(** [p.read_text(encoding="utf-8")] *)
Variable read_text : Path → world → result string.
(** [p.parent] *)
Variable parent : Path → Path.
(** [p.mkdir(parents=True, exist_ok=True)] *)
Variable mkdir : Path → io world unit.
(** [p.write_text(content, encoding="utf-8")] *)
Variable write_file : Path → string → io world unit.

(** [write_text]: a path object is always truthy, so the parent
    directory is always made; [content or ""] is [content]. *)
Definition write_text (p : Path) (content : string) : io world unit :=
  _ ← mkdir (parent p);
  write_file p content.

(** [read_lines]; the warning printed on a failed read is left out. *)
Definition read_lines (p : Path) (w : world) : list string :=
  if negb (path_exists p w) then []
  else
    match read_text p w with
    | Ok data => kept_lines data
    | _ => []
    end.
End Files.

End Utils.

(** ** [core/discovery.py] *)

Module Discovery.
Import PyStr IpAddress Aggregator ParseEngine IO.

(** The shell command of [routes_cidr]. *)
Definition routes_cmd : string :=
  "ip -o route | awk '$1 !~ /^(default|unreachable)$/ && $3 == "
  +:+ String BACKSLASH (String DQUOTE "link")
  +:+ String BACKSLASH (String DQUOTE " {print $1}'").

(** The body of [for line in p.stdout.splitlines()]. *)
Definition routes_line (nets : list string) (line : string)
    : result (list string) :=
  let s := strip line in
  if is_empty s then Ok nets
  else
    try_except (_ ← ip_network s false; Ok (nets ++ [s]))
      is_ValueError (Ok nets).

(** [sorted(set(l))] *)
Definition sorted_set (l : list string) : list string :=
  merge_sort String.le (elements (list_to_set l : gset string)).

Section Routes.
Variable world : Type.
(** [subprocess.run(["bash", "-lc", cmd], capture_output=True, text=True,
    check=False).stdout] *)
Variable subprocess_text : string → io world string.

Definition routes_cidr : io world (list string) :=
  stdout ← subprocess_text routes_cmd;
  lift (nets ← foldM routes_line [] (splitlines stdout);
        Ok (sorted_set nets)).
End Routes.

End Discovery.

(** ** [core/aggregator.py]: gathering the targets *)

Module Aggregate.
Import PyStr IpAddress Aggregator ParseEngine IO Utils Discovery.

(** The dict that [_load_ftp_cfg_from_yaml] returns. *)
Record ftp_cfg := {
  cfg_host : value;
  cfg_user : value;
  cfg_password : value;
  cfg_path : value;
  cfg_protocol : value
}.

(** The dict that [aggregate] returns. *)
Record summary := {
  n_ftp : nat;
  n_tg : nat;
  n_local : nat;
  n_autodiscovery : nat;
  n_raw_all : nat;
  expanded : list string;
  alive : list string
}.

(** [cfg.get(k1) or cfg.get(k2)] *)
Definition get_either (cfg : value) (k1 k2 : string) : result value :=
  a ← value_get cfg k1 VNone;
  b ← value_get cfg k2 VNone;
  Ok (py_or a b).

(** [cfg.get(k1) or cfg.get(k2) or dflt] *)
Definition get_or (cfg : value) (k1 k2 : string) (dflt : value)
    : result value :=
  a ← get_either cfg k1 k2;
  Ok (py_or a dflt).

(** [env.get(k) or dflt] *)
Definition env_or (env : gmap string string) (k dflt : string) : string :=
  match env !! k with
  | Some v => if is_empty v then dflt else v
  | None => dflt
  end.

(** The configuration taken from the environment, when [FTP_HOST] is
    set. *)
Definition ftp_cfg_of_env (env : gmap string string) : option ftp_cfg :=
  let host := env_or env "FTP_HOST" "" in
  if is_empty host then None
  else
    Some {| cfg_host := VStr host;
            cfg_user := VStr (env_or env "FTP_USER" "anonymous");
            cfg_password := VStr (env_or env "FTP_PASS" "anonymous@");
            cfg_path := VStr (env_or env "FTP_PATH" "/targets.txt");
            cfg_protocol := VStr (env_or env "FTP_PROTO" "ftp") |}.

(** The formatted URL of the target list. *)
Definition ftp_url (cfg : ftp_cfg) : string :=
  py_str (cfg_protocol cfg) +:+ "://" +:+ py_str (cfg_user cfg) +:+ ":"
  +:+ py_str (cfg_password cfg) +:+ "@" +:+ py_str (cfg_host cfg)
  +:+ py_str (cfg_path cfg).

(** The text [s] between double quotes. *)
Definition quoted (s : string) : string :=
  String DQUOTE (s +:+ String DQUOTE EmptyString).

Definition curl_cmd (url out_file : string) : string :=
  "curl -m 15 --silent --show-error " +:+ quoted url +:+ " -o "
  +:+ quoted out_file +:+ " || true".

Section Gather.
Variable world : Type.
Variable Path : Type.
(** [Path(s)], [str(p)], [p / name] and [p.parents[1]], which raises for a
    path without a grandparent *)
Variable Path_of : string → Path.
Variable str_path : Path → string.
Variable joinpath : Path → string → Path.
Variable parents1 : Path → result Path.
Variable path_exists : Path → world → bool.
Variable read_text : Path → world → result string.
Variable parent : Path → Path.
Variable mkdir : Path → io world unit.
Variable write_file : Path → string → io world unit.
(** [yaml.safe_load(text)] *)
Variable yaml_safe_load : string → result value.
(** [subprocess.run(["bash", "-lc", cmd], check=False)] *)
Variable run_shell : string → io world unit.
Variable subprocess_text : string → io world string.
Variable subprocess_run : string → world → result CompletedProcess * world.
Variable create_connection :
  string → Z → Z → world → result unit * world.

(** [_load_ftp_cfg_from_yaml]: reading and parsing are guarded, the
    lookups in the parsed value are not. *)
Definition _load_ftp_cfg_from_yaml (project_root : Path) (w : world)
    : result (option ftp_cfg) :=
  let cfg_path := joinpath (joinpath project_root "config") "ftp.yaml" in
  if negb (path_exists cfg_path w) then Ok None
  else
    match (text ← read_text cfg_path w;
           loaded ← yaml_safe_load text;
           Ok (if truthy loaded then loaded else VDict [])) with
    | Ok cfg =>
        host ← get_either cfg "host" "server";
        if negb (truthy host) then Ok None
        else
          user ← get_or cfg "user" "username" (VStr "anonymous");
          password ← get_or cfg "password" "pass" (VStr "anonymous@");
          path ← value_get cfg "path" VNone;
          protocol ← get_or cfg "protocol" "scheme" (VStr "ftp");
          Ok (Some {| cfg_host := host;
                      cfg_user := user;
                      cfg_password := password;
                      cfg_path := py_or path (VStr "/targets.txt");
                      cfg_protocol := protocol |})
    | _ => Ok None
    end.

Definition load_ftp_targets (project_root agg_dir : Path)
    (env : gmap string string) : io world (list string) :=
  cfg ← (fun w => (_load_ftp_cfg_from_yaml project_root w, w));
  let cfg :=
    match cfg with
    | Some cfg => Some cfg
    | None => ftp_cfg_of_env env
    end in
  match cfg with
  | None => mret []
  | Some cfg =>
      let out_file := joinpath agg_dir "raw_ftp.txt" in
      _ ← run_shell (curl_cmd (ftp_url cfg) (str_path out_file));
      reads (read_lines world Path path_exists read_text out_file)
  end.

(** The four sources of [aggregate], in the order they are read: the FTP
    list, the list received by the bot, the local list and the link
    networks of the host.  [Path(str(p))] is [p]. *)
Definition gather (project_root agg_dir : Path) (env : gmap string string)
    : io world (list string * list string * list string * list string) :=
  ftp_lines ← load_ftp_targets project_root agg_dir env;
  let tg_file :=
    joinpath (joinpath (joinpath project_root "data") "incoming")
      "targets_tg.txt" in
  tg_lines ← reads (read_lines world Path path_exists read_text tg_file);
  let local_file := joinpath (joinpath project_root "config") "targets.txt" in
  local_lines ←
    reads (read_lines world Path path_exists read_text local_file);
  auto_nets ←
    (if String.eqb (default "1" (env !! "AUTO_DISCOVERY")) "1"
     then routes_cidr world subprocess_text
     else mret []);
  mret (ftp_lines, tg_lines, local_lines, auto_nets).

(** [write_text(str(p), content)] *)
Definition save (p : Path) (content : string) : io world unit :=
  write_text world Path parent mkdir write_file p content.

Definition aggregate (run_dir : string) (env : gmap string string)
    : io world summary :=
  let run_path := Path_of run_dir in
  project_root ← lift (parents1 run_path);
  let agg_dir := joinpath run_path "01-aggregated" in
  _ ← mkdir agg_dir;
  '(ftp_lines, tg_lines, local_lines, auto_nets) ←
    gather project_root agg_dir env;
  let raw_all :=
    sorted_set (ftp_lines ++ tg_lines ++ local_lines ++ auto_nets) in
  _ ← save (joinpath agg_dir "raw_tg.txt") (join LF tg_lines);
  _ ← save (joinpath agg_dir "raw_local.txt") (join LF local_lines);
  _ ← save (joinpath agg_dir "raw_all.txt") (join LF raw_all);
  _ ← save (joinpath agg_dir "raw_autodiscovery.txt") (join LF auto_nets);
  match raw_all with
  | [] =>
      _ ← save (joinpath agg_dir "expanded.txt") EmptyString;
      _ ← save (joinpath agg_dir "alive.txt") EmptyString;
      mret {| n_ftp := length ftp_lines;
              n_tg := length tg_lines;
              n_local := length local_lines;
              n_autodiscovery := length auto_nets;
              n_raw_all := 0;
              expanded := [];
              alive := [] |}
  | _ =>
      expanded ← lift (expand_targets raw_all);
      _ ← save (joinpath agg_dir "expanded.txt") (join LF expanded);
      alive ←
        (fun w =>
           let '(alive, w) :=
             fping_alive world subprocess_run create_connection expanded w in
           (Ok alive, w));
      _ ← save (joinpath agg_dir "alive.txt") (join LF alive);
      mret {| n_ftp := length ftp_lines;
              n_tg := length tg_lines;
              n_local := length local_lines;
              n_autodiscovery := length auto_nets;
              n_raw_all := length raw_all;
              expanded := expanded;
              alive := alive |}
  end.

End Gather.

End Aggregate.

(** ** [core/report_html.py], [core/tg_bot.py]: severity names *)

Module Report.
Import PyStr ParseEngine.

(** [c.lower()] on the code points 0..255: the ASCII capitals and the
    Latin-1 capitals (all of 192..222 but the multiplication sign). *)
Definition lower_char (c : ascii) : ascii :=
  let n := code c in
  if ((65 <=? n) && (n <=? 90))
     || ((192 <=? n) && (n <=? 222) && negb (n =? 215))
  then ascii_of_N (Z.to_N (n + 32))
  else c.

(** [s.lower()] *)
Fixpoint lower (s : string) : string :=
  match s with
  | EmptyString => EmptyString
  | String c r => String (lower_char c) (lower r)
  end.

(** [_norm_severity], the same in both modules *)
Definition _norm_severity (s : value) : string :=
  if negb (truthy s) then "unknown"
  else
    let s := lower (strip (py_str s)) in
    if String.eqb s "informational" || String.eqb s "info" then "info"
    else s.

End Report.

(** ** [core/plugins.py] and the scan loop of [core/cli.py] *)

Module Plugins.
Import PyStr ParseEngine IO.

(** [tpl.replace(old, new)] on a value: only a [str] has the method *)
Definition value_replace (old new : string) (tpl : value) : result value :=
  match tpl with
  | VStr s => Ok (VStr (replace old new s))
  | _ => Raise AttributeError
  end.

(** [render_cmd] *)
Definition render_cmd (tpl : value) (ctx : context) : result value :=
  foldM (fun cmd kv =>
           value_replace ("{{" +:+ fst kv +:+ "}}") (py_str (snd kv)) cmd)
    tpl ctx.

Section Run.
Variable world : Type.
Variable Path : Type.
Variable joinpath : Path → string → Path.
Variable path_exists : Path → world → bool.
Variable read_text : Path → world → result string.
Variable yaml_safe_load : string → result value.
(** [subprocess.run(cmd, shell=True).returncode] *)
Variable run_shell : value → io world Z.
(** [str(e)] for a caught exception *)
Variable exn_text : exn → string.

(** [load_plugin]; [FileNotFoundError] is an [OSError]. *)
Definition load_plugin (home : Path) (name : string) (w : world)
    : result value :=
  let p := joinpath (joinpath home "plugins.d") (name +:+ ".yaml") in
  if negb (path_exists p w) then Raise OSError
  else
    text ← read_text p w;
    loaded ← yaml_safe_load text;
    Ok (if truthy loaded then loaded else VDict []).

Definition run_plugin (home : Path) (run_id name : string) : io world Z :=
  meta ← (fun w => (load_plugin home name w, w));
  image ← lift (value_get meta "image" (VStr ""));
  cmd_tpl ← lift (value_get meta "cmd" (VStr ""));
  if negb (truthy cmd_tpl) then lift (Raise ValueError)
  else
    cmd ← lift (render_cmd cmd_tpl
                  [("image", image); ("run_id", VStr run_id)]);
    run_shell cmd.

(** The loop of [cmd_run] over the steps of the pipeline: the new
    [errors], a list of (step, error text). *)
Fixpoint scan_loop (home : Path) (rid : string) (continue_on_error : bool)
    (steps : list string) (errors : list (string * string))
    : io world (list (string * string)) :=
  match steps with
  | [] => mret errors
  | step :: rest =>
      fun w =>
        match run_plugin home rid step w with
        | (Ok rc, w) =>
            let errors :=
              if negb (rc =? 0)
              then errors ++ [(step, "exit " +:+ str_of_int rc)]
              else errors in
            scan_loop home rid continue_on_error rest errors w
        | (Raise e, w) =>
            let errors := errors ++ [(step, exn_text e)] in
            if negb continue_on_error then (Raise e, w)
            else scan_loop home rid continue_on_error rest errors w
        | (OutOfFuel, w) => (OutOfFuel, w)
        end
  end.
End Run.

End Plugins.

(** ** What the engine writes *)

Module Invariants.
Import PyStr ParseEngine.

(** A finding as [parse_and_merge] writes it: [tool], [asset] and
    [summary] are truthy, [partial] is false, and the keys [run_id], [ts]
    and [severity] are there. *)
Definition complete_finding (r : gmap string value) : Prop :=
  field_truthy r "tool" = true
  ∧ field_truthy r "asset" = true
  ∧ field_truthy r "summary" = true
  ∧ r !! "partial" = Some (VBool false)
  ∧ is_Some (r !! "run_id") ∧ is_Some (r !! "ts")
  ∧ is_Some (r !! "severity").

(** The fields the soft-schema completion may write. *)
Definition schema_keys : list string :=
  ["run_id"; "ts"; "asset"; "summary"; "partial"; "severity"].

(** The fields an [asset] can come from, in the order they are tried. *)
Definition asset_sources : list string :=
  ["asset"; "url"; "host"; "ip"; "domain"].

(** A line of the routing table is kept when its stripped text is not
    empty and names a network. *)
Definition kept_route (s : string) : Prop :=
  s ≠ "" ∧ strip s = s ∧ ∃ net, IpAddress.ip_network s false = Ok net.

End Invariants.

(** ** Sample hosts, for the examples *)

Module Samples.
Import PyStr Aggregator ParseEngine IO Aggregate Plugins.

(** The output of the route listing: a network twice, with blanks around
    it, and a line that names no network. *)
Definition route_text : string :=
  " 192.168.1.0/30 " +:+ LF +:+ "dev" +:+ LF +:+ "10.0.0.0/31" +:+ LF
  +:+ "192.168.1.0/30".

Definition route_listing (cmd : string) : io unit string :=
  fun w => (Ok route_text, w).

(** The output of a sweep that found two hosts. *)
Definition sweep_text : string :=
  " 10.0.0.1 " +:+ LF +:+ LF +:+ "10.0.0.7".

Definition sweep_finds_two (input : string) (w : unit)
    : result CompletedProcess * unit :=
  (Ok {| returncode := 1; stdout_decode := Ok sweep_text |}, w).

(** A local target list: a range, a comment and a hostname. *)
Definition local_targets : string :=
  "10.0.0.1-3" +:+ LF +:+ "# lab" +:+ LF +:+ "example.org".

(** A host whose only file is [local], where no process changes anything
    and paths are written as texts. *)
Definition file_exists (local : bool) (p : string) (w : unit) : bool :=
  local && String.eqb p "/workspace/config/targets.txt".

Definition file_text (p : string) (w : unit) : result string :=
  if String.eqb p "/workspace/config/targets.txt" then Ok local_targets
  else Raise OSError.

Definition quiet {A} (a : A) : io unit A := fun w => (Ok a, w).

Definition aggregate_on (local : bool)
    (subprocess_run : string → unit → result CompletedProcess * unit)
    (create_connection : string → Z → Z → unit → result unit * unit)
    (env : gmap string string) : result summary * unit :=
  aggregate unit string (fun s => s) (fun p => p)
    (fun p name => p +:+ "/" +:+ name) (fun _ => Ok "/workspace")
    (file_exists local) file_text (fun p => p) (fun _ => quiet ())
    (fun _ _ => quiet ()) (fun _ => Raise YAMLError) (fun _ => quiet ())
    route_listing subprocess_run create_connection
    "/workspace/out/run-1" env ().

(** Three steps: the first exits with status 2, the second has no rule
    file, the third succeeds. *)
Definition plugin_run (home : string) (rid step : string) : io unit Z :=
  run_plugin unit string (fun p name => p +:+ "/" +:+ name)
    (fun p _ => negb (String.eqb p "/workspace/plugins.d/nuclei.yaml"))
    (fun p _ =>
       Ok (if String.eqb p "/workspace/plugins.d/httpx.yaml" then "fails"
           else "works"))
    (fun text => Ok (VDict [("cmd", VStr text)]))
    (fun cmd => quiet (match cmd with VStr "fails" => 2 | _ => 0 end))
    home rid step.

Definition scan_on (continue_on_error : bool) (steps : list string)
    : result (list (string * string)) * unit :=
  scan_loop unit string (fun p name => p +:+ "/" +:+ name)
    (fun p _ => negb (String.eqb p "/workspace/plugins.d/nuclei.yaml"))
    (fun p _ =>
       Ok (if String.eqb p "/workspace/plugins.d/httpx.yaml" then "fails"
           else "works"))
    (fun text => Ok (VDict [("cmd", VStr text)]))
    (fun cmd => quiet (match cmd with VStr "fails" => 2 | _ => 0 end))
    (fun _ => "error")
    "/workspace" "run-1" continue_on_error steps [] ().

End Samples.

(** * Proofs *)

Import PyStr IpAddress Aggregator ParseEngine Spec.

(** ** The model on the specification's examples *)

Example expand_strips_scheme_port_path :
  expand_targets ["https://example.com:8443/path"] = Ok ["example.com"].
Proof. by vm_compute. Qed.

Example expand_skips_blank_and_comment :
  expand_targets ["  "; "# note"; " 1.2.3.4:443 "] = Ok ["1.2.3.4"].
Proof. by vm_compute. Qed.

Example expand_reversed_range_is_hostname :
  expand_targets ["10.0.0.9-5"] = Ok ["10.0.0.9-5"].
Proof. by vm_compute. Qed.

Example expand_full_range_crosses_octet :
  expand_targets ["10.0.0.254-10.0.1.1"]
  = Ok ["10.0.0.254"; "10.0.0.255"; "10.0.1.0"; "10.0.1.1"].
Proof. by vm_compute. Qed.

Example expand_range_to_last_address :
  expand_targets ["255.255.255.254-255"]
  = Ok ["255.255.255.254"; "255.255.255.255"].
Proof. by vm_compute. Qed.

Example ip_address_rejects_leading_zero :
  ip_address "10.0.0.05" = Raise ValueError.
Proof. by vm_compute. Qed.

Example ip_str_after_last_v4 :
  (a ← ip_address_of_int (2 ^ 32); Ok (ip_str a)) = Ok "::1:0:0".
Proof. by vm_compute. Qed.

Example splitlines_keeps_inner_blank :
  splitlines ("a" +:+ LF +:+ LF +:+ "b" +:+ LF) = ["a"; ""; "b"].
Proof. by vm_compute. Qed.

Example fping_alive_empty_input :
  fping_alive unit Fixture.sweep_not_started Fixture.connect_always [] ()
  = ([], ()).
Proof. reflexivity. Qed.

Example sub_literals_run_id :
  _sub_literals "scan-{{run_id}}" Fixture.ctx_global = "scan-run-1".
Proof. by vm_compute. Qed.

Example soft_schema_mapped_record :
  ∃ finding,
    Fixture.run_engine ["parsers.d/20-nmap.yaml"] = Ok [finding]
    ∧ finding !! "asset" = Some (VStr "10.0.0.5")
    ∧ finding !! "summary" = Some (VStr "Open port")
    ∧ finding !! "tool" = Some (VStr "nmap")
    ∧ finding !! "partial" = Some (VBool false)
    ∧ finding !! "severity" = Some (VStr "unknown")
    ∧ finding !! "run_id" = Some (VStr "run-1").
Proof. eexists. split; [by vm_compute|]. by vm_compute. Qed.

(** ** The exception monad *)

Lemma foldM_app {A S} (f : S → A → result S) (s : S) (l1 l2 : list A) :
  foldM f s (l1 ++ l2) = (s' ← foldM f s l1; foldM f s' l2).
Proof.
  revert s. induction l1 as [|x l1 IH]; intros s; simpl; [done|].
  destruct (f s x) as [s'| |]; simpl; auto.
Qed.

(** A loop body that only appends makes the loop append the
    concatenation. *)
Lemma foldM_append {A B} (f : list B → A → result (list B))
    (g : A → list B) (l : list A) (out : list B) :
  (∀ out x, x ∈ l → f out x = Ok (out ++ g x)) →
  foldM f out l = Ok (out ++ concat (map g l)).
Proof.
  revert out. induction l as [|x l IH]; intros out Hf; simpl.
  - by rewrite app_nil_r.
  - rewrite Hf by left. simpl. rewrite IH.
    + by rewrite <- app_assoc.
    + intros out' y Hy. apply Hf. by right.
Qed.

(** ** Order-preserving deduplication *)

Lemma filter_filter_ne_seen (seen : gset string) (x : string) (l : list string) :
  x ∈ seen →
  filter (λ y, y ∉ seen) (filter (λ y, y ≠ x) l) = filter (λ y, y ∉ seen) l.
Proof.
  intros Hx. induction l as [|y l IH]; [done|].
  rewrite !filter_cons. destruct (decide (y ≠ x)) as [Hne|Heq].
  - rewrite filter_cons. destruct (decide (y ∉ seen)); by rewrite IH.
  - apply dec_stable in Heq. subst y.
    destruct (decide (x ∉ seen)); [done|]. apply IH.
Qed.

Lemma filter_filter_union (seen : gset string) (x : string) (l : list string) :
  filter (λ y, y ∉ seen) (filter (λ y, y ≠ x) l)
  = filter (λ y, y ∉ {[x]} ∪ seen) l.
Proof.
  induction l as [|y l IH]; [done|].
  rewrite !filter_cons. destruct (decide (y ≠ x)) as [Hne|Heq].
  - rewrite filter_cons.
    destruct (decide (y ∉ seen)), (decide (y ∉ {[x]} ∪ seen));
      rewrite IH; try done; set_solver.
  - apply dec_stable in Heq. subst y.
    destruct (decide (x ∉ {[x]} ∪ seen)); [set_solver|]. apply IH.
Qed.

Lemma dedupe_loop_spec (items : list string) (seen : gset string)
    (out : list string) :
  dedupe_loop items seen out
  = out ++ filter (λ y, y ∉ seen) (first_occurrences items).
Proof.
  revert seen out. induction items as [|x items IH]; intros seen out; simpl.
  - by rewrite app_nil_r.
  - rewrite filter_cons. destruct (decide (x ∈ seen)) as [Hin|Hnin].
    + rewrite IH. destruct (decide (x ∉ seen)); [done|].
      by rewrite filter_filter_ne_seen.
    + rewrite IH. destruct (decide (x ∉ seen)); [|done].
      rewrite <- app_assoc. simpl. by rewrite filter_filter_union.
Qed.

Lemma dedupe_first_occurrences (items : list string) :
  _dedupe_preserve_order items = first_occurrences items.
Proof.
  unfold _dedupe_preserve_order. rewrite dedupe_loop_spec. simpl.
  induction (first_occurrences items) as [|y l IH]; [done|].
  rewrite filter_cons. destruct (decide (y ∉ (∅ : gset string))).
  - by rewrite IH.
  - set_solver.
Qed.

Lemma elem_of_first_occurrences (x : string) (items : list string) :
  x ∈ first_occurrences items ↔ x ∈ items.
Proof.
  induction items as [|y items IH]; simpl; [done|].
  rewrite !elem_of_cons, list_elem_of_filter, IH.
  destruct (decide (x = y)); naive_solver.
Qed.

Lemma NoDup_first_occurrences (items : list string) :
  NoDup (first_occurrences items).
Proof.
  induction items as [|y items IH]; simpl; constructor.
  - rewrite list_elem_of_filter. naive_solver.
  - by apply NoDup_filter.
Qed.

Lemma filter_ne_notin (x : string) (l : list string) :
  x ∉ l → filter (λ y, y ≠ x) l = l.
Proof.
  induction l as [|y l IH]; intros Hx; [done|].
  rewrite filter_cons. destruct (decide (y ≠ x)) as [|Heq].
  - f_equal. apply IH. set_solver.
  - apply dec_stable in Heq. set_solver.
Qed.

Lemma first_occurrences_NoDup (items : list string) :
  NoDup items → first_occurrences items = items.
Proof.
  induction 1 as [|x l Hx Hl IH]; simpl; [done|].
  by rewrite IH, filter_ne_notin.
Qed.
Lemma filter_ne_filter_notin (x : string) (l1 l : list string) :
  filter (λ y, y ≠ x) (filter (λ y, y ∉ l1) l) = filter (λ y, y ∉ x :: l1) l.
Proof.
  induction l as [|y l IHl]; [done|].
  rewrite !filter_cons.
  destruct (decide (y ∉ l1)) as [Hy|Hy], (decide (y ∉ x :: l1)) as [Hy'|Hy'].
  - rewrite filter_cons. destruct (decide (y ≠ x)); [by rewrite IHl|].
    set_solver.
  - rewrite filter_cons. destruct (decide (y ≠ x)) as [Hne|]; [|done].
    exfalso. apply Hy'. rewrite not_elem_of_cons. done.
  - set_solver.
  - done.
Qed.

Lemma first_occurrences_app (l1 l2 : list string) :
  first_occurrences (l1 ++ l2)
  = first_occurrences l1 ++ filter (λ y, y ∉ l1) (first_occurrences l2).
Proof.
  induction l1 as [|x l1 IH]; simpl.
  - induction (first_occurrences l2) as [|y l IHl]; [done|].
    rewrite filter_cons. destruct (decide (y ∉ [])) as [|Hn].
    + by rewrite <- IHl.
    + exfalso. apply Hn. apply not_elem_of_nil.
  - f_equal. by rewrite IH, filter_app, filter_ne_filter_notin.
Qed.

Lemma first_occurrences_sublist (items : list string) :
  first_occurrences items `sublist_of` items.
Proof.
  induction items as [|x items IH]; simpl; [done|].
  apply sublist_skip. etrans; [apply sublist_filter|done].
Qed.

(** ** The expander never raises *)

Lemma ip_address_of_int_int (n : Z) (a : ip) :
  ip_address_of_int n = Ok a → int a = n.
Proof.
  unfold ip_address_of_int, check_int_address.
  destruct (n <? 0); simpl; [done|].
  destruct (ALL_ONES false <? n); simpl.
  - destruct (ALL_ONES true <? n); simpl; [done|]. by intros [= <-].
  - by intros [= <-].
Qed.

Lemma ip_address_of_int_raise (n : Z) (e : exn) :
  ip_address_of_int n = Raise e → is_ValueError e = true.
Proof.
  unfold ip_address_of_int, check_int_address.
  destruct (n <? 0); simpl; [by intros [= <-]|].
  destruct (ALL_ONES false <? n); simpl; [|done].
  destruct (ALL_ONES true <? n); simpl; [by intros [= <-]|done].
Qed.

Lemma ip_address_of_int_fuel (n : Z) : ip_address_of_int n ≠ OutOfFuel.
Proof.
  unfold ip_address_of_int, check_int_address.
  destruct (n <? 0); simpl; [done|].
  destruct (ALL_ONES false <? n); simpl; [|done].
  destruct (ALL_ONES true <? n); simpl; done.
Qed.

(** The loop appends to [out] and never runs out of the iterations it is
    given: it ends by its own test, or by a [ValueError]. *)
Lemma range_while_spec (fuel : nat) (cur end_ : ip) :
  (int end_ - int cur + 1 ≤ Z.of_nat fuel) →
  ∃ l ex, (∀ out, range_while fuel cur end_ out = (out ++ l, ex))
          ∧ (ex = LoopDone ∨ ∃ e, ex = LoopRaised e ∧ is_ValueError e = true).
Proof.
  revert cur. induction fuel as [|fuel IH]; intros cur Hfuel; simpl.
  - destruct (int cur <=? int end_) eqn:Hle.
    + apply Z.leb_le in Hle. lia.
    + exists [], LoopDone. split; [|by left]. intros out. by rewrite app_nil_r.
  - destruct (int cur <=? int end_) eqn:Hle.
    + destruct (ip_address_of_int (int cur + 1)) as [cur'|e|] eqn:Hnext.
      * apply ip_address_of_int_int in Hnext.
        destruct (IH cur') as (l & ex & Hl & Hex); [lia|].
        exists (ip_str cur :: l), ex. split; [|done].
        intros out. by rewrite Hl, <- app_assoc.
      * exists [ip_str cur], (LoopRaised e). split; [done|]. right.
        exists e. split; [done|]. by eapply ip_address_of_int_raise.
      * by apply ip_address_of_int_fuel in Hnext.
    + exists [], LoopDone. split; [|by left]. intros out. by rewrite app_nil_r.
Qed.

Lemma rov_bind {A B} (c : result A) (f : A → result B) :
  returns_or_ValueError c → (∀ a, c = Ok a → returns_or_ValueError (f a)) →
  returns_or_ValueError (c ≫= f).
Proof. destruct c; simpl; auto. Qed.

Lemma rov_try {A} (c h : result A) (catches : exn → bool) :
  returns_or_ValueError c → returns_or_ValueError h →
  returns_or_ValueError (try_except c catches h).
Proof. destruct c as [|e|]; simpl; auto. destruct (catches e); auto. Qed.

Lemma rov_reraise {A} (c : result A) (catches : exn → bool) (e : exn) :
  returns_or_ValueError c → is_ValueError e = true →
  returns_or_ValueError (reraise_as c catches e).
Proof. intros. by apply rov_try. Qed.

Lemma rov_mapM {A B} (f : A → result B) (l : list A) :
  (∀ x, returns_or_ValueError (f x)) → returns_or_ValueError (mapM f l).
Proof.
  intros Hf. induction l as [|x l IH]; simpl; [done|].
  apply rov_bind; [done|]. intros y _. apply rov_bind; [done|]. by intros.
Qed.

Lemma rov_foldM {A S} (f : S → A → result S) (s : S) (l : list A) :
  (∀ s x, returns_or_ValueError (f s x)) → returns_or_ValueError (foldM f s l).
Proof.
  intros Hf. revert s. induction l as [|x l IH]; intros s; simpl; [done|].
  apply rov_bind; [done|]. by intros.
Qed.

(** Case analysis on the tests and matches of a modelled function, down to
    its [Ok] and [Raise] leaves. *)
Ltac rov_step :=
  match goal with
  | |- returns_or_ValueError (Ok _) => exact I
  | |- returns_or_ValueError (Raise _) => reflexivity
  | |- returns_or_ValueError (mbind _ _) => apply rov_bind; [|intros ? ?]
  | |- returns_or_ValueError (try_except _ _ _) => apply rov_try
  | |- returns_or_ValueError (reraise_as _ _ _) =>
      apply rov_reraise; [|reflexivity]
  | |- returns_or_ValueError (mapM _ _) => apply rov_mapM; intros ?
  | |- returns_or_ValueError (foldM _ _ _) => apply rov_foldM; intros ? ?
  | |- returns_or_ValueError (if ?b then _ else _) => destruct b
  | |- returns_or_ValueError (match ?x with _ => _ end) => destruct x
  | |- returns_or_ValueError (let '(_, _) := ?x in _) => destruct x
  end.

Lemma rov_parse_octet (o : string) : returns_or_ValueError (parse_octet o).
Proof. unfold parse_octet. repeat rov_step. Qed.

Lemma rov_v4_int_from_string (s : string) :
  returns_or_ValueError (v4_int_from_string s).
Proof.
  unfold v4_int_from_string. repeat rov_step. apply rov_parse_octet.
Qed.

Lemma rov_IPv4Address_of_string (s : string) :
  returns_or_ValueError (IPv4Address_of_string s).
Proof.
  unfold IPv4Address_of_string. repeat rov_step. apply rov_v4_int_from_string.
Qed.

Lemma rov_parse_hextet (h : string) : returns_or_ValueError (parse_hextet h).
Proof. unfold parse_hextet, int_of_hex. repeat rov_step. Qed.

Lemma rov_v6_int_from_string (s : string) :
  returns_or_ValueError (v6_int_from_string s).
Proof.
  unfold v6_int_from_string, shift_in_hextets.
  repeat first [apply rov_IPv4Address_of_string | apply rov_parse_hextet
               | rov_step].
Qed.

Lemma rov_IPv6Address_of_string (s : string) :
  returns_or_ValueError (IPv6Address_of_string s).
Proof.
  unfold IPv6Address_of_string, split_scope_id.
  repeat first [apply rov_v6_int_from_string | rov_step].
Qed.

Lemma rov_ip_address (s : string) : returns_or_ValueError (ip_address s).
Proof.
  unfold ip_address.
  repeat first [apply rov_IPv4Address_of_string
               | apply rov_IPv6Address_of_string | rov_step].
Qed.

Lemma rov_make_netmask (v6 : bool) (m : option string) :
  returns_or_ValueError (make_netmask v6 m).
Proof.
  unfold make_netmask, prefix_from_prefix_string, prefix_from_ip_string,
    prefix_from_ip_int.
  repeat first [apply rov_v4_int_from_string | rov_step].
Qed.

Lemma rov_Network_of_string (v6 : bool) (s : string) (strict : bool) :
  returns_or_ValueError (Network_of_string v6 s strict).
Proof.
  unfold Network_of_string, split_addr_prefix.
  repeat first [apply rov_IPv4Address_of_string
               | apply rov_IPv6Address_of_string
               | apply rov_make_netmask | rov_step].
Qed.

Lemma rov_ip_network (s : string) (strict : bool) :
  returns_or_ValueError (ip_network s strict).
Proof.
  unfold ip_network. repeat first [apply rov_Network_of_string | rov_step].
Qed.

Lemma rov_range_end (l r : string) : returns_or_ValueError (range_end l r).
Proof. unfold range_end. repeat first [apply rov_ip_address | rov_step]. Qed.
Lemma range_rule_ok (s : string) :
  ∃ l continued, ∀ out, range_rule s out = Ok (out ++ l, continued).
Proof.
  unfold range_rule. destruct (find_sep "-" s) as [[l r]|].
  2: { exists [], false. intros. by rewrite app_nil_r. }
  pose proof (rov_ip_address l) as Hs. pose proof (rov_range_end l r) as He.
  destruct (ip_address l) as [start|e|]; simpl in *; try done.
  2: { rewrite Hs. exists [], false. intros. by rewrite app_nil_r. }
  destruct (range_end l r) as [end_|e|]; simpl in *; try done.
  2: { rewrite He. exists [], false. intros. by rewrite app_nil_r. }
  destruct (int start <=? int end_) eqn:Hle.
  2: { exists [], false. intros. by rewrite app_nil_r. }
  apply Z.leb_le in Hle.
  destruct (range_while_spec (Z.to_nat (int end_ - int start + 1)) start end_)
    as (l' & ex & Hl & Hex); [lia|].
  destruct Hex as [->|(e & -> & He')].
  - exists l', true. intros. by rewrite Hl.
  - exists l', false. intros. by rewrite Hl, He'.
Qed.

Lemma network_or_host_ok (s : string) :
  ∃ l, ∀ out, network_or_host s out = Ok (out ++ l).
Proof.
  unfold network_or_host.
  pose proof (rov_ip_network s false) as Hn.
  destruct (ip_network s false) as [net|e|]; simpl in *; try done; eauto.
  rewrite Hn.
  pose proof (rov_ip_address s) as Ha.
  destruct (ip_address s) as [a|e'|]; simpl in *; try done; eauto.
  rewrite Ha. eauto.
Qed.

(** Each line appends its targets to [out], whatever [out] holds. *)
Lemma expand_line_ok (raw : string) :
  ∃ l, ∀ out, expand_line out raw = Ok (out ++ l).
Proof.
  unfold expand_line, apply_rules. destruct (normalize raw) as [s|].
  2: { exists []. intros. by rewrite app_nil_r. }
  destruct (network_or_host_ok s) as (l' & Hl').
  destruct (contains "-" s).
  - destruct (range_rule_ok s) as (l & c & Hl). destruct c.
    + exists l. intros. by rewrite Hl.
    + exists (l ++ l'). intros. rewrite Hl. simpl. by rewrite Hl', app_assoc.
  - exists l'. intros. simpl. apply Hl'.
Qed.

Lemma expand_line_app (out : list string) (raw : string) (l : list string) :
  expand_line [] raw = Ok l → expand_line out raw = Ok (out ++ l).
Proof.
  destruct (expand_line_ok raw) as (l' & Hl'). rewrite !Hl'. simpl.
  by intros [= <-].
Qed.

Lemma foldM_expand_line_ok (lines : list string) (out : list string) :
  ∃ l, foldM expand_line out lines = Ok (out ++ l).
Proof.
  revert out. induction lines as [|raw lines IH]; intros out; simpl.
  - exists []. by rewrite app_nil_r.
  - destruct (expand_line_ok raw) as (l & ->). simpl.
    destruct (IH (out ++ l)) as (l' & ->). exists (l ++ l').
    by rewrite app_assoc.
Qed.

Lemma expand_targets_ok (lines : list string) :
  ∃ emitted, foldM expand_line [] lines = Ok emitted
             ∧ expand_targets lines = Ok (_dedupe_preserve_order emitted).
Proof.
  unfold expand_targets. destruct (foldM_expand_line_ok lines []) as (l & ->).
  eauto.
Qed.
Lemma no_rule_line (raw s : string) (out : list string) :
  normalize raw = Some s → no_rule_matches s = true →
  expand_line out raw = Ok (out ++ [s]).
Proof.
  intros Hn Hm. unfold expand_line, apply_rules. rewrite Hn.
  unfold no_rule_matches, range_rule_passes in Hm.
  apply andb_prop in Hm as [Hm Ha]. apply andb_prop in Hm as [Hr Hnet].
  assert (Hhost : network_or_host s out = Ok (out ++ [s])).
  { unfold network_or_host.
    pose proof (rov_ip_network s false) as Hn'.
    destruct (ip_network s false) as [|e|]; try done. simpl in *. rewrite Hn'.
    pose proof (rov_ip_address s) as Ha'.
    destruct (ip_address s) as [|e'|]; try done. simpl in *. by rewrite Ha'. }
  destruct (contains "-" s); simpl in *; [|done].
  destruct (range_rule_ok s) as (l & c & Hl).
  rewrite (Hl []) in Hr. simpl in Hr. destruct l, c; try done.
  rewrite Hl, app_nil_r. simpl. done.
Qed.

Lemma foldM_expand_line_elem (lines : list string) (raw : string)
    (l emitted : list string) :
  raw ∈ lines → expand_line [] raw = Ok l →
  foldM expand_line [] lines = Ok emitted → l ⊆ emitted.
Proof.
  intros Hin Hl. apply list_elem_of_split in Hin as (l1 & l2 & ->).
  rewrite foldM_app. destruct (foldM_expand_line_ok l1 []) as (e1 & ->).
  simpl. rewrite (expand_line_app _ _ _ Hl). simpl.
  destruct (foldM_expand_line_ok l2 (e1 ++ l)) as (e2 & ->).
  intros [= <-]. set_solver.
Qed.



(** C6: the expander's output is the list of emitted targets deduplicated
    in first-seen order: the first occurrence of a target keeps its
    position and every later duplicate is discarded;
    ["1.1.1.1", "2.2.2.2", "1.1.1.1"] expands to ["1.1.1.1", "2.2.2.2"]. *)
Theorem expand_targets_dedupes_first_seen :
  (∀ lines, ∃ emitted,
      foldM expand_line [] lines = Ok emitted
      ∧ expand_targets lines = Ok (first_occurrences emitted))
  ∧ (∀ items,
      _dedupe_preserve_order items = first_occurrences items
      ∧ NoDup (_dedupe_preserve_order items)
      ∧ (∀ x, x ∈ _dedupe_preserve_order items ↔ x ∈ items)
      ∧ _dedupe_preserve_order items `sublist_of` items)
  ∧ (∀ l1 l2,
      _dedupe_preserve_order (l1 ++ l2)
      = _dedupe_preserve_order l1
        ++ filter (λ y, y ∉ l1) (_dedupe_preserve_order l2))
  ∧ expand_targets ["1.1.1.1"; "2.2.2.2"; "1.1.1.1"]
    = Ok ["1.1.1.1"; "2.2.2.2"].
Proof.
  split; [|split; [|split]].
  - intros lines. destruct (expand_targets_ok lines) as (e & He & ->).
    exists e. by rewrite dedupe_first_occurrences.
  - intros items. rewrite dedupe_first_occurrences.
    split; [done|]. split; [apply NoDup_first_occurrences|].
    split; [intros; apply elem_of_first_occurrences|].
    apply first_occurrences_sublist.
  - intros l1 l2. rewrite !dedupe_first_occurrences.
    apply first_occurrences_app.
  - by vm_compute.
Qed.
(** ** The liveness prober *)

Section ProberFacts.
Context {world : Type}.
Variable subprocess_run : string → world → result CompletedProcess * world.
Variable create_connection : string → Z → Z → world → result unit * world.

Lemma tcp_probe_probed (hosts : list string) (w : world) :
  ∃ l w', probed world create_connection hosts w l w'
          ∧ ∀ alive, tcp_probe world create_connection hosts alive w
                     = (alive ++ l, w').
Proof.
  revert w. induction hosts as [|h hosts IH]; intros w; simpl.
  - exists [], w. split; [constructor|]. intros. by rewrite app_nil_r.
  - destruct (create_connection h 80 1 w) as [r w1] eqn:Hc.
    destruct (IH w1) as (l & w' & Hp & Hl).
    destruct r as [[]|e|].
    + exists (h :: l), w'. split; [by econstructor|].
      intros. by rewrite Hl, <- app_assoc.
    + exists l, w'. split; [by eapply probed_down|]. intros. apply Hl.
    + exists l, w'. split; [by eapply probed_down|]. intros. apply Hl.
Qed.

Lemma probed_sublist (hosts : list string) (w : world) (l : list string)
    (w' : world) :
  probed world create_connection hosts w l w' → l `sublist_of` hosts.
Proof.
  induction 1; [done| |].
  - by apply sublist_skip.
  - by apply sublist_cons.
Qed.

Lemma probed_deterministic (hosts : list string) (w : world)
    (l1 l2 : list string) (w1 w2 : world) :
  probed world create_connection hosts w l1 w1 →
  probed world create_connection hosts w l2 w2 → l1 = l2 ∧ w1 = w2.
Proof.
  intros H1. revert l2 w2. induction H1; intros l2 w2 H2; inversion H2; subst.
  - done.
  - match goal with
    | Ha : create_connection _ _ _ _ = _, Hb : create_connection _ _ _ _ = _
      |- _ => rewrite Ha in Hb; injection Hb as <-
    end.
    destruct (IHprobed _ _ ltac:(eassumption)) as [-> ->]. done.
  - congruence.
  - congruence.
  - match goal with
    | Ha : create_connection _ _ _ _ = _, Hb : create_connection _ _ _ _ = _
      |- _ => rewrite Ha in Hb; injection Hb as <- <-
    end.
    by apply IHprobed.
Qed.

Lemma fping_alive_fallback (hosts : list string) (w w1 : world) :
  hosts ≠ [] → sweep_raises world subprocess_run hosts w w1 →
  ∃ alive w2,
    probed world create_connection hosts w1 alive w2
    ∧ fping_alive world subprocess_run create_connection hosts w
      = (_dedupe_preserve_order alive, w2).
Proof.
  intros Hne Hr. destruct (tcp_probe_probed hosts w1) as (l & w2 & Hp & Hl).
  exists l, w2. split; [done|].
  unfold fping_alive. destruct hosts as [|h hosts]; [done|].
  destruct Hr as [(e & Hrun)|(proc & e & Hrun & Hd)]; rewrite Hrun.
  - cbv [mbind result_bind]. by rewrite (Hl []).
  - cbv [mbind result_bind]. rewrite Hd. by rewrite (Hl []).
Qed.

(** When the sweep process completes and its output decodes, the lines
    it printed are the result, whatever its exit status. *)
Lemma fping_alive_completed (hosts : list string) (w w1 : world)
    (proc : CompletedProcess) (text : string) :
  hosts ≠ [] →
  subprocess_run (join LF hosts) w = (Ok proc, w1) →
  stdout_decode proc = Ok text →
  fping_alive world subprocess_run create_connection hosts w
  = (_dedupe_preserve_order
       (map strip (List.filter (λ x, negb (is_empty (strip x)))
                     (splitlines text))), w1).
Proof.
  intros Hne Hrun Hd. unfold fping_alive.
  destruct hosts as [|h hosts]; [done|]. rewrite Hrun. simpl.
  by rewrite Hd.
Qed.
End ProberFacts.

(** C3 (as amended): for a non-empty host list, when the sweep invocation
    raises (the process cannot be started, or its output cannot be
    decoded), the prober connects to port 80 of each host in turn with a
    timeout of one second and returns the hosts whose connection succeeded,
    deduplicated in first-seen order. *)
Theorem fping_alive_falls_back_when_run_raises
    (world : Type)
    (subprocess_run : string → world → result CompletedProcess * world)
    (create_connection : string → Z → Z → world → result unit * world)
    (hosts : list string) (w w1 : world) :
  hosts ≠ [] →
  sweep_raises world subprocess_run hosts w w1 →
  ∃ alive w2,
    probed world create_connection hosts w1 alive w2
    ∧ fping_alive world subprocess_run create_connection hosts w
      = (first_occurrences alive, w2).
Proof.
  intros Hne Hr.
  destruct (fping_alive_fallback subprocess_run create_connection hosts w w1
              Hne Hr) as (alive & w2 & Hp & Hf).
  exists alive, w2. by rewrite <- dedupe_first_occurrences.
Qed.

Lemma fping_alive_falls_back_witness :
  ["10.0.0.1"; "10.0.0.2"] ≠ []
  ∧ sweep_raises unit Fixture.sweep_not_started ["10.0.0.1"; "10.0.0.2"] () ()
  ∧ ∃ alive w2,
      probed unit Fixture.connect_one ["10.0.0.1"; "10.0.0.2"] () alive w2
      ∧ fping_alive unit Fixture.sweep_not_started Fixture.connect_one
          ["10.0.0.1"; "10.0.0.2"] ()
        = (first_occurrences alive, w2).
Proof.
  assert (H1 : ["10.0.0.1"; "10.0.0.2"] ≠ []) by discriminate.
  assert (H2 : sweep_raises unit Fixture.sweep_not_started
                 ["10.0.0.1"; "10.0.0.2"] () ())
    by (left; exists OSError; reflexivity).
  exact (conj H1 (conj H2
           (fping_alive_falls_back_when_run_raises unit
              Fixture.sweep_not_started Fixture.connect_one
              ["10.0.0.1"; "10.0.0.2"] () () H1 H2))).
Defined.

(** C3, as stated, fails: the sweep exits with status 1 and prints
    nothing, every TCP connection to port 80 would succeed, and the prober
    returns no host. *)
Lemma fping_alive_nonzero_exit_no_fallback :
  (∃ proc, Fixture.sweep_exit_1 (join LF ["10.0.0.1"]) ()
           = (Ok proc, ()) ∧ returncode proc ≠ 0)
  ∧ probed unit Fixture.connect_always ["10.0.0.1"] () ["10.0.0.1"] ()
  ∧ fping_alive unit Fixture.sweep_exit_1 Fixture.connect_always
      ["10.0.0.1"] ()
    = ([], ()).
Proof.
  split; [|split].
  - eexists. split; [reflexivity|]. simpl. lia.
  - eapply probed_up; [reflexivity|constructor].
  - by vm_compute.
Qed.

(** C10: on the TCP-connect fallback path every returned host is an input
    host, no host is returned twice, and the returned hosts are in the
    order of the input. *)
Theorem fping_alive_fallback_sublist
    (world : Type)
    (subprocess_run : string → world → result CompletedProcess * world)
    (create_connection : string → Z → Z → world → result unit * world)
    (hosts : list string) (w w1 : world) :
  sweep_raises world subprocess_run hosts w w1 →
  let alive :=
    fst (fping_alive world subprocess_run create_connection hosts w) in
  (∀ h, h ∈ alive → h ∈ hosts) ∧ NoDup alive ∧ alive `sublist_of` hosts.
Proof.
  intros Hr alive.
  assert (Hsub : alive `sublist_of` hosts ∧ NoDup alive).
  { subst alive. destruct hosts as [|h hosts]; [split; [done|constructor]|].
    destruct (fping_alive_fallback subprocess_run create_connection
                (h :: hosts) w w1 ltac:(done) Hr) as (l & w2 & Hp & ->).
    simpl. rewrite dedupe_first_occurrences. split.
    - etrans; [apply first_occurrences_sublist|by eapply probed_sublist].
    - apply NoDup_first_occurrences. }
  destruct Hsub as [Hsub Hnd]. split; [|done].
  intros h Hh. by eapply elem_of_sublist.
Qed.

Lemma fping_alive_fallback_sublist_witness :
  sweep_raises unit Fixture.sweep_not_started
    ["10.0.0.2"; "10.0.0.1"; "10.0.0.2"] () ()
  ∧ NoDup (fst (fping_alive unit Fixture.sweep_not_started Fixture.connect_one
                  ["10.0.0.2"; "10.0.0.1"; "10.0.0.2"] ())).
Proof.
  assert (H : sweep_raises unit Fixture.sweep_not_started
                ["10.0.0.2"; "10.0.0.1"; "10.0.0.2"] () ())
    by (left; exists OSError; reflexivity).
  exact (conj H
           (proj1 (proj2
              (fping_alive_fallback_sublist unit Fixture.sweep_not_started
                 Fixture.connect_one ["10.0.0.2"; "10.0.0.1"; "10.0.0.2"]
                 () () H)))).
Defined.
(** ** Soft-schema completion *)

Lemma dec_digits_nonempty (fuel : nat) (n : Z) (acc : string) :
  dec_digits fuel n acc ≠ "".
Proof.
  revert n acc. induction fuel as [|fuel IH]; intros n acc; simpl; [done|].
  destruct (n <? 10); [done|]. apply IH.
Qed.

Lemma str_of_int_nonempty (n : Z) : str_of_int n ≠ "".
Proof.
  unfold str_of_int. destruct (n <? 0); [done|]. apply dec_digits_nonempty.
Qed.

(** The text of a truthy value is not empty. *)
Lemma py_str_truthy (v : value) : truthy v = true → py_str v ≠ "".
Proof.
  destruct v as [|[]|n|nz c r|s|l|items]; simpl; try done.
  - intros _. apply str_of_int_nonempty.
  - by destruct s.
Qed.

Lemma py_or_finding_truthy (v : value) : truthy (py_or v (VStr "finding")) = true.
Proof. unfold py_or. by destruct (truthy v) eqn:?. Qed.

Lemma lookup_setdefault_ne (obj : gmap string value) (k k' : string) (v : value) :
  k ≠ k' → setdefault k v obj !! k' = obj !! k'.
Proof.
  intros Hne. unfold setdefault. destruct (obj !! k); [done|].
  by rewrite lookup_insert_ne.
Qed.

Lemma field_truthy_eq (o1 o2 : gmap string value) (k : string) :
  o1 !! k = o2 !! k → field_truthy o1 k = field_truthy o2 k.
Proof. unfold field_truthy, obj_get. by intros ->. Qed.

Lemma obj_get_eq (o1 o2 : gmap string value) (k : string) :
  o1 !! k = o2 !! k → obj_get o1 k = obj_get o2 k.
Proof. unfold obj_get. by intros ->. Qed.

Lemma lookup_fill_asset_ne (obj : gmap string value) (k : string) :
  k ≠ "asset" → fill_asset obj !! k = obj !! k.
Proof.
  intros Hne. unfold fill_asset. destruct (negb _); [|done].
  destruct (find _ _); [|done]. by rewrite lookup_insert_ne.
Qed.

Lemma lookup_fill_summary_ne (obj : gmap string value) (k : string) :
  k ≠ "summary" → fill_summary obj !! k = obj !! k.
Proof.
  intros Hne. unfold fill_summary. destruct (negb _); [|done].
  by rewrite lookup_insert_ne.
Qed.

Lemma lookup_mark_partial_ne (obj : gmap string value) (k : string) :
  k ≠ "partial" → mark_partial obj !! k = obj !! k.
Proof. intros Hne. unfold mark_partial. by rewrite lookup_insert_ne. Qed.

Lemma lookup_default_severity_ne (obj : gmap string value) (k : string) :
  k ≠ "severity" → default_severity obj !! k = obj !! k.
Proof.
  intros Hne. unfold default_severity. destruct (obj !! "severity"); [done|].
  by rewrite lookup_insert_ne.
Qed.

Lemma fill_summary_truthy (obj : gmap string value) :
  field_truthy (fill_summary obj) "summary" = true.
Proof.
  unfold fill_summary. destruct (field_truthy obj "summary") eqn:Hs; [done|].
  simpl. unfold field_truthy, obj_get. rewrite lookup_insert_eq. simpl.
  pose proof (py_str_truthy _ (py_or_finding_truthy (title_of obj))) as Hne.
  by destruct (py_str _).
Qed.

Lemma mark_partial_value (obj : gmap string value) :
  field_truthy obj "summary" = true →
  mark_partial obj !! "partial" = Some (VBool (negb (field_truthy obj "asset"))).
Proof.
  intros Hs. unfold mark_partial. rewrite lookup_insert_eq. simpl.
  rewrite Hs. simpl. by destruct (field_truthy obj "asset").
Qed.

(** After these steps only the named field may differ. *)
Ltac same_field :=
  repeat first
    [ rewrite lookup_default_severity_ne by done
    | rewrite lookup_mark_partial_ne by done
    | rewrite lookup_fill_summary_ne by done
    | rewrite lookup_fill_asset_ne by done
    | rewrite lookup_setdefault_ne by done ].

Lemma ensure_soft_schema_spec (now : string) (obj : gmap string value)
    (ctx : context) (rid : value) :
  ctx_lookup ctx "run_id" = Ok rid →
  ∃ obj',
    _ensure_soft_schema now obj ctx = Ok obj'
    ∧ obj' !! "tool" = obj !! "tool"
    ∧ field_truthy obj' "summary" = true
    ∧ obj' !! "partial" = Some (VBool (negb (field_truthy obj' "asset")))
    ∧ (field_truthy obj "summary" = true → obj' !! "summary" = obj !! "summary")
    ∧ (field_truthy obj "summary" = false →
       obj' !! "summary"
       = Some (VStr (py_str (py_or (title_of obj) (VStr "finding")))))
    ∧ (field_truthy obj "asset" = true → obj' !! "asset" = obj !! "asset")
    ∧ (field_truthy obj "asset" = false →
       obj' !! "asset"
       = match List.find (field_truthy obj) ["url"; "host"; "ip"; "domain"] with
         | Some k => Some (obj_get obj k)
         | None => obj !! "asset"
         end).
Proof.
  intros Hrid. unfold _ensure_soft_schema. rewrite Hrid.
  cbv beta iota zeta delta [mbind result_bind].
  set (o1 := setdefault "ts" (VStr now) (setdefault "run_id" rid obj)).
  assert (Ho1 : ∀ k, k ≠ "ts" → k ≠ "run_id" → o1 !! k = obj !! k).
  { intros k ? ?. subst o1. by rewrite !lookup_setdefault_ne. }
  assert (Hf1 : ∀ k, k ≠ "ts" → k ≠ "run_id" →
                     field_truthy o1 k = field_truthy obj k).
  { intros. apply field_truthy_eq. by apply Ho1. }
  assert (Hg1 : ∀ k, k ≠ "ts" → k ≠ "run_id" → obj_get o1 k = obj_get obj k).
  { intros. apply obj_get_eq. by apply Ho1. }
  eexists. split; [reflexivity|].
  assert (Hsum : field_truthy (fill_summary (fill_asset o1)) "summary" = true)
    by apply fill_summary_truthy.
  split; [same_field; by apply Ho1|].
  split.
  { etrans; [|exact Hsum]. apply field_truthy_eq. by same_field. }
  split.
  { rewrite lookup_default_severity_ne by done.
    rewrite mark_partial_value by done. do 3 f_equal.
    apply field_truthy_eq. by same_field. }
  split.
  { intros Hs. same_field. unfold fill_summary.
    rewrite (field_truthy_eq (fill_asset o1) obj "summary")
      by (same_field; by apply Ho1).
    rewrite Hs. simpl. same_field. by apply Ho1. }
  split.
  { intros Hs. same_field. unfold fill_summary.
    rewrite (field_truthy_eq (fill_asset o1) obj "summary")
      by (same_field; by apply Ho1).
    rewrite Hs. simpl. rewrite lookup_insert_eq. do 4 f_equal.
    unfold title_of. f_equal; [|f_equal]; apply obj_get_eq; same_field;
      by apply Ho1. }
  split.
  { intros Ha. same_field. unfold fill_asset. rewrite Hf1, Ha by done.
    simpl. by apply Ho1. }
  intros Ha. same_field. unfold fill_asset. rewrite Hf1, Ha by done.
  simpl. rewrite !Hf1 by done.
  destruct (field_truthy obj "url");
    [by rewrite lookup_insert_eq, Hg1 by done|].
  destruct (field_truthy obj "host");
    [by rewrite lookup_insert_eq, Hg1 by done|].
  destruct (field_truthy obj "ip");
    [by rewrite lookup_insert_eq, Hg1 by done|].
  destruct (field_truthy obj "domain");
    [by rewrite lookup_insert_eq, Hg1 by done|].
  by apply Ho1.
Qed.
Lemma emit_spec (now : string) (obj : gmap string value) (ctx : context)
    (rid : value) :
  ctx_lookup ctx "run_id" = Ok rid →
  ∃ obj',
    _ensure_soft_schema now obj ctx = Ok obj'
    ∧ ∀ out, _emit now obj ctx out
             = Ok (if field_truthy obj' "tool" && field_truthy obj' "asset"
                   then out ++ [obj'] else out).
Proof.
  intros Hrid.
  destruct (ensure_soft_schema_spec now obj ctx rid Hrid)
    as (obj' & He & _ & Hs & _).
  exists obj'. split; [done|]. intros out. unfold _emit. rewrite He.
  cbv beta iota zeta delta [mbind result_bind]. rewrite Hs.
  by destruct (field_truthy obj' "tool"), (field_truthy obj' "asset").
Qed.

(** C1 (as amended): after soft-schema completion [partial] is true exactly
    when [asset] is still missing or empty ([summary] never is), hence every
    emitted finding has [partial] false, also when its [asset] or [summary]
    was synthesized by the fallback. *)
Theorem partial_iff_asset_still_missing (now : string)
    (obj : gmap string value) (ctx : context) (rid : value) :
  ctx_lookup ctx "run_id" = Ok rid →
  ∃ obj',
    _ensure_soft_schema now obj ctx = Ok obj'
    ∧ obj' !! "partial" = Some (VBool (negb (field_truthy obj' "asset")))
    ∧ field_truthy obj' "summary" = true
    ∧ ∀ out out',
        _emit now obj ctx out = Ok out' → out' ≠ out →
        out' = out ++ [obj'] ∧ obj' !! "partial" = Some (VBool false).
Proof.
  intros Hrid.
  destruct (ensure_soft_schema_spec now obj ctx rid Hrid)
    as (obj' & He & _ & Hs & Hp & _).
  destruct (emit_spec now obj ctx rid Hrid) as (obj'' & He' & Hemit).
  rewrite He in He'. injection He' as <-.
  exists obj'. split; [done|]. split; [done|]. split; [done|].
  intros out out' Hout Hne. rewrite Hemit in Hout. injection Hout as <-.
  rewrite Hp.
  destruct (field_truthy obj' "tool"), (field_truthy obj' "asset"); done.
Qed.

Lemma partial_iff_asset_still_missing_witness :
  ctx_lookup Fixture.ctx_global "run_id" = Ok (VStr "run-1")
  ∧ ∃ obj',
      _ensure_soft_schema "2026-01-01T00:00:00Z" Fixture.host_only_record
        Fixture.ctx_global = Ok obj'
      ∧ obj' !! "partial" = Some (VBool (negb (field_truthy obj' "asset")))
      ∧ field_truthy obj' "summary" = true
      ∧ ∀ out out',
          _emit "2026-01-01T00:00:00Z" Fixture.host_only_record
            Fixture.ctx_global out = Ok out' → out' ≠ out →
          out' = out ++ [obj'] ∧ obj' !! "partial" = Some (VBool false).
Proof.
  assert (H : ctx_lookup Fixture.ctx_global "run_id" = Ok (VStr "run-1"))
    by reflexivity.
  exact (conj H
           (partial_iff_asset_still_missing "2026-01-01T00:00:00Z"
              Fixture.host_only_record Fixture.ctx_global (VStr "run-1") H)).
Defined.

(** C1, as stated, fails: a record mapped with a tool and a host only gets
    both its [asset] and its [summary] from the fallback, is emitted, and
    has [partial] false. *)
Lemma partial_false_though_synthesized :
  Fixture.host_only_record !! "asset" = None
  ∧ Fixture.host_only_record !! "summary" = None
  ∧ ∃ obj',
      _emit "2026-01-01T00:00:00Z" Fixture.host_only_record
        Fixture.ctx_global [] = Ok [obj']
      ∧ obj' !! "asset" = Some (VStr "10.0.0.5")
      ∧ obj' !! "summary" = Some (VStr "finding")
      ∧ obj' !! "partial" = Some (VBool false).
Proof.
  split; [by vm_compute|]. split; [by vm_compute|].
  eexists. split; [by vm_compute|]. by vm_compute.
Qed.

(** C9 (as amended): after soft-schema completion the [summary] of every
    candidate record is truthy: the text of the first truthy field among
    [title], [service], [status], or the literal [finding], when the mapped
    record had no truthy [summary] (a non-empty string), and the mapped
    value itself, of whatever type, otherwise.  So no candidate is discarded
    because of [summary]: it is discarded exactly when [tool] or [asset] is
    missing or empty. *)
Theorem summary_never_discards (now : string) (obj : gmap string value)
    (ctx : context) (rid : value) :
  ctx_lookup ctx "run_id" = Ok rid →
  ∃ obj',
    _ensure_soft_schema now obj ctx = Ok obj'
    ∧ field_truthy obj' "summary" = true
    ∧ (field_truthy obj "summary" = false →
       ∃ s, obj' !! "summary" = Some (VStr s) ∧ s ≠ ""
            ∧ s = py_str (py_or (title_of obj) (VStr "finding")))
    ∧ (field_truthy obj "summary" = true → obj' !! "summary" = obj !! "summary")
    ∧ ∀ out, _emit now obj ctx out
             = Ok (if field_truthy obj' "tool" && field_truthy obj' "asset"
                   then out ++ [obj'] else out).
Proof.
  intros Hrid.
  destruct (ensure_soft_schema_spec now obj ctx rid Hrid)
    as (obj' & He & _ & Hs & _ & Hkeep & Hfill & _).
  destruct (emit_spec now obj ctx rid Hrid) as (obj'' & He' & Hemit).
  rewrite He in He'. injection He' as <-.
  exists obj'. split; [done|]. split; [done|]. split; [|split; [done|done]].
  intros Hno. eexists. split; [by apply Hfill|]. split; [|done].
  apply py_str_truthy, py_or_finding_truthy.
Qed.

Lemma summary_never_discards_witness :
  ctx_lookup Fixture.ctx_global "run_id" = Ok (VStr "run-1")
  ∧ ∃ obj',
      _ensure_soft_schema "2026-01-01T00:00:00Z" Fixture.host_only_record
        Fixture.ctx_global = Ok obj'
      ∧ field_truthy obj' "summary" = true.
Proof.
  assert (H : ctx_lookup Fixture.ctx_global "run_id" = Ok (VStr "run-1"))
    by reflexivity.
  refine (conj H _).
  destruct (summary_never_discards "2026-01-01T00:00:00Z"
              Fixture.host_only_record Fixture.ctx_global (VStr "run-1") H)
    as (obj' & He & Hs & _).
  exact (ex_intro _ obj' (conj He Hs)).
Defined.

(** C9, as stated, fails: a [summary] mapped to the number 443 is truthy,
    so the completion keeps it, and the emitted finding's [summary] is that
    number, not a string. *)
Lemma summary_may_stay_a_number :
  Fixture.numeric_summary_record !! "summary" = Some (VInt 443)
  ∧ ∃ obj',
      _emit "2026-01-01T00:00:00Z" Fixture.numeric_summary_record
        Fixture.ctx_global [] = Ok [obj']
      ∧ obj' !! "summary" = Some (VInt 443)
      ∧ ∀ s, obj' !! "summary" ≠ Some (VStr s).
Proof.
  split; [by vm_compute|].
  eexists. split; [by vm_compute|].
  assert (H : ∀ o : gmap string value,
              o !! "summary" = Some (VInt 443) →
              o !! "summary" = Some (VInt 443)
              ∧ ∀ s, o !! "summary" ≠ Some (VStr s)).
  { intros o ->. split; [done|]. intros s [=]. }
  apply H. by vm_compute.
Qed.

(** ** A malformed rule file *)

Section EngineFacts.
Variable now run_id : string.
Variable jmespath_search : value → value → result value.
Variable elem : Type.
Variable elem_xpath : elem → value → result (xpath_result elem).
Variable elem_text : elem → value.
Variable run_glob : string → list string.
Variable yaml_safe_load : string → result value.
Variable open_lines : string → result (list string).
Variable json_loads : string → result value.
Variable ET_parse : string → result elem.

(** Loading a rule is not guarded: an exception of [yaml.safe_load] leaves
    [run_parser], and with it the loop over the rules. *)
Lemma run_parser_malformed (ctx : context) (out : list (gmap string value))
    (p : string) (e : exn) :
  yaml_safe_load p = Raise e →
  run_parser now jmespath_search elem elem_xpath elem_text run_glob
    yaml_safe_load open_lines json_loads ET_parse ctx out p = Raise e.
Proof. intros H. unfold run_parser. by rewrite H. Qed.

Lemma rules_loop_malformed (ctx : context) (ps1 ps2 : list string)
    (p : string) (e : exn) (out : list (gmap string value)) :
  foldM (run_parser now jmespath_search elem elem_xpath elem_text run_glob
           yaml_safe_load open_lines json_loads ET_parse ctx) [] ps1 = Ok out →
  yaml_safe_load p = Raise e →
  foldM (run_parser now jmespath_search elem elem_xpath elem_text run_glob
           yaml_safe_load open_lines json_loads ET_parse ctx) []
    (ps1 ++ p :: ps2) = Raise e.
Proof.
  intros H1 Hp. rewrite foldM_app, H1. simpl.
  by rewrite (run_parser_malformed ctx out p e Hp).
Qed.
End EngineFacts.

(** C2 fails on the code: with the unparsable rule file [10-bad.yaml]
    beside the well-formed [20-nmap.yaml], whose finding a run on it alone
    reports, [parse_and_merge] raises the loader's exception and reports
    nothing. *)
Theorem malformed_rule_aborts_merge :
  Fixture.yaml_files "parsers.d/10-bad.yaml" = Raise YAMLError
  ∧ (∃ finding,
       Fixture.run_engine ["parsers.d/20-nmap.yaml"] = Ok [finding]
       ∧ finding !! "tool" = Some (VStr "nmap")
       ∧ finding !! "asset" = Some (VStr "10.0.0.5"))
  ∧ Fixture.run_engine ["parsers.d/20-nmap.yaml"; "parsers.d/10-bad.yaml"]
    = Raise YAMLError.
Proof.
  split; [by vm_compute|]. split; [|by vm_compute].
  eexists. split; [by vm_compute|]. by vm_compute.
Qed.
(** ** Strings *)

Lemma app_String (c : ascii) (a b : string) :
  String c a +:+ b = String c (a +:+ b).
Proof. reflexivity. Qed.

Lemma app_empty_r (a : string) : a +:+ "" = a.
Proof. induction a as [|c a IH]; [done|]. by rewrite app_String, IH. Qed.

Lemma strip_prefix_app (p s rest : string) :
  strip_prefix p s = Some rest → s = p +:+ rest.
Proof.
  revert s. induction p as [|a p IH]; intros s; simpl.
  - by intros [= ->].
  - destruct s as [|b s]; [done|].
    destruct (Ascii.eqb_spec a b) as [->|]; [|done].
    intros H. by rewrite (IH _ H).
Qed.

Lemma find_sep_app (sep s a b : string) :
  find_sep sep s = Some (a, b) → s = a +:+ sep +:+ b.
Proof.
  revert a b. induction s as [|c s IH]; intros a b; simpl.
  - destruct (strip_prefix sep "") as [rest|] eqn:Hp; [|done].
    intros [= <- <-]. by apply strip_prefix_app in Hp.
  - destruct (strip_prefix sep (String c s)) as [rest|] eqn:Hp.
    + intros [= <- <-]. by apply strip_prefix_app in Hp.
    + destruct (find_sep sep s) as [[a' b']|]; [|done].
      intros [= <- <-]. rewrite app_String. f_equal. by apply IH.
Qed.

Lemma has_char_app (c : ascii) (a b : string) :
  has_char c (a +:+ b) = has_char c a || has_char c b.
Proof.
  induction a as [|x a IH]; [done|].
  rewrite app_String. simpl. by rewrite IH, orb_assoc.
Qed.

(** Splitting at a one-character separator: the head does not hold it. *)
Lemma find_sep_char_head (c : ascii) (s a b : string) :
  find_sep (String c "") s = Some (a, b) → has_char c a = false.
Proof.
  revert a b. induction s as [|x s IH]; intros a b; simpl; [done|].
  destruct (Ascii.eqb_spec c x) as [->|Hne].
  - by intros [= <- <-].
  - destruct (find_sep (String c "") s) as [[a' b']|] eqn:Hf; [|done].
    intros [= <- <-]. simpl.
    destruct (Ascii.eqb_spec x c) as [->|]; [done|]. simpl. by eapply IH.
Qed.

(** A text without the first character of a separator does not hold the
    separator. *)
Lemma find_sep_none (c : ascii) (sep s : string) :
  has_char c s = false → find_sep (String c sep) s = None.
Proof.
  induction s as [|x s IH]; simpl; [done|].
  intros H. apply orb_false_elim in H as [Hx Hs].
  destruct (Ascii.eqb_spec c x) as [->|Hne].
  - by rewrite Ascii.eqb_refl in Hx.
  - by rewrite IH.
Qed.

Lemma contains_char (c : ascii) (s : string) :
  contains (String c "") s = has_char c s.
Proof.
  unfold contains. induction s as [|x s IH]; simpl; [done|].
  destruct (Ascii.eqb_spec c x) as [->|Hne].
  - by rewrite Ascii.eqb_refl.
  - destruct (Ascii.eqb_spec x c) as [->|]; [done|]. simpl.
    rewrite <- IH. by destruct (find_sep (String c "") s) as [[? ?]|].
Qed.

Lemma split1_head_no_char (c : ascii) (s : string) :
  has_char c (split1_head (String c "") s) = false.
Proof.
  unfold split1_head.
  destruct (find_sep (String c "") s) as [[a b]|] eqn:Hf.
  - by eapply find_sep_char_head.
  - pose proof (contains_char c s) as H. unfold contains in H.
    by rewrite Hf in H.
Qed.

Lemma split1_head_prefix (sep s : string) :
  ∃ rest, s = split1_head sep s +:+ rest.
Proof.
  unfold split1_head. destruct (find_sep sep s) as [[a b]|] eqn:Hf.
  - exists (sep +:+ b). by apply find_sep_app.
  - exists "". by rewrite app_empty_r.
Qed.

Lemma has_char_prefix (c : ascii) (a rest : string) :
  has_char c (a +:+ rest) = false → has_char c a = false.
Proof. rewrite has_char_app. by intros [? ?]%orb_false_elim. Qed.

Lemma split_no_char (c : ascii) (s : string) :
  has_char c s = false → split c s = [s].
Proof.
  induction s as [|x s IH]; simpl; [done|].
  intros [Hx Hs]%orb_false_elim. rewrite Hx, IH by done. done.
Qed.

(** ** What the rules see of a line *)

Lemma normalize_chars (raw s : string) :
  normalize raw = Some s → has_char "/" s = false ∧ has_char ":" s = false.
Proof.
  unfold normalize. destruct (_ || _); [done|].
  set (s1 := match split1_tail "://" (strip raw) with
             | Some t => t | None => strip raw end).
  set (s2 := split1_head "/" s1).
  assert (H2 : has_char "/" s2 = false) by apply split1_head_no_char.
  rewrite contains_char. destruct (has_char ":" s2) eqn:Hc.
  - intros [= <-]. split; [|apply split1_head_no_char].
    destruct (split1_head_prefix ":" s2) as (rest & Hr).
    rewrite Hr in H2. by eapply has_char_prefix.
  - by intros [= <-].
Qed.

Lemma normalize_stable (s : string) :
  has_char "/" s = false → has_char ":" s = false → stable_text s = true →
  normalize s = Some s.
Proof.
  intros Hsl Hco Hst. unfold stable_text in Hst.
  apply andb_prop in Hst as [Hst Hhash]. apply andb_prop in Hst as [Hne Hstrip].
  apply String.eqb_eq in Hstrip. apply negb_true_iff in Hne, Hhash.
  unfold normalize. rewrite Hstrip, Hne, Hhash. simpl.
  unfold split1_tail, split1_head. rewrite (find_sep_none ":" "//" s Hco).
  rewrite (find_sep_none "/" "" s Hsl). rewrite contains_char, Hco. done.
Qed.
(** ** Addresses in colon-free text *)

Lemma v6_int_no_colon (s : string) :
  has_char ":" s = false → v6_int_from_string s = Raise AddressValueError.
Proof.
  intros H. unfold v6_int_from_string. destruct (is_empty s); [done|].
  by rewrite (split_no_char ":" s H).
Qed.

Lemma IPv6Address_no_colon (s : string) :
  has_char ":" s = false → IPv6Address_of_string s = Raise AddressValueError.
Proof.
  intros H. unfold IPv6Address_of_string, split_scope_id.
  destruct (contains "/" s); [done|].
  destruct (find_sep "%" s) as [[addr scope]|] eqn:Hf.
  - destruct (_ || _); [done|]. simpl. rewrite v6_int_no_colon; [done|].
    apply find_sep_app in Hf. rewrite Hf in H. by eapply has_char_prefix.
  - simpl. by rewrite v6_int_no_colon.
Qed.

Lemma reraise_rov {A} (c : result A) (e : exn) :
  returns_or_ValueError c →
  reraise_as c is_ValueError e = match c with Ok a => Ok a | _ => Raise e end.
Proof. destruct c as [|e'|]; simpl; try done. by intros ->. Qed.

Lemma digit_val_range (c : ascii) :
  is_ascii_digit c = true → 0 ≤ digit_val c ≤ 9.
Proof. unfold is_ascii_digit, digit_val. lia. Qed.

Lemma int_of_digits_from_nonneg (s : string) (acc : Z) :
  0 ≤ acc → all_chars is_ascii_digit s = true → 0 ≤ int_of_digits_from acc s.
Proof.
  revert acc. induction s as [|c s IH]; intros acc Hacc; simpl; [done|].
  intros [Hc Hs]%andb_prop. apply IH; [|done].
  apply digit_val_range in Hc. lia.
Qed.

(** An octet that parses is a non-empty string of digits, for a number
    from 0 to 255. *)
Lemma parse_octet_ok (o : string) (v : Z) :
  parse_octet o = Ok v →
  0 ≤ v ≤ 255 ∧ all_chars is_ascii_digit o = true ∧ is_empty o = false.
Proof.
  unfold parse_octet. destruct (is_empty o); [done|].
  destruct (all_chars is_ascii_digit o) eqn:Hd; [|done]. simpl.
  destruct (_ <? _)%nat; [done|]. destruct (_ && _); [done|].
  destruct (255 <? int_of_digits o) eqn:Hle; [done|]. intros [= <-].
  apply Z.ltb_ge in Hle. split; [|done]. split; [|done].
  by apply int_of_digits_from_nonneg.
Qed.

Lemma v4_int_from_string_ok (s : string) (n : Z) :
  v4_int_from_string s = Ok n →
  ∃ o1 o2 o3 o4 v1 v2 v3 v4,
    split "." s = [o1; o2; o3; o4]
    ∧ parse_octet o1 = Ok v1 ∧ parse_octet o2 = Ok v2
    ∧ parse_octet o3 = Ok v3 ∧ parse_octet o4 = Ok v4
    ∧ n = ((v1 * 256 + v2) * 256 + v3) * 256 + v4.
Proof.
  unfold v4_int_from_string. destruct (is_empty s); [done|].
  destruct (split "." s) as [|o1 [|o2 [|o3 [|o4 [|o5 l]]]]]; try done.
  simpl.
  destruct (parse_octet o1) as [v1| |] eqn:H1; try done; simpl;
    [|by destruct (is_ValueError _)].
  destruct (parse_octet o2) as [v2| |] eqn:H2; try done; simpl;
    [|by destruct (is_ValueError _)].
  destruct (parse_octet o3) as [v3| |] eqn:H3; try done; simpl;
    [|by destruct (is_ValueError _)].
  destruct (parse_octet o4) as [v4| |] eqn:H4; try done; simpl;
    [|by destruct (is_ValueError _)].
  intros [= <-]. exists o1, o2, o3, o4, v1, v2, v3, v4.
  repeat split; done.
Qed.

Lemma v4_int_from_string_range (s : string) (n : Z) :
  v4_int_from_string s = Ok n → 0 ≤ n < 2 ^ 32.
Proof.
  intros (o1 & o2 & o3 & o4 & v1 & v2 & v3 & v4 & _ & H1 & H2 & H3 & H4 & ->)
    %v4_int_from_string_ok.
  apply parse_octet_ok in H1 as [? _], H2 as [? _], H3 as [? _], H4 as [? _].
  lia.
Qed.

Lemma v4_int_from_string_cases (s : string) :
  (∃ n, v4_int_from_string s = Ok n)
  ∨ v4_int_from_string s = Raise AddressValueError.
Proof.
  unfold v4_int_from_string. destruct (is_empty s); [by right|].
  destruct (negb _); [by right|].
  rewrite reraise_rov.
  - destruct (_ ≫= _); eauto.
  - repeat rov_step. apply rov_parse_octet.
Qed.

Lemma IPv4Address_of_string_cases (s : string) :
  (∃ n, IPv4Address_of_string s = Ok (IPv4Address n)
        ∧ v4_int_from_string s = Ok n ∧ contains "/" s = false)
  ∨ IPv4Address_of_string s = Raise AddressValueError.
Proof.
  unfold IPv4Address_of_string. destruct (contains "/" s); [by right|].
  destruct (v4_int_from_string_cases s) as [(n & ->)| ->]; simpl; eauto.
Qed.

(** In colon-free text an address is an IPv4 address. *)
Lemma ip_address_no_colon (s : string) :
  has_char ":" s = false →
  (∃ n, ip_address s = Ok (IPv4Address n) ∧ v4_int_from_string s = Ok n
        ∧ contains "/" s = false)
  ∨ ip_address s = Raise ValueError.
Proof.
  intros H. unfold ip_address.
  destruct (IPv4Address_of_string_cases s) as [(n & -> & Hn & Hs)| ->]; simpl.
  - left. eauto.
  - right. by rewrite IPv6Address_no_colon.
Qed.

(** Without slash and colon, a network is the /32 block of an IPv4
    address, and its one host is that address. *)
Lemma ip_network_plain (s : string) :
  has_char "/" s = false → has_char ":" s = false →
  (∃ n net, ip_network s false = Ok net ∧ v4_int_from_string s = Ok n
            ∧ hosts net = [IPv4Address n])
  ∨ (ip_network s false = Raise ValueError
     ∧ v4_int_from_string s = Raise AddressValueError).
Proof.
  intros Hsl Hco. unfold ip_network, Network_of_string, split_addr_prefix.
  rewrite (split_no_char "/" s Hsl). simpl.
  destruct (IPv4Address_of_string_cases s) as [(n & -> & Hn & Hs)|Hv4].
  - left. simpl. pose proof (v4_int_from_string_range s n Hn) as Hr.
    assert (Hland : Z.land n (ip_int_from_prefix false 32) = n).
    { change (ip_int_from_prefix false 32) with (Z.ones 32).
      rewrite Z.land_ones by lia. apply Z.mod_small. lia. }
    rewrite Hland, Z.eqb_refl. simpl. eexists n, _. split; [done|].
    split; [done|]. done.
  - right. rewrite Hv4. simpl. rewrite IPv6Address_no_colon by done. simpl.
    split; [done|].
    destruct (v4_int_from_string_cases s) as [(n & Hn)|]; [|done].
    unfold IPv4Address_of_string in Hv4.
    rewrite <- contains_char in Hsl. unfold contains in Hsl.
    unfold contains in Hv4. destruct (find_sep "/" s); [done|].
    by rewrite Hn in Hv4.
Qed.
(** ** The text of an IPv4 address *)

Lemma octets_checked :
  forallb (λ k : nat,
             let d := str_of_int (Z.of_nat k) in
             match parse_octet d with
             | Ok v => v =? Z.of_nat k
             | _ => false
             end && all_chars is_ascii_digit d && negb (is_empty d))
    (seq 0 256) = true.
Proof. by vm_compute. Qed.

(** The decimal text of a number from 0 to 255 parses back to it. *)
Lemma str_of_octet (v : Z) :
  0 ≤ v ≤ 255 →
  parse_octet (str_of_int v) = Ok v
  ∧ all_chars is_ascii_digit (str_of_int v) = true
  ∧ is_empty (str_of_int v) = false.
Proof.
  intros Hv. pose proof octets_checked as H.
  rewrite forallb_forall in H. specialize (H (Z.to_nat v)).
  rewrite Z2Nat.id in H by lia. cbv zeta in H.
  assert (Hin : In (Z.to_nat v) (seq 0 256)) by (apply in_seq; lia).
  apply H in Hin. apply andb_prop in Hin as [Hin Hne].
  apply andb_prop in Hin as [Hp Hd].
  destruct (parse_octet (str_of_int v)) as [v'| |]; try done.
  apply Z.eqb_eq in Hp as ->. split; [done|]. split; [done|].
  by apply negb_true_iff.
Qed.

Lemma all_chars_app (p : ascii → bool) (a b : string) :
  all_chars p (a +:+ b) = all_chars p a && all_chars p b.
Proof.
  induction a as [|c a IH]; [done|].
  rewrite app_String. simpl. by rewrite IH, andb_assoc.
Qed.

Lemma all_chars_impl (p q : ascii → bool) (s : string) :
  (∀ c, p c = true → q c = true) →
  all_chars p s = true → all_chars q s = true.
Proof.
  intros Hpq. induction s as [|c s IH]; simpl; [done|].
  intros [Hc Hs]%andb_prop. by rewrite (Hpq c Hc), IH.
Qed.

Lemma all_chars_has_char (p : ascii → bool) (c : ascii) (s : string) :
  all_chars p s = true → p c = false → has_char c s = false.
Proof.
  intros Hs Hc. induction s as [|x s IH]; simpl; [done|].
  simpl in Hs. apply andb_prop in Hs as [Hx Hs].
  rewrite (IH Hs), orb_false_r.
  destruct (Ascii.eqb_spec x c) as [->|]; [congruence|done].
Qed.

Lemma split_app_sep (c : ascii) (a b : string) :
  has_char c a = false → split c (a +:+ String c b) = a :: split c b.
Proof.
  induction a as [|x a IH]; intros H.
  - simpl. by rewrite Ascii.eqb_refl.
  - simpl in H. apply orb_false_elim in H as [Hx Ha].
    rewrite app_String. simpl. by rewrite Hx, IH.
Qed.

Lemma lstrip_all_chars (s : string) :
  all_chars (λ c, negb (is_space c)) s = true → lstrip s = s.
Proof.
  destruct s as [|c s]; simpl; [done|].
  intros [Hc _]%andb_prop. by apply negb_true_iff in Hc as ->.
Qed.

Lemma rstrip_all_chars (s : string) :
  all_chars (λ c, negb (is_space c)) s = true → rstrip s = s.
Proof.
  induction s as [|c s IH]; simpl; [done|].
  intros [Hc Hs]%andb_prop. apply negb_true_iff in Hc.
  by rewrite Hc, IH.
Qed.

Lemma dotted_not_space (c : ascii) :
  dotted_char c = true → negb (is_space c) = true.
Proof.
  unfold dotted_char, is_ascii_digit, is_space.
  destruct (Ascii.eqb_spec c ".") as [->|]; [by vm_compute|].
  rewrite orb_false_r. lia.
Qed.

Lemma to_bytes4_range (n : Z) :
  0 ≤ n < 2 ^ 32 →
  ∃ b1 b2 b3 b4,
    to_bytes4 n = [b1; b2; b3; b4]
    ∧ 0 ≤ b1 ≤ 255 ∧ 0 ≤ b2 ≤ 255 ∧ 0 ≤ b3 ≤ 255 ∧ 0 ≤ b4 ≤ 255
    ∧ n = ((b1 * 256 + b2) * 256 + b3) * 256 + b4.
Proof.
  intros Hn. unfold to_bytes4. do 4 eexists. split; [done|].
  change (2 ^ 24) with 16777216. change (2 ^ 16) with 65536.
  change (2 ^ 8) with 256. change (2 ^ 32) with 4294967296 in Hn.
  repeat split; try (Z.div_mod_to_equations; lia).
Qed.

(** The dotted-quad text of an address: digits and dots only, and it
    parses back to the address. *)
Lemma v4_string_spec (n : Z) :
  0 ≤ n < 2 ^ 32 →
  v4_int_from_string (v4_string_from_int n) = Ok n
  ∧ all_chars dotted_char (v4_string_from_int n) = true
  ∧ is_empty (v4_string_from_int n) = false.
Proof.
  intros Hn.
  destruct (to_bytes4_range n Hn)
    as (b1 & b2 & b3 & b4 & Hb & H1 & H2 & H3 & H4 & Hsum).
  unfold v4_string_from_int. rewrite Hb.
  destruct (str_of_octet b1 H1) as (P1 & D1 & E1).
  destruct (str_of_octet b2 H2) as (P2 & D2 & E2).
  destruct (str_of_octet b3 H3) as (P3 & D3 & E3).
  destruct (str_of_octet b4 H4) as (P4 & D4 & E4).
  set (d1 := str_of_int b1) in *. set (d2 := str_of_int b2) in *.
  set (d3 := str_of_int b3) in *. set (d4 := str_of_int b4) in *.
  change (join "." (map str_of_int [b1; b2; b3; b4]))
    with (d1 +:+ String "." (d2 +:+ String "." (d3 +:+ String "." d4))).
  assert (Hnodot : ∀ d, all_chars is_ascii_digit d = true →
                        has_char "." d = false).
  { intros d Hd. by eapply all_chars_has_char. }
  assert (Hdot : ∀ d, all_chars is_ascii_digit d = true →
                      all_chars dotted_char d = true).
  { intros d. apply all_chars_impl. intros c Hc. unfold dotted_char.
    by rewrite Hc. }
  split; [|split].
  - unfold v4_int_from_string.
    destruct d1 as [|c1 r1] eqn:Hd1; [done|].
    rewrite app_String. simpl is_empty. cbv iota. rewrite <- app_String.
    rewrite !split_app_sep by auto. rewrite split_no_char by auto.
    simpl. rewrite P1, P2, P3, P4. simpl. f_equal. unfold from_bytes. simpl.
    lia.
  - rewrite !all_chars_app. simpl. rewrite !all_chars_app. simpl.
    rewrite !all_chars_app. simpl. by rewrite !Hdot.
  - by destruct d1.
Qed.
(** ** Expanding the text of an address again *)

Lemma v4_string_chars (n : Z) (c : ascii) :
  0 ≤ n < 2 ^ 32 → dotted_char c = false →
  has_char c (v4_string_from_int n) = false.
Proof.
  intros Hn Hc. destruct (v4_string_spec n Hn) as (_ & Hd & _).
  by eapply all_chars_has_char.
Qed.

Lemma startswith_char (a c : ascii) (r : string) :
  startswith (String a "") (String c r) = Ascii.eqb a c.
Proof. unfold startswith. cbn [strip_prefix]. by destruct (Ascii.eqb a c). Qed.

Lemma v4_string_stable (n : Z) :
  0 ≤ n < 2 ^ 32 → stable_text (v4_string_from_int n) = true.
Proof.
  intros Hn. destruct (v4_string_spec n Hn) as (_ & Hd & He).
  assert (Hsp : all_chars (λ c, negb (is_space c)) (v4_string_from_int n)
                = true).
  { eapply all_chars_impl; [|done]. apply dotted_not_space. }
  unfold stable_text, strip.
  rewrite lstrip_all_chars by exact Hsp.
  rewrite rstrip_all_chars by exact Hsp.
  rewrite String.eqb_refl, He.
  simpl. destruct (v4_string_from_int n) as [|c r]; [done|].
  simpl in Hd. apply andb_prop in Hd as [Hc _].
  rewrite startswith_char.
  destruct (Ascii.eqb_spec "#" c) as [<-|]; [by vm_compute in Hc|done].
Qed.

(** A line that is the text of an IPv4 address expands to itself. *)
Lemma expand_line_v4_string (n : Z) (out : list string) :
  0 ≤ n < 2 ^ 32 →
  expand_line out (v4_string_from_int n) = Ok (out ++ [v4_string_from_int n]).
Proof.
  intros Hn. set (t := v4_string_from_int n).
  assert (Hsl : has_char "/" t = false) by by apply v4_string_chars.
  assert (Hco : has_char ":" t = false) by by apply v4_string_chars.
  assert (Hda : has_char "-" t = false) by by apply v4_string_chars.
  unfold expand_line, apply_rules.
  rewrite (normalize_stable t Hsl Hco (v4_string_stable n Hn)).
  rewrite contains_char, Hda. simpl. unfold network_or_host.
  destruct (v4_string_spec n Hn) as (Hp & _ & _).
  destruct (ip_network_plain t Hsl Hco)
    as [(n' & net & Hnet & Hn' & Hh)|[_ Hf]].
  - fold t in Hp. rewrite Hp in Hn'. injection Hn' as <-.
    rewrite Hnet. cbv [mbind result_bind try_except]. by rewrite Hh.
  - fold t in Hp. by rewrite Hp in Hf.
Qed.

(** ** The range rule on colon-free text *)

(** From [IPv4Address n] on, the loop lists the addresses up to the IPv4
    address [b]. *)
Lemma range_while_v4 (fuel : nat) (cur : ip) (b : Z) (out : list string) :
  0 ≤ int cur → b < 2 ^ 32 →
  (int cur ≤ b → cur = IPv4Address (int cur)) →
  b - int cur + 1 ≤ Z.of_nat fuel →
  range_while fuel cur (IPv4Address b) out
  = (out ++ v4_range (int cur) b, LoopDone).
Proof.
  revert cur out. induction fuel as [|fuel IH]; intros cur out H0 Hb Hv4 Hfuel.
  - simpl. destruct (int cur <=? b) eqn:Hle; [apply Z.leb_le in Hle; lia|].
    apply Z.leb_gt in Hle. unfold v4_range. rewrite seqZ_nil by lia.
    by rewrite app_nil_r.
  - simpl. destruct (int cur <=? b) eqn:Hle.
    + apply Z.leb_le in Hle.
      assert (Hnext : ∃ cur', ip_address_of_int (int cur + 1) = Ok cur'
                              ∧ int cur' = int cur + 1
                              ∧ (int cur' ≤ b → cur' = IPv4Address (int cur'))).
      { unfold ip_address_of_int, check_int_address.
        destruct (int cur + 1 <? 0) eqn:Hneg; [apply Z.ltb_lt in Hneg; lia|].
        change (ALL_ONES false) with 4294967295.
        change (ALL_ONES true) with 340282366920938463463374607431768211455.
        destruct (4294967295 <? int cur + 1) eqn:Hbig; simpl.
        - apply Z.ltb_lt in Hbig.
          destruct (_ <? int cur + 1) eqn:Hhuge;
            [apply Z.ltb_lt in Hhuge; change (2 ^ 32) with 4294967296 in Hb; lia|].
          simpl. eexists. split; [done|]. split; [done|]. simpl.
          change (2 ^ 32) with 4294967296 in Hb. lia.
        - eexists. split; [done|]. split; [done|]. done. }
      destruct Hnext as (cur' & -> & Hint & Hv4').
      rewrite IH; [|lia|done|done|lia].
      rewrite <- app_assoc. f_equal. unfold v4_range.
      rewrite (seqZ_cons (int cur)) by lia. rewrite Hint.
      replace (Z.succ (int cur)) with (int cur + 1) by lia.
      replace (Z.pred (b - int cur + 1)) with (b - (int cur + 1) + 1) by lia.
      cbn [map app]. by rewrite <- (Hv4 Hle).
    + apply Z.leb_gt in Hle. unfold v4_range. rewrite seqZ_nil by lia.
      by rewrite app_nil_r.
Qed.
Lemma digits_chars (d : string) (c : ascii) :
  all_chars is_ascii_digit d = true → is_ascii_digit c = false →
  has_char c d = false.
Proof. intros. by eapply all_chars_has_char. Qed.

(** Four octets joined by dots are the address of their numbers. *)
Lemma ip_address_of_octets (o1 o2 o3 o4 : string) (v1 v2 v3 v4 : Z) :
  parse_octet o1 = Ok v1 → parse_octet o2 = Ok v2 →
  parse_octet o3 = Ok v3 → parse_octet o4 = Ok v4 →
  ip_address (join "." [o1; o2; o3; o4])
  = Ok (IPv4Address (((v1 * 256 + v2) * 256 + v3) * 256 + v4)).
Proof.
  intros P1 P2 P3 P4.
  destruct (parse_octet_ok _ _ P1) as (_ & D1 & E1).
  destruct (parse_octet_ok _ _ P2) as (_ & D2 & _).
  destruct (parse_octet_ok _ _ P3) as (_ & D3 & _).
  destruct (parse_octet_ok _ _ P4) as (_ & D4 & _).
  change (join "." [o1; o2; o3; o4])
    with (o1 +:+ String "." (o2 +:+ String "." (o3 +:+ String "." o4))).
  set (t := o1 +:+ String "." (o2 +:+ String "." (o3 +:+ String "." o4))).
  assert (Hsl : has_char "/" t = false).
  { subst t. rewrite !has_char_app. simpl. rewrite !has_char_app. simpl.
    rewrite !has_char_app. simpl.
    by rewrite !(digits_chars _ "/") by done. }
  assert (Hv4 : v4_int_from_string t
                = Ok (((v1 * 256 + v2) * 256 + v3) * 256 + v4)).
  { unfold v4_int_from_string. subst t.
    destruct o1 as [|c1 r1]; [done|].
    rewrite app_String. simpl is_empty. cbv iota. rewrite <- app_String.
    rewrite !split_app_sep by (by apply digits_chars).
    rewrite split_no_char by (by apply digits_chars).
    simpl. rewrite P1, P2, P3, P4. simpl. f_equal. }
  unfold ip_address, IPv4Address_of_string.
  rewrite contains_char, Hsl, Hv4. done.
Qed.

(** The short right bound: the first three octets of the left address,
    then the given octet. *)
Lemma range_end_short (l r : string) (a v : Z) :
  has_char ":" l = false →
  ip_address l = Ok (IPv4Address a) →
  contains "." r = false → parse_octet r = Ok v →
  range_end l r = Ok (IPv4Address (a - a mod 256 + v)).
Proof.
  intros Hco Ha Hdot Hv. unfold range_end. rewrite Hdot.
  destruct (ip_address_no_colon l Hco) as [(n & Hn & Hv4 & _)|Hf];
    [|by rewrite Hf in Ha].
  rewrite Hn in Ha. injection Ha as ->.
  destruct (v4_int_from_string_ok l a Hv4)
    as (o1 & o2 & o3 & o4 & v1 & v2 & v3 & v4 & -> & P1 & P2 & P3 & P4 & ->).
  cbn [length Nat.eqb negb take app].
  rewrite (ip_address_of_octets o1 o2 o3 r v1 v2 v3 v P1 P2 P3 Hv).
  destruct (parse_octet_ok _ _ P4) as (H4 & _). do 2 f_equal.
  Z.div_mod_to_equations. lia.
Qed.

Lemma split_elem_chars (c x : ascii) (s o : string) :
  has_char x s = false → o ∈ split c s → has_char x o = false.
Proof.
  revert o. induction s as [|y s IH]; intros o Hs; simpl.
  - intros ->%list_elem_of_singleton. done.
  - simpl in Hs. apply orb_false_elim in Hs as [Hy Hs].
    destruct (Ascii.eqb y c).
    + intros [->|Ho]%elem_of_cons; [done|]. by apply IH.
    + destruct (split c s) as [|h t] eqn:Hsp.
      * intros ->%list_elem_of_singleton. simpl. by rewrite Hy.
      * intros [->|Ho]%elem_of_cons.
        -- simpl. rewrite Hy. simpl. apply IH; [done|]. by left.
        -- apply IH; [done|]. by right.
Qed.

Lemma join_chars (x : ascii) (l : list string) :
  has_char x "." = false → Forall (λ o, has_char x o = false) l →
  has_char x (join "." l) = false.
Proof.
  intros Hx. induction 1 as [|o l Ho Hl IH]; [done|].
  destruct l as [|o' l]; [done|].
  change (join "." (o :: o' :: l)) with (o +:+ "." +:+ join "." (o' :: l)).
  rewrite !has_char_app, Ho, Hx, IH. done.
Qed.

(** In colon-free text both bounds of a range are IPv4 addresses. *)
Lemma range_end_no_colon (l r : string) :
  has_char ":" l = false → has_char ":" r = false →
  (∃ b, range_end l r = Ok (IPv4Address b) ∧ 0 ≤ b < 2 ^ 32)
  ∨ range_end l r = Raise ValueError.
Proof.
  intros Hl Hr. unfold range_end.
  assert (Hcase : ∀ t, has_char ":" t = false →
            (∃ b, ip_address t = Ok (IPv4Address b) ∧ 0 ≤ b < 2 ^ 32)
            ∨ ip_address t = Raise ValueError).
  { intros t Ht. destruct (ip_address_no_colon t Ht) as [(n & Hn & Hv & _)|];
      [left|by right].
    exists n. split; [done|]. by eapply v4_int_from_string_range. }
  destruct (contains "." r); [by apply Hcase|].
  destruct (negb _); [by right|]. apply Hcase.
  apply join_chars; [done|]. apply Forall_app. split.
  - apply Forall_forall. intros o Ho. eapply split_elem_chars; [exact Hl|].
    eapply elem_of_sublist; [exact Ho|]. apply sublist_take.
  - by constructor.
Qed.

(** On colon-free text the range rule emits the IPv4 addresses of a range
    and ends the line, or emits nothing. *)
Lemma range_rule_no_colon (s : string) :
  has_char ":" s = false →
  (∃ a b, 0 ≤ a ∧ a ≤ b ∧ b < 2 ^ 32
          ∧ ∀ out, range_rule s out = Ok (out ++ v4_range a b, true))
  ∨ (∀ out, range_rule s out = Ok (out, false)).
Proof.
  intros Hs. unfold range_rule.
  destruct (find_sep "-" s) as [[l r]|] eqn:Hf; [|by right].
  apply find_sep_app in Hf. rewrite Hf, !has_char_app in Hs.
  apply orb_false_elim in Hs as [Hl Hs]. apply orb_false_elim in Hs as [_ Hr].
  destruct (ip_address_no_colon l Hl) as [(a & -> & Ha & _)| ->];
    [|by right].
  apply v4_int_from_string_range in Ha.
  destruct (range_end_no_colon l r Hl Hr) as [(b & -> & Hb)| ->];
    [|by right].
  cbn [mbind result_bind int]. destruct (a <=? b) eqn:Hle; [|by right].
  apply Z.leb_le in Hle. left. exists a, b. repeat split; try lia.
  intros out.
  rewrite (range_while_v4 _ (IPv4Address a) b out); simpl; try done; lia.
Qed.
Lemma elem_of_v4_range (t : string) (a b : Z) :
  0 ≤ a → b < 2 ^ 32 → t ∈ v4_range a b →
  ∃ n, 0 ≤ n < 2 ^ 32 ∧ t = v4_string_from_int n.
Proof.
  intros Ha Hb. unfold v4_range.
  intros (n & -> & Hn)%list_elem_of_fmap. apply elem_of_seqZ in Hn.
  exists n. split; [lia|done].
Qed.

(** On text without slash and colon the rules emit texts of IPv4
    addresses, or else the text itself as a hostname. *)
Lemma apply_rules_cases (s : string) :
  has_char "/" s = false → has_char ":" s = false →
  (∃ l, (∀ out, apply_rules s out = Ok (out ++ l))
        ∧ ∀ t, t ∈ l → ∃ n, 0 ≤ n < 2 ^ 32 ∧ t = v4_string_from_int n)
  ∨ (∀ out, apply_rules s out = Ok (out ++ [s])).
Proof.
  intros Hsl Hco. unfold apply_rules.
  assert (Hhost :
    (∃ n, 0 ≤ n < 2 ^ 32
          ∧ ∀ out, network_or_host s out = Ok (out ++ [v4_string_from_int n]))
    ∨ (∀ out, network_or_host s out = Ok (out ++ [s]))).
  { unfold network_or_host.
    destruct (ip_network_plain s Hsl Hco)
      as [(n & net & Hnet & Hn & Hh)|[Hnet Hv4]].
    - left. exists n. split; [by eapply v4_int_from_string_range|].
      intros out. rewrite Hnet. cbv [mbind result_bind try_except].
      by rewrite Hh.
    - right. intros out. rewrite Hnet. cbv [mbind result_bind try_except].
      cbn [is_ValueError].
      destruct (ip_address_no_colon s Hco) as [(n & _ & Hn & _)| ->];
        [by rewrite Hn in Hv4|done]. }
  assert (Hrest :
    (∃ l, (∀ out, network_or_host s out = Ok (out ++ l))
          ∧ ∀ t, t ∈ l → ∃ n, 0 ≤ n < 2 ^ 32 ∧ t = v4_string_from_int n)
    ∨ (∀ out, network_or_host s out = Ok (out ++ [s]))).
  { destruct Hhost as [(n & Hn & Hh)|Hh]; [left|by right].
    exists [v4_string_from_int n]. split; [done|].
    intros t ->%list_elem_of_singleton. eauto. }
  destruct (contains "-" s); [|exact Hrest].
  destruct (range_rule_no_colon s Hco) as [(a & b & Ha & Hab & Hb & Hr)|Hr].
  - left. exists (v4_range a b). split.
    + intros out. by rewrite Hr.
    + intros t Ht. by eapply elem_of_v4_range.
  - destruct Hrest as [(l & Hl & Hv)|Hh]; [left|right].
    + exists l. split; [|done]. intros out. rewrite Hr. apply Hl.
    + intros out. rewrite Hr. apply Hh.
Qed.

(** A target that one line emitted, when it reads back as it is, expands
    to itself. *)
Lemma emitted_reexpands (raw : string) (l : list string) (t : string) :
  expand_line [] raw = Ok l → t ∈ l → stable_text t = true →
  ∀ out, expand_line out t = Ok (out ++ [t]).
Proof.
  unfold expand_line at 1. destruct (normalize raw) as [s|] eqn:Hn.
  2: { intros [= <-] Ht. by apply elem_of_nil in Ht. }
  destruct (normalize_chars raw s Hn) as [Hsl Hco].
  destruct (apply_rules_cases s Hsl Hco) as [(l' & Hl' & Hv)|Hh].
  - rewrite Hl'. intros [= <-] Ht _ out.
    destruct (Hv t Ht) as (n & Hr & ->). by apply expand_line_v4_string.
  - rewrite Hh. intros [= <-] ->%list_elem_of_singleton Hst out.
    unfold expand_line. rewrite (normalize_stable s Hsl Hco Hst). apply Hh.
Qed.

Lemma foldM_expand_line_emitted (lines : list string) (out emitted : list string)
    (t : string) :
  foldM expand_line out lines = Ok emitted → t ∈ emitted →
  t ∈ out ∨ ∃ raw l, raw ∈ lines ∧ expand_line [] raw = Ok l ∧ t ∈ l.
Proof.
  revert out. induction lines as [|raw lines IH]; intros out; simpl.
  - intros [= <-]. by left.
  - destruct (expand_line_ok raw) as (l & Hl). rewrite Hl. simpl.
    intros He Ht. destruct (IH _ He Ht) as [Hin|(raw' & l' & Hr & Hl' & Hin)].
    + apply elem_of_app in Hin as [?|?]; [by left|]. right.
      exists raw, l. split; [by left|]. split; [|done].
      by rewrite (Hl []).
    + right. exists raw', l'. split; [by right|done].
Qed.

Lemma concat_singletons (l : list string) : concat (map (λ t, [t]) l) = l.
Proof. induction l as [|x l IH]; [done|]. simpl. by rewrite IH. Qed.

(** C4 (as amended): when every target of an expansion reads back as it is
    (it is not empty, has no whitespace at either end and does not start
    with [#]), expanding the output again yields the same list, hence the
    same set of targets. *)
Theorem expand_targets_idempotent_on_stable (lines out1 : list string) :
  expand_targets lines = Ok out1 →
  Forall (λ t, stable_text t = true) out1 →
  expand_targets out1 = Ok out1
  ∧ ∀ out2, expand_targets out1 = Ok out2 → same_targets out2 out1.
Proof.
  intros H1 Hst.
  assert (Hre : expand_targets out1 = Ok out1).
  { destruct (expand_targets_ok lines) as (emitted & Hem & Hout).
    rewrite H1 in Hout. injection Hout as ->.
    rewrite dedupe_first_occurrences in *.
    unfold expand_targets.
    rewrite (foldM_append expand_line (λ t, [t])).
    - simpl. rewrite dedupe_first_occurrences. f_equal.
      rewrite concat_singletons.
      apply first_occurrences_NoDup, NoDup_first_occurrences.
    - intros out t Ht.
      assert (Hin : t ∈ emitted).
      { revert Ht. by rewrite !elem_of_first_occurrences. }
      assert (Hs : stable_text t = true).
      { rewrite Forall_forall in Hst. apply Hst.
        by apply elem_of_first_occurrences. }
      clear Ht. rename Hin into Ht.
      destruct (foldM_expand_line_emitted lines [] emitted t Hem Ht)
        as [Hnil|(raw & l & _ & Hl & Hin)]; [by apply elem_of_nil in Hnil|].
      by eapply emitted_reexpands. }
  split; [done|]. intros out2. rewrite Hre. by intros [= <-].
Qed.

Lemma expand_targets_idempotent_witness :
  expand_targets ["10.0.0.5-6"; "http://example.com:8443/path"; "10.0.0.5"]
  = Ok ["10.0.0.5"; "10.0.0.6"; "example.com"]
  ∧ Forall (λ t, stable_text t = true) ["10.0.0.5"; "10.0.0.6"; "example.com"]
  ∧ expand_targets ["10.0.0.5"; "10.0.0.6"; "example.com"]
    = Ok ["10.0.0.5"; "10.0.0.6"; "example.com"].
Proof.
  assert (H1 : expand_targets
                 ["10.0.0.5-6"; "http://example.com:8443/path"; "10.0.0.5"]
               = Ok ["10.0.0.5"; "10.0.0.6"; "example.com"])
    by (vm_compute; reflexivity).
  assert (H2 : Forall (λ t, stable_text t = true)
                 ["10.0.0.5"; "10.0.0.6"; "example.com"])
    by (repeat constructor).
  exact (conj H1 (conj H2
           (proj1 (expand_targets_idempotent_on_stable _ _ H1 H2)))).
Defined.

(** C4, as stated, fails: the line [/] expands to the empty target, and
    the empty target, read as a line, is blank and expands to nothing. *)
Lemma expand_targets_not_idempotent :
  expand_targets ["/"] = Ok [""]
  ∧ expand_targets [""] = Ok []
  ∧ ¬ expansion_idempotent_on ["/"].
Proof.
  assert (H1 : expand_targets ["/"] = Ok [""]) by (vm_compute; reflexivity).
  assert (H2 : expand_targets [""] = Ok []) by (vm_compute; reflexivity).
  split; [done|]. split; [done|].
  intros Hid. specialize (Hid _ _ H1 H2 "").
  destruct Hid as [_ Hid]. specialize (Hid ltac:(by left)).
  by apply elem_of_nil in Hid.
Qed.
(** ** Ranges and network blocks *)

Lemma range_rule_short (s l r : string) (a v : Z) (out : list string) :
  has_char ":" s = false →
  find_sep "-" s = Some (l, r) →
  ip_address l = Ok (IPv4Address a) →
  contains "." r = false → parse_octet r = Ok v →
  a ≤ a - a mod 256 + v →
  range_end l r = Ok (IPv4Address (a - a mod 256 + v))
  ∧ range_rule s out = Ok (out ++ v4_range a (a - a mod 256 + v), true).
Proof.
  intros Hco Hf Ha Hdot Hv Hle.
  assert (Hl : has_char ":" l = false).
  { apply find_sep_app in Hf. rewrite Hf in Hco. by eapply has_char_prefix. }
  pose proof (range_end_short l r a v Hl Ha Hdot Hv) as He.
  split; [done|]. unfold range_rule. rewrite Hf, Ha, He.
  cbn [mbind result_bind int].
  destruct (ip_address_no_colon l Hl) as [(n & Hn & Hr & _)|Hn];
    [|by rewrite Hn in Ha].
  rewrite Hn in Ha. injection Ha as ->.
  apply v4_int_from_string_range in Hr.
  destruct (parse_octet_ok r v Hv) as (Hv' & _).
  assert (Hb : a - a mod 256 + v < 2 ^ 32).
  { change (2 ^ 32) with 4294967296 in *. Z.div_mod_to_equations. lia. }
  apply Z.leb_le in Hle as Hle'. rewrite Hle'.
  rewrite (range_while_v4 _ (IPv4Address a) _ out); simpl; try done; lia.
Qed.

(** C7: in a range whose right bound has no dot, the right bound is the
    left address with its last octet replaced by that octet, and when the
    left address is not above it the line expands to every address from the
    left one to the right one, both included; [10.0.0.5-10] expands to the
    six addresses 10.0.0.5 to 10.0.0.10. *)
Theorem range_with_short_right_bound :
  (∀ (raw s l r : string) (a v : Z) (out : list string),
     normalize raw = Some s →
     find_sep "-" s = Some (l, r) →
     ip_address l = Ok (IPv4Address a) →
     contains "." r = false → parse_octet r = Ok v →
     a ≤ a - a mod 256 + v →
     range_end l r = Ok (IPv4Address (a - a mod 256 + v))
     ∧ expand_line out raw = Ok (out ++ v4_range a (a - a mod 256 + v)))
  ∧ expand_targets ["10.0.0.5-10"]
    = Ok ["10.0.0.5"; "10.0.0.6"; "10.0.0.7"; "10.0.0.8"; "10.0.0.9";
          "10.0.0.10"].
Proof.
  split; [|by vm_compute].
  intros raw s l r a v out Hn Hf Ha Hdot Hv Hle.
  destruct (normalize_chars raw s Hn) as [_ Hco].
  destruct (range_rule_short s l r a v out Hco Hf Ha Hdot Hv Hle) as [He Hr].
  split; [done|]. unfold expand_line, apply_rules. rewrite Hn.
  unfold contains. rewrite Hf, Hr. done.
Qed.

Lemma range_with_short_right_bound_witness :
  normalize " 10.0.0.5-10 " = Some "10.0.0.5-10"
  ∧ find_sep "-" "10.0.0.5-10" = Some ("10.0.0.5", "10")
  ∧ ip_address "10.0.0.5" = Ok (IPv4Address 167772165)
  ∧ contains "." "10" = false
  ∧ parse_octet "10" = Ok 10
  ∧ 167772165 ≤ 167772165 - 167772165 mod 256 + 10
  ∧ range_end "10.0.0.5" "10"
    = Ok (IPv4Address (167772165 - 167772165 mod 256 + 10))
  ∧ expand_line [] " 10.0.0.5-10 "
    = Ok ([] ++ v4_range 167772165 (167772165 - 167772165 mod 256 + 10)).
Proof.
  assert (H1 : normalize " 10.0.0.5-10 " = Some "10.0.0.5-10")
    by (vm_compute; reflexivity).
  assert (H2 : find_sep "-" "10.0.0.5-10" = Some ("10.0.0.5", "10"))
    by (vm_compute; reflexivity).
  assert (H3 : ip_address "10.0.0.5" = Ok (IPv4Address 167772165))
    by (vm_compute; reflexivity).
  assert (H4 : contains "." "10" = false) by (vm_compute; reflexivity).
  assert (H5 : parse_octet "10" = Ok 10) by (vm_compute; reflexivity).
  assert (H6 : 167772165 ≤ 167772165 - 167772165 mod 256 + 10)
    by (vm_compute; discriminate).
  exact (conj H1 (conj H2 (conj H3 (conj H4 (conj H5 (conj H6
           (proj1 range_with_short_right_bound _ _ _ _ _ _ [] H1 H2 H3 H4
              H5 H6))))))).
Defined.

(** C8 fails on the code: the path stripping cuts a line at its first
    slash, so the prefix length never reaches [ip_network]: the block
    [10.0.0.0/30] expands to its network address alone, where
    [ip_network] on the whole text has the hosts 10.0.0.1 and 10.0.0.2. *)
Theorem cidr_suffix_is_stripped :
  normalize "10.0.0.0/30" = Some "10.0.0.0"
  ∧ expand_targets ["10.0.0.0/30"] = Ok ["10.0.0.0"]
  ∧ (net ← ip_network "10.0.0.0/30" false; Ok (map ip_str (hosts net)))
    = Ok ["10.0.0.1"; "10.0.0.2"]
  ∧ ∀ raw s, normalize raw = Some s → contains "/" s = false.
Proof.
  split; [by vm_compute|]. split; [by vm_compute|]. split; [by vm_compute|].
  intros raw s Hn. rewrite contains_char. by apply (normalize_chars raw s).
Qed.

(** ** More on the expander *)

Lemma foldM_expand_line_from (lines : list string) (out emitted : list string) :
  foldM expand_line [] lines = Ok emitted →
  foldM expand_line out lines = Ok (out ++ emitted).
Proof.
  revert out emitted. induction lines as [|raw lines IH]; intros out emitted.
  - simpl. intros [= <-]. by rewrite app_nil_r.
  - simpl. destruct (expand_line_ok raw) as (l & Hl). rewrite !Hl. simpl.
    destruct (foldM_expand_line_ok lines []) as (e & He).
    rewrite (IH l e He). intros [= <-].
    rewrite (IH (out ++ l) e He). by rewrite <- app_assoc.
Qed.

Lemma network_or_host_cases (s : string) :
  has_char "/" s = false → has_char ":" s = false →
  (∃ n, 0 ≤ n < 2 ^ 32 ∧ v4_int_from_string s = Ok n
        ∧ ∀ out, network_or_host s out = Ok (out ++ [v4_string_from_int n]))
  ∨ (v4_int_from_string s = Raise AddressValueError
     ∧ ∀ out, network_or_host s out = Ok (out ++ [s])).
Proof.
  intros Hsl Hco. unfold network_or_host.
  destruct (ip_network_plain s Hsl Hco)
    as [(n & net & Hnet & Hn & Hh)|[Hnet Hv4]].
  - left. exists n. split; [by eapply v4_int_from_string_range|].
    split; [done|].
    intros out. rewrite Hnet. cbv [mbind result_bind try_except].
    by rewrite Hh.
  - right. split; [done|].
    intros out. rewrite Hnet. cbv [mbind result_bind try_except].
    cbn [is_ValueError].
    destruct (ip_address_no_colon s Hco) as [(n & _ & Hn & _)| ->];
      [by rewrite Hn in Hv4|done].
Qed.

Lemma v4_range_cons (a b : Z) :
  a ≤ b → v4_range a b = v4_string_from_int a :: v4_range (a + 1) b.
Proof.
  intros Hab. unfold v4_range. rewrite (seqZ_cons a) by lia. cbn [map].
  f_equal. f_equal. f_equal; lia.
Qed.

(** The rules emit at least one target: the addresses of a range, the
    address of the text, or the text itself. *)
Lemma apply_rules_emits (s : string) :
  has_char "/" s = false → has_char ":" s = false →
  ∃ t l, (∀ out, apply_rules s out = Ok (out ++ t :: l))
         ∧ ∀ x, x ∈ t :: l →
             has_char "/" x = false ∧ has_char ":" x = false.
Proof.
  intros Hsl Hco. unfold apply_rules.
  assert (Hrest : ∃ t, (∀ out, network_or_host s out = Ok (out ++ [t]))
            ∧ has_char "/" t = false ∧ has_char ":" t = false).
  { destruct (network_or_host_cases s Hsl Hco) as [(n & Hn & _ & Hh)|[_ Hh]].
    - exists (v4_string_from_int n). split; [done|].
      split; by apply v4_string_chars.
    - by exists s. }
  destruct Hrest as (t & Ht & Htc).
  assert (Hone : ∀ x, x ∈ [t] →
            has_char "/" x = false ∧ has_char ":" x = false).
  { by intros x ->%list_elem_of_singleton. }
  destruct (contains "-" s).
  2: { exists t, []. split; [|done]. intros out. simpl. apply Ht. }
  destruct (range_rule_no_colon s Hco) as [(a & b & Ha & Hab & Hb & Hr)|Hr].
  - exists (v4_string_from_int a), (v4_range (a + 1) b). split.
    + intros out. rewrite Hr. simpl. by rewrite v4_range_cons.
    + rewrite <- v4_range_cons by done. intros x Hx.
      destruct (elem_of_v4_range x a b Ha Hb Hx) as (n & Hn & ->).
      split; by apply v4_string_chars.
  - exists t, []. split; [|done]. intros out. rewrite Hr. simpl. apply Ht.
Qed.

Lemma expand_line_emits (raw s : string) :
  normalize raw = Some s →
  ∃ t l, (∀ out, expand_line out raw = Ok (out ++ t :: l))
         ∧ ∀ x, x ∈ t :: l →
             has_char "/" x = false ∧ has_char ":" x = false.
Proof.
  intros Hn. destruct (normalize_chars raw s Hn) as [Hsl Hco].
  destruct (apply_rules_emits s Hsl Hco) as (t & l & Hl & Hc).
  exists t, l. split; [|done]. intros out. unfold expand_line.
  rewrite Hn. apply Hl.
Qed.

Lemma expand_line_skipped (raw : string) (out : list string) :
  normalize raw = None → expand_line out raw = Ok out.
Proof. intros Hn. unfold expand_line. by rewrite Hn. Qed.

Lemma first_occurrences_nil (l : list string) :
  first_occurrences l = [] ↔ l = [].
Proof. by destruct l. Qed.

Lemma foldM_skipped (lines out : list string) :
  Forall (λ raw, normalize raw = None) lines →
  foldM expand_line out lines = Ok out.
Proof.
  induction 1 as [|raw lines Hraw Hall IH]; simpl; [done|].
  by rewrite expand_line_skipped.
Qed.

Lemma expand_targets_clean (lines : list string) :
  ∃ out,
    expand_targets lines = Ok out
    ∧ Forall (λ t, has_char "/" t = false ∧ has_char ":" t = false) out.
Proof.
  destruct (expand_targets_ok lines) as (emitted & Hem & ->).
  eexists. split; [done|]. rewrite dedupe_first_occurrences.
  apply Forall_forall. intros t Ht. rewrite elem_of_first_occurrences in Ht.
  destruct (foldM_expand_line_emitted lines [] emitted t Hem Ht)
    as [Hnil|(raw & l & _ & Hl & Hin)]; [by apply elem_of_nil in Hnil|].
  destruct (normalize raw) as [s|] eqn:Hn.
  - destruct (expand_line_emits raw s Hn) as (t' & l' & Hl' & Hc).
    rewrite Hl' in Hl. injection Hl as <-. by apply Hc.
  - rewrite expand_line_skipped in Hl by done. injection Hl as <-.
    by apply elem_of_nil in Hin.
Qed.

(** X1: no target of an expansion holds a slash or a colon: scheme, path
    and port are gone from every emitted hostname, and the text of an
    address has neither. *)
Theorem expand_targets_no_slash_no_colon (lines : list string) :
  ∃ out,
    expand_targets lines = Ok out
    ∧ Forall (λ t, has_char "/" t = false ∧ has_char ":" t = false) out.
Proof. apply expand_targets_clean. Qed.

Lemma expand_targets_nil_iff (lines : list string) :
  expand_targets lines = Ok []
  ↔ Forall (λ raw, normalize raw = None) lines.
Proof.
  destruct (expand_targets_ok lines) as (emitted & Hem & ->).
  rewrite dedupe_first_occurrences. split.
  - intros [= He]. apply (proj1 (first_occurrences_nil _)) in He.
    subst emitted.
    apply Forall_forall. intros raw Hraw.
    destruct (normalize raw) as [s|] eqn:Hn; [|done]. exfalso.
    destruct (expand_line_emits raw s Hn) as (t & l & Hl & _).
    pose proof (foldM_expand_line_elem lines raw (t :: l) [] Hraw (Hl []) Hem)
      as Hsub.
    specialize (Hsub t ltac:(by left)). by apply elem_of_nil in Hsub.
  - intros Hall. rewrite (foldM_skipped lines [] Hall) in Hem.
    by injection Hem as <-.
Qed.

(** X2: an expansion is empty exactly when every line is blank or a
    comment: a line that is not skipped always yields a target. *)
Theorem expand_targets_empty_iff_all_skipped (lines : list string) :
  expand_targets lines = Ok []
  ↔ Forall (λ raw, normalize raw = None) lines.
Proof. apply expand_targets_nil_iff. Qed.

(** X3: expanding two lists of lines put together gives the targets of
    the first list, then those of the second list that the first did not
    already yield. *)
Theorem expand_targets_app (l1 l2 : list string) :
  ∃ out1 out2,
    expand_targets l1 = Ok out1
    ∧ expand_targets l2 = Ok out2
    ∧ expand_targets (l1 ++ l2)
      = Ok (out1 ++ filter (λ t, t ∉ out1) out2).
Proof.
  destruct (expand_targets_ok l1) as (e1 & He1 & H1).
  destruct (expand_targets_ok l2) as (e2 & He2 & H2).
  exists (first_occurrences e1), (first_occurrences e2).
  rewrite H1, H2, !dedupe_first_occurrences. split; [done|]. split; [done|].
  unfold expand_targets. rewrite foldM_app, He1. simpl.
  rewrite (foldM_expand_line_from l2 e1 e2 He2). simpl.
  rewrite dedupe_first_occurrences, first_occurrences_app. do 2 f_equal.
  apply list_filter_iff. intros t. by rewrite elem_of_first_occurrences.
Qed.

Lemma range_rule_full (s l r : string) (a b : Z) (out : list string) :
  has_char ":" s = false →
  find_sep "-" s = Some (l, r) →
  ip_address l = Ok (IPv4Address a) →
  contains "." r = true → ip_address r = Ok (IPv4Address b) →
  a ≤ b →
  range_rule s out = Ok (out ++ v4_range a b, true).
Proof.
  intros Hco Hf Ha Hdot Hb Hle.
  pose proof (find_sep_app _ _ _ _ Hf) as Hs. rewrite Hs in Hco.
  rewrite !has_char_app in Hco.
  apply orb_false_elim in Hco as [Hl Hco].
  apply orb_false_elim in Hco as [_ Hr].
  unfold range_rule, range_end. rewrite Hf, Ha, Hdot, Hb.
  cbn [mbind result_bind int].
  destruct (ip_address_no_colon l Hl) as [(n & Hn & Hra & _)|Hn];
    [|by rewrite Hn in Ha].
  rewrite Hn in Ha. injection Ha as ->.
  destruct (ip_address_no_colon r Hr) as [(m & Hm & Hrb & _)|Hm];
    [|by rewrite Hm in Hb].
  rewrite Hm in Hb. injection Hb as ->.
  apply v4_int_from_string_range in Hra, Hrb.
  apply Z.leb_le in Hle as Hle'. rewrite Hle'.
  rewrite (range_while_v4 _ (IPv4Address a) _ out); simpl; try done; lia.
Qed.

(** X4: a range whose right bound is a full address, not below the left
    one, expands to every address from the left one to the right one, both
    included. *)
Theorem range_with_full_right_bound (raw s l r : string) (a b : Z)
    (out : list string) :
  normalize raw = Some s →
  find_sep "-" s = Some (l, r) →
  ip_address l = Ok (IPv4Address a) →
  contains "." r = true → ip_address r = Ok (IPv4Address b) →
  a ≤ b →
  expand_line out raw = Ok (out ++ v4_range a b)
  ∧ length (v4_range a b) = Z.to_nat (b - a + 1).
Proof.
  intros Hn Hf Ha Hdot Hb Hle.
  destruct (normalize_chars raw s Hn) as [_ Hco]. split.
  - unfold expand_line, apply_rules. rewrite Hn. unfold contains.
    rewrite Hf. by rewrite (range_rule_full s l r a b out).
  - unfold v4_range. by rewrite length_map, length_seqZ.
Qed.

Lemma range_with_full_right_bound_witness :
  normalize "10.0.0.254-10.0.1.1" = Some "10.0.0.254-10.0.1.1"
  ∧ expand_line [] "10.0.0.254-10.0.1.1"
    = Ok ([] ++ v4_range 167772414 167772417).
Proof.
  assert (H1 : normalize "10.0.0.254-10.0.1.1" = Some "10.0.0.254-10.0.1.1")
    by (vm_compute; reflexivity).
  assert (H2 : find_sep "-" "10.0.0.254-10.0.1.1"
               = Some ("10.0.0.254", "10.0.1.1"))
    by (vm_compute; reflexivity).
  assert (H3 : ip_address "10.0.0.254" = Ok (IPv4Address 167772414))
    by (vm_compute; reflexivity).
  assert (H4 : contains "." "10.0.1.1" = true) by (vm_compute; reflexivity).
  assert (H5 : ip_address "10.0.1.1" = Ok (IPv4Address 167772417))
    by (vm_compute; reflexivity).
  assert (H6 : 167772414 ≤ 167772417) by (vm_compute; discriminate).
  exact (conj H1
           (proj1 (range_with_full_right_bound _ _ _ _ _ _ [] H1 H2 H3 H4
                     H5 H6))).
Defined.

(** X5: the text of an IPv4 address reads back as that address, and as a
    line it expands to exactly itself. *)
Theorem ipv4_text_round_trip (n : Z) :
  0 ≤ n < 2 ^ 32 →
  ip_address (ip_str (IPv4Address n)) = Ok (IPv4Address n)
  ∧ expand_targets [ip_str (IPv4Address n)] = Ok [ip_str (IPv4Address n)].
Proof.
  intros Hn. cbn [ip_str]. split.
  - destruct (v4_string_spec n Hn) as (Hp & _ & _).
    unfold ip_address, IPv4Address_of_string.
    rewrite contains_char, (v4_string_chars n "/" Hn) by done.
    by rewrite Hp.
  - unfold expand_targets. cbn [foldM].
    rewrite (expand_line_v4_string n [] Hn). cbn [mbind result_bind app].
    by rewrite dedupe_first_occurrences.
Qed.

Lemma ipv4_text_round_trip_witness :
  0 ≤ 3232235777 < 2 ^ 32
  ∧ expand_targets [ip_str (IPv4Address 3232235777)]
    = Ok [ip_str (IPv4Address 3232235777)].
Proof.
  assert (H : 0 ≤ 3232235777 < 2 ^ 32)
    by (change (2 ^ 32) with 4294967296; lia).
  exact (conj H (proj2 (ipv4_text_round_trip 3232235777 H))).
Defined.

Lemma split_not_nil (c : ascii) (s : string) : split c s ≠ [].
Proof.
  induction s as [|a s IH]; simpl; [done|].
  destruct (Ascii.eqb a c); [done|]. by destruct (split c s).
Qed.

Lemma join_cons_char (c a : ascii) (h : string) (t : list string) :
  join (String c "") (String a h :: t) = String a (join (String c "") (h :: t)).
Proof. by destruct t. Qed.

(** Joining the pieces of a split gives the text back. *)
Lemma join_split (c : ascii) (s : string) :
  join (String c "") (split c s) = s.
Proof.
  induction s as [|a s IH]; simpl; [done|].
  destruct (Ascii.eqb_spec a c) as [->|Hne].
  - destruct (split c s) as [|h t] eqn:Hs; [by apply split_not_nil in Hs|].
    change (join (String c "") ("" :: h :: t))
      with (String c (join (String c "") (h :: t))).
    by rewrite IH.
  - destruct (split c s) as [|h t] eqn:Hs; [by apply split_not_nil in Hs|].
    by rewrite join_cons_char, IH.
Qed.

(** Text that parses as an IPv4 address holds digits and dots only. *)
Lemma v4_int_from_string_chars (s : string) (n : Z) :
  v4_int_from_string s = Ok n → all_chars dotted_char s = true.
Proof.
  intros (o1 & o2 & o3 & o4 & v1 & v2 & v3 & v4 & Hsp & P1 & P2 & P3 & P4 & _)
    %v4_int_from_string_ok.
  rewrite <- (join_split "." s), Hsp.
  destruct (parse_octet_ok _ _ P1) as (_ & D1 & _).
  destruct (parse_octet_ok _ _ P2) as (_ & D2 & _).
  destruct (parse_octet_ok _ _ P3) as (_ & D3 & _).
  destruct (parse_octet_ok _ _ P4) as (_ & D4 & _).
  assert (Hdot : ∀ d, all_chars is_ascii_digit d = true →
                      all_chars dotted_char d = true).
  { intros d. apply all_chars_impl. intros c Hc. unfold dotted_char.
    by rewrite Hc. }
  change (join "." [o1; o2; o3; o4])
    with (o1 +:+ String "." (o2 +:+ String "." (o3 +:+ String "." o4))).
  rewrite !all_chars_app. simpl. rewrite !all_chars_app. simpl.
  rewrite !all_chars_app. simpl. by rewrite !Hdot.
Qed.

(** X6: a line whose stripped text holds a dash expands to the addresses
    of a range, lowest first, or else to that text itself, unchanged: a
    range that is malformed, or whose left bound is above the right one,
    is kept as a hostname. *)
Theorem dash_line_is_range_or_hostname (raw s : string) :
  normalize raw = Some s → contains "-" s = true →
  (∃ a b, 0 ≤ a ∧ a ≤ b ∧ b < 2 ^ 32
          ∧ ∀ out, expand_line out raw = Ok (out ++ v4_range a b))
  ∨ (∀ out, expand_line out raw = Ok (out ++ [s])).
Proof.
  intros Hn Hd. destruct (normalize_chars raw s Hn) as [Hsl Hco].
  unfold expand_line, apply_rules. rewrite Hn, Hd.
  destruct (range_rule_no_colon s Hco) as [(a & b & Ha & Hab & Hb & Hr)|Hr].
  - left. exists a, b. repeat split; try done. intros out. by rewrite Hr.
  - right. intros out. rewrite Hr. cbn [mbind result_bind].
    destruct (network_or_host_cases s Hsl Hco) as [(n & _ & Hv & _)|[_ Hh]];
      [|apply Hh].
    apply v4_int_from_string_chars in Hv.
    rewrite contains_char in Hd.
    by rewrite (all_chars_has_char dotted_char "-" s Hv) in Hd.
Qed.

Lemma dash_line_is_range_or_hostname_witness :
  normalize "http://10.0.0.9-5:80/x" = Some "10.0.0.9-5"
  ∧ contains "-" "10.0.0.9-5" = true
  ∧ ((∃ a b, 0 ≤ a ∧ a ≤ b ∧ b < 2 ^ 32
             ∧ ∀ out, expand_line out "http://10.0.0.9-5:80/x"
                      = Ok (out ++ v4_range a b))
     ∨ (∀ out, expand_line out "http://10.0.0.9-5:80/x"
               = Ok (out ++ ["10.0.0.9-5"]))).
Proof.
  assert (H1 : normalize "http://10.0.0.9-5:80/x" = Some "10.0.0.9-5")
    by (vm_compute; reflexivity).
  assert (H2 : contains "-" "10.0.0.9-5" = true) by (vm_compute; reflexivity).
  exact (conj H1 (conj H2 (dash_line_is_range_or_hostname _ _ H1 H2))).
Defined.

(** ** Stripping *)

Lemma lstrip_head (s : string) :
  lstrip s = "" ∨ ∃ c r, lstrip s = String c r ∧ is_space c = false.
Proof.
  induction s as [|c s IH]; simpl; [by left|].
  destruct (is_space c) eqn:Hc; [done|]. right. eauto.
Qed.

Lemma rstrip_idem (s : string) : rstrip (rstrip s) = rstrip s.
Proof.
  induction s as [|c s IH]; simpl; [done|].
  destruct (is_space c && is_empty (rstrip s)) eqn:Hc; [done|].
  simpl. by rewrite IH, Hc.
Qed.

Lemma rstrip_head (c : ascii) (r : string) :
  is_space c = false → rstrip (String c r) = String c (rstrip r).
Proof. intros Hc. simpl. by rewrite Hc. Qed.

(** Stripping a stripped text changes nothing. *)
Lemma strip_idem (s : string) : strip (strip s) = strip s.
Proof.
  unfold strip. destruct (lstrip_head s) as [->|(c & r & -> & Hc)]; [done|].
  rewrite rstrip_head by done. cbn [lstrip]. rewrite Hc.
  by rewrite rstrip_head, rstrip_idem.
Qed.

Lemma is_empty_true (s : string) : is_empty s = true ↔ s = "".
Proof. by destruct s. Qed.

(** ** The prober's result *)

Lemma NoDup_fping_alive
    (world : Type)
    (subprocess_run : string → world → result CompletedProcess * world)
    (create_connection : string → Z → Z → world → result unit * world)
    (hosts : list string) (w : world) :
  NoDup (fst (fping_alive world subprocess_run create_connection hosts w)).
Proof.
  unfold fping_alive. destruct hosts as [|h hosts]; [constructor|].
  destruct (subprocess_run _ w) as [r w1].
  destruct (_ ≫= _) as [alive| |] eqn:Hr.
  - destruct r as [proc| |]; try done. simpl in Hr.
    destruct (stdout_decode proc); try done. simpl in Hr.
    injection Hr as <-. simpl. rewrite dedupe_first_occurrences.
    apply NoDup_first_occurrences.
  - destruct (tcp_probe _ _ _ _ _) as [alive w2]. simpl.
    rewrite dedupe_first_occurrences. apply NoDup_first_occurrences.
  - destruct (tcp_probe _ _ _ _ _) as [alive w2]. simpl.
    rewrite dedupe_first_occurrences. apply NoDup_first_occurrences.
Qed.

(** X7: whichever path it takes, the liveness prober returns no host
    twice. *)
Theorem fping_alive_NoDup
    (world : Type)
    (subprocess_run : string → world → result CompletedProcess * world)
    (create_connection : string → Z → Z → world → result unit * world)
    (hosts : list string) (w : world) :
  NoDup (fst (fping_alive world subprocess_run create_connection hosts w)).
Proof. apply NoDup_fping_alive. Qed.

(** X8: when the sweep process completes and its output decodes, the
    prober returns the lines of that output, stripped: each returned host
    is a non-empty text without whitespace at either end, the hosts are not
    compared with the input list, no TCP connection is attempted and the
    exit status plays no part. *)
Theorem fping_alive_primary_path
    (world : Type)
    (subprocess_run : string → world → result CompletedProcess * world)
    (create_connection : string → Z → Z → world → result unit * world)
    (hosts : list string) (w w1 : world) (proc : CompletedProcess)
    (text : string) :
  hosts ≠ [] →
  subprocess_run (join LF hosts) w = (Ok proc, w1) →
  stdout_decode proc = Ok text →
  ∃ alive,
    fping_alive world subprocess_run create_connection hosts w = (alive, w1)
    ∧ Forall (λ h, h ≠ "" ∧ strip h = h
                   ∧ ∃ line, line ∈ splitlines text ∧ h = strip line) alive
    ∧ ∀ line, line ∈ splitlines text → strip line ≠ "" → strip line ∈ alive.
Proof.
  intros Hne Hrun Hd. eexists. split.
  { by apply (fping_alive_completed subprocess_run create_connection
                hosts w w1 proc text). }
  rewrite dedupe_first_occurrences. split.
  - apply Forall_forall. intros h. rewrite elem_of_first_occurrences.
    intros (line & -> & Hin)%list_elem_of_fmap.
    apply list_elem_of_In, filter_In in Hin as [Hin Hb].
    apply list_elem_of_In in Hin. apply negb_true_iff in Hb.
    split; [|split].
    + intros He. by rewrite He in Hb.
    + apply strip_idem.
    + eauto.
  - intros line Hin Hs. rewrite elem_of_first_occurrences.
    apply list_elem_of_fmap. exists line. split; [done|].
    apply list_elem_of_In, filter_In. split; [by apply list_elem_of_In|].
    apply negb_true_iff. by destruct (strip line).
Qed.

Lemma fping_alive_primary_path_witness :
  ["10.0.0.1"; "10.0.0.2"] ≠ []
  ∧ ∃ alive,
      fping_alive unit Samples.sweep_finds_two Fixture.connect_always
        ["10.0.0.1"; "10.0.0.2"] () = (alive, ())
      ∧ Forall (λ h, h ≠ "" ∧ strip h = h
                     ∧ ∃ line, line ∈ splitlines Samples.sweep_text
                               ∧ h = strip line) alive.
Proof.
  assert (H1 : ["10.0.0.1"; "10.0.0.2"] ≠ []) by discriminate.
  refine (conj H1 _).
  destruct (fping_alive_primary_path unit Samples.sweep_finds_two
              Fixture.connect_always ["10.0.0.1"; "10.0.0.2"] () ()
              {| returncode := 1; stdout_decode := Ok Samples.sweep_text |}
              Samples.sweep_text H1 eq_refl eq_refl) as (alive & Ha & Hf & _).
  exact (ex_intro _ alive (conj Ha Hf)).
Defined.

(** ** Reading target files *)

Import Utils.

Lemma kept_lines_spec (data line : string) :
  line ∈ kept_lines data →
  line ≠ "" ∧ strip line = line ∧ startswith "#" line = false
  ∧ normalize line ≠ None.
Proof.
  unfold kept_lines. intros Hin.
  apply list_elem_of_In, filter_In in Hin as [Hin Hb].
  apply list_elem_of_In, list_elem_of_fmap in Hin as (x & -> & _).
  apply andb_prop in Hb as [He Hh]. apply negb_true_iff in He, Hh.
  assert (Hs : strip (strip x) = strip x) by apply strip_idem.
  split; [|split; [done|split; [done|]]].
  - intros H0. by rewrite H0 in He.
  - unfold normalize. by rewrite Hs, He, Hh.
Qed.


Lemma read_lines_not_skipped
    (world Path : Type) (path_exists : Path → world → bool)
    (read_text : Path → world → result string)
    (path : Path) (w : world) :
  Forall (λ line, normalize line ≠ None)
    (read_lines world Path path_exists read_text path w).
Proof.
  unfold read_lines. destruct (path_exists path w); simpl; [|constructor].
  destruct (read_text path w) as [data| |]; try constructor.
  apply Forall_forall. intros line Hin.
  by destruct (kept_lines_spec data line Hin) as (_ & _ & _ & ?).
Qed.

(** A list with a line that is not skipped does not expand to nothing. *)
Lemma expand_targets_not_nil (lines : list string) :
  lines ≠ [] → Forall (λ line, normalize line ≠ None) lines →
  expand_targets lines ≠ Ok [].
Proof.
  intros Hne Hall He. apply expand_targets_nil_iff in He.
  destruct lines as [|x l]; [done|].
  apply Forall_cons in Hall as [Hx _]. apply Forall_cons in He as [Hx' _].
  done.
Qed.

(** X10: the expander skips no line that [read_lines] returns, so a file
    with at least one kept line never expands to nothing. *)
Theorem read_lines_then_expand
    (world Path : Type) (path_exists : Path → world → bool)
    (read_text : Path → world → result string)
    (path : Path) (w : world) :
  Forall (λ line, normalize line ≠ None)
    (read_lines world Path path_exists read_text path w)
  ∧ (expand_targets (read_lines world Path path_exists read_text path w)
     = Ok []
     ↔ read_lines world Path path_exists read_text path w = []).
Proof.
  pose proof (read_lines_not_skipped world Path path_exists read_text path w)
    as Hall.
  split; [done|]. split.
  - intros He.
    destruct (read_lines world Path path_exists read_text path w)
      as [|x l] eqn:Hr; [done|].
    by destruct (expand_targets_not_nil (x :: l)).
  - intros ->. by vm_compute.
Qed.

(** ** The fields the completion leaves alone *)

Import Invariants.

Lemma lookup_setdefault_eq (obj : gmap string value) (k : string) (v : value) :
  setdefault k v obj !! k = Some (default v (obj !! k)).
Proof.
  unfold setdefault. destruct (obj !! k) eqn:Hk; simpl; [done|].
  by rewrite lookup_insert_eq.
Qed.

Lemma lookup_default_severity_eq (obj : gmap string value) :
  default_severity obj !! "severity"
  = Some (default (VStr "unknown") (obj !! "severity")).
Proof.
  unfold default_severity. destruct (obj !! "severity") eqn:Hk; simpl; [done|].
  by rewrite lookup_insert_eq.
Qed.

Lemma ensure_soft_schema_keys (now : string) (obj : gmap string value)
    (ctx : context) (rid : value) :
  ctx_lookup ctx "run_id" = Ok rid →
  ∃ obj',
    _ensure_soft_schema now obj ctx = Ok obj'
    ∧ obj' !! "run_id" = Some (default rid (obj !! "run_id"))
    ∧ obj' !! "ts" = Some (default (VStr now) (obj !! "ts"))
    ∧ obj' !! "severity"
      = Some (default (VStr "unknown") (obj !! "severity"))
    ∧ ∀ k, k ∉ schema_keys → obj' !! k = obj !! k.
Proof.
  intros Hrid. unfold _ensure_soft_schema. rewrite Hrid.
  cbv beta iota zeta delta [mbind result_bind].
  eexists. split; [reflexivity|].
  split; [same_field; apply lookup_setdefault_eq|].
  split.
  { same_field. rewrite lookup_setdefault_eq.
    by rewrite lookup_setdefault_ne by done. }
  split.
  { rewrite lookup_default_severity_eq. by same_field. }
  intros k Hk. unfold schema_keys in Hk.
  rewrite !not_elem_of_cons in Hk.
  destruct Hk as (? & ? & ? & ? & ? & ? & _). by same_field.
Qed.

(** X11: the completion writes six fields only.  Every other mapped field
    is kept as it is; a mapped [run_id], [ts] or [severity] is kept
    whatever its value, [None] included, and is filled in only when the
    key is absent; [partial] is a boolean whatever the rule mapped to it. *)
Theorem soft_schema_keeps_mapped_fields (now : string)
    (obj : gmap string value) (ctx : context) (rid : value) :
  ctx_lookup ctx "run_id" = Ok rid →
  ∃ obj',
    _ensure_soft_schema now obj ctx = Ok obj'
    ∧ (∀ k, k ∉ schema_keys → obj' !! k = obj !! k)
    ∧ obj' !! "run_id" = Some (default rid (obj !! "run_id"))
    ∧ obj' !! "ts" = Some (default (VStr now) (obj !! "ts"))
    ∧ obj' !! "severity"
      = Some (default (VStr "unknown") (obj !! "severity"))
    ∧ ∃ b, obj' !! "partial" = Some (VBool b).
Proof.
  intros Hrid.
  destruct (ensure_soft_schema_keys now obj ctx rid Hrid)
    as (obj' & He & Hr & Ht & Hs & Hk).
  destruct (ensure_soft_schema_spec now obj ctx rid Hrid)
    as (obj'' & He' & _ & _ & Hp & _).
  rewrite He in He'. injection He' as <-.
  exists obj'. repeat (split; [done|]). eauto.
Qed.

Lemma soft_schema_keeps_mapped_fields_witness :
  ctx_lookup Fixture.ctx_global "run_id" = Ok (VStr "run-1")
  ∧ ∃ obj',
      _ensure_soft_schema "2026-01-01T00:00:00Z" Fixture.host_only_record
        Fixture.ctx_global = Ok obj'
      ∧ ∀ k, k ∉ schema_keys → obj' !! k = Fixture.host_only_record !! k.
Proof.
  assert (H : ctx_lookup Fixture.ctx_global "run_id" = Ok (VStr "run-1"))
    by reflexivity.
  refine (conj H _).
  destruct (soft_schema_keeps_mapped_fields "2026-01-01T00:00:00Z"
              Fixture.host_only_record Fixture.ctx_global (VStr "run-1") H)
    as (obj' & He & Hk & _).
  exact (ex_intro _ obj' (conj He Hk)).
Defined.

(** ** Where the asset comes from *)

Lemma field_truthy_lookup (obj : gmap string value) (k : string) :
  field_truthy obj k = true → obj !! k = Some (obj_get obj k).
Proof. unfold field_truthy, obj_get. by destruct (obj !! k). Qed.

(** X12: a candidate is written exactly when its mapped [tool] is truthy
    and one of [asset], [url], [host], [ip], [domain] is; the written
    [asset] is the value of the first truthy one in that order. *)
Theorem emitted_iff_tool_and_asset_source (now : string)
    (obj : gmap string value) (ctx : context) (rid : value) :
  ctx_lookup ctx "run_id" = Ok rid →
  ∃ obj',
    _ensure_soft_schema now obj ctx = Ok obj'
    ∧ (∀ out,
         _emit now obj ctx out
         = Ok (if field_truthy obj "tool"
                  && existsb (field_truthy obj) asset_sources
               then out ++ [obj'] else out))
    ∧ ∀ k, List.find (field_truthy obj) asset_sources = Some k →
           obj' !! "asset" = Some (obj_get obj k).
Proof.
  intros Hrid.
  destruct (ensure_soft_schema_spec now obj ctx rid Hrid)
    as (obj' & He & Htool & _ & _ & _ & _ & Hkeep & Hfill).
  destruct (emit_spec now obj ctx rid Hrid) as (obj'' & He' & Hemit).
  rewrite He in He'. injection He' as <-.
  exists obj'. split; [done|].
  assert (Ha : field_truthy obj' "asset"
               = existsb (field_truthy obj) asset_sources).
  { unfold asset_sources. cbn [existsb].
    destruct (field_truthy obj "asset") eqn:Hasset.
    - rewrite (field_truthy_eq obj' obj "asset") by auto. by rewrite Hasset.
    - specialize (Hfill eq_refl). cbn [orb]. cbn [List.find] in Hfill.
      unfold field_truthy at 1, obj_get at 1. rewrite Hfill.
      destruct (field_truthy obj "url") eqn:H1; [done|].
      destruct (field_truthy obj "host") eqn:H2; [done|].
      destruct (field_truthy obj "ip") eqn:H3; [done|].
      destruct (field_truthy obj "domain") eqn:H4; [done|].
      fold (obj_get obj "asset"). fold (field_truthy obj "asset").
      by rewrite Hasset. }
  split.
  - intros out. rewrite Hemit, <- Ha.
    by rewrite (field_truthy_eq obj' obj "tool") by done.
  - intros k. unfold asset_sources. cbn [List.find].
    destruct (field_truthy obj "asset") eqn:Hasset.
    + intros [= <-]. rewrite Hkeep by done. by apply field_truthy_lookup.
    + intros Hk. rewrite (Hfill eq_refl). cbn [List.find]. by rewrite Hk.
Qed.

Lemma emitted_iff_tool_and_asset_source_witness :
  ctx_lookup Fixture.ctx_global "run_id" = Ok (VStr "run-1")
  ∧ ∃ obj',
      _ensure_soft_schema "2026-01-01T00:00:00Z" Fixture.host_only_record
        Fixture.ctx_global = Ok obj'
      ∧ ∀ k, List.find (field_truthy Fixture.host_only_record) asset_sources
             = Some k →
             obj' !! "asset" = Some (obj_get Fixture.host_only_record k).
Proof.
  assert (H : ctx_lookup Fixture.ctx_global "run_id" = Ok (VStr "run-1"))
    by reflexivity.
  refine (conj H _).
  destruct (emitted_iff_tool_and_asset_source "2026-01-01T00:00:00Z"
              Fixture.host_only_record Fixture.ctx_global (VStr "run-1") H)
    as (obj' & He & _ & Hk).
  exact (ex_intro _ obj' (conj He Hk)).
Defined.

(** ** Completing a completed record *)

Lemma setdefault_present (obj : gmap string value) (k : string) (v : value) :
  is_Some (obj !! k) → setdefault k v obj = obj.
Proof. intros [x Hx]. unfold setdefault. by rewrite Hx. Qed.

Lemma ensure_soft_schema_fixed (now : string) (obj : gmap string value)
    (ctx : context) (rid : value) :
  ctx_lookup ctx "run_id" = Ok rid →
  is_Some (obj !! "run_id") → is_Some (obj !! "ts") →
  is_Some (obj !! "severity") →
  field_truthy obj "summary" = true →
  obj !! "partial" = Some (VBool (negb (field_truthy obj "asset"))) →
  (field_truthy obj "asset" = false →
   List.find (field_truthy obj) ["url"; "host"; "ip"; "domain"] = None) →
  _ensure_soft_schema now obj ctx = Ok obj.
Proof.
  intros Hrid Hr Ht [sev Hsev] Hs Hp Ha. unfold _ensure_soft_schema.
  rewrite Hrid. cbv beta iota zeta delta [mbind result_bind].
  rewrite (setdefault_present obj "run_id") by done.
  rewrite (setdefault_present obj "ts") by done.
  assert (Hfa : fill_asset obj = obj).
  { unfold fill_asset. destruct (field_truthy obj "asset"); [done|].
    cbn [negb]. by rewrite Ha. }
  rewrite Hfa.
  assert (Hfs : fill_summary obj = obj).
  { unfold fill_summary. by rewrite Hs. }
  rewrite Hfs.
  assert (Hmp : mark_partial obj = obj).
  { unfold mark_partial. cbn [List.filter]. rewrite Hs. cbn [negb].
    apply insert_id. rewrite Hp. by destruct (field_truthy obj "asset"). }
  rewrite Hmp. unfold default_severity. by rewrite Hsev.
Qed.

(** X13: completing a completed record again changes nothing, whatever
    the clock and the run context of the second pass. *)
Theorem soft_schema_idempotent (now now' : string) (obj : gmap string value)
    (ctx ctx' : context) (rid rid' : value) :
  ctx_lookup ctx "run_id" = Ok rid →
  ctx_lookup ctx' "run_id" = Ok rid' →
  ∃ obj',
    _ensure_soft_schema now obj ctx = Ok obj'
    ∧ _ensure_soft_schema now' obj' ctx' = Ok obj'.
Proof.
  intros Hrid Hrid'.
  destruct (ensure_soft_schema_keys now obj ctx rid Hrid)
    as (obj' & He & Hr & Ht & Hsev & Hk).
  destruct (ensure_soft_schema_spec now obj ctx rid Hrid)
    as (obj'' & He' & _ & Hs & Hp & _ & _ & Hkeep & Hfill).
  rewrite He in He'. injection He' as <-.
  exists obj'. split; [done|].
  apply (ensure_soft_schema_fixed now' obj' ctx' rid'); try done;
    try (by eexists).
  intros Ha'.
  assert (Hsame : ∀ k, k ∈ ["url"; "host"; "ip"; "domain"] →
                       field_truthy obj' k = field_truthy obj k).
  { intros k Hin. apply field_truthy_eq, Hk. unfold schema_keys.
    rewrite !elem_of_cons in Hin. rewrite !not_elem_of_cons.
    destruct Hin as [->|[->|[->|[->|Hin]]]];
      [| | | |by apply elem_of_nil in Hin];
      repeat (split; [done|]); apply not_elem_of_nil. }
  cbn [List.find].
  rewrite !Hsame by (rewrite !elem_of_cons; tauto).
  destruct (field_truthy obj "asset") eqn:Hasset.
  { rewrite (field_truthy_eq obj' obj "asset") in Ha' by auto.
    by rewrite Hasset in Ha'. }
  specialize (Hfill eq_refl). cbn [List.find] in Hfill.
  unfold field_truthy at 1, obj_get at 1 in Ha'. rewrite Hfill in Ha'.
  destruct (field_truthy obj "url") eqn:H1;
    [simpl in Ha'; fold (field_truthy obj "url") in Ha'; congruence|].
  destruct (field_truthy obj "host") eqn:H2;
    [simpl in Ha'; fold (field_truthy obj "host") in Ha'; congruence|].
  destruct (field_truthy obj "ip") eqn:H3;
    [simpl in Ha'; fold (field_truthy obj "ip") in Ha'; congruence|].
  destruct (field_truthy obj "domain") eqn:H4;
    [simpl in Ha'; fold (field_truthy obj "domain") in Ha'; congruence|].
  done.
Qed.

Lemma soft_schema_idempotent_witness :
  ctx_lookup Fixture.ctx_global "run_id" = Ok (VStr "run-1")
  ∧ ctx_lookup [("run_id", VStr "run-2")] "run_id" = Ok (VStr "run-2")
  ∧ ∃ obj',
      _ensure_soft_schema "2026-01-01T00:00:00Z" Fixture.host_only_record
        Fixture.ctx_global = Ok obj'
      ∧ _ensure_soft_schema "2026-01-02T00:00:00Z" obj'
          [("run_id", VStr "run-2")] = Ok obj'.
Proof.
  assert (H : ctx_lookup Fixture.ctx_global "run_id" = Ok (VStr "run-1"))
    by reflexivity.
  assert (H' : ctx_lookup [("run_id", VStr "run-2")] "run_id"
               = Ok (VStr "run-2")) by reflexivity.
  exact (conj H (conj H'
           (soft_schema_idempotent "2026-01-01T00:00:00Z"
              "2026-01-02T00:00:00Z" Fixture.host_only_record
              Fixture.ctx_global [("run_id", VStr "run-2")]
              (VStr "run-1") (VStr "run-2") H H'))).
Defined.

(** ** What the rules write *)

(** A loop whose body only appends elements with a property only appends
    such elements. *)
Lemma foldM_extends {A B} (Q : B → Prop) (f : list B → A → result (list B))
    (l : list A) :
  (∀ out x out', f out x = Ok out' →
                 ∃ new, out' = out ++ new ∧ Forall Q new) →
  ∀ out out', foldM f out l = Ok out' →
              ∃ new, out' = out ++ new ∧ Forall Q new.
Proof.
  intros Hf. induction l as [|x l IH]; intros out out'; simpl.
  - intros [= <-]. exists []. by rewrite app_nil_r.
  - destruct (f out x) as [out1| |] eqn:Hx; try done. simpl.
    intros Hl. destruct (Hf _ _ _ Hx) as (n1 & -> & H1).
    destruct (IH _ _ Hl) as (n2 & -> & H2).
    exists (n1 ++ n2). rewrite app_assoc. split; [done|].
    by apply Forall_app.
Qed.

Lemma emit_extends (now : string) (obj : gmap string value) (ctx : context)
    (out out' : list (gmap string value)) :
  _emit now obj ctx out = Ok out' →
  ∃ new, out' = out ++ new ∧ Forall complete_finding new.
Proof.
  destruct (ctx_lookup ctx "run_id") as [rid| |] eqn:Hrid.
  - destruct (ensure_soft_schema_spec now obj ctx rid Hrid)
      as (obj' & He & _ & Hs & Hp & _).
    destruct (ensure_soft_schema_keys now obj ctx rid Hrid)
      as (obj1 & He1 & Hr & Ht & Hsev & _).
    rewrite He in He1. injection He1 as <-.
    destruct (emit_spec now obj ctx rid Hrid) as (obj2 & He2 & Hemit).
    rewrite He in He2. injection He2 as <-.
    rewrite Hemit.
    destruct (field_truthy obj' "tool") eqn:Htool;
      [destruct (field_truthy obj' "asset") eqn:Hasset|]; simpl;
      intros [= <-].
    + exists [obj']. split; [done|]. apply Forall_singleton.
      unfold complete_finding. rewrite Hp, Hasset, Hr, Ht, Hsev.
      repeat (split; [done|]). by eexists.
    + exists []. by rewrite app_nil_r.
    + exists []. by rewrite app_nil_r.
  - unfold _emit, _ensure_soft_schema. by rewrite Hrid.
  - unfold _emit, _ensure_soft_schema. by rewrite Hrid.
Qed.

Section EngineOutput.
Variable now run_id : string.
Variable jmespath_search : value → value → result value.
Variable elem : Type.
Variable elem_xpath : elem → value → result (xpath_result elem).
Variable elem_text : elem → value.
Variable parsers_glob : list string.
Variable run_glob : string → list string.
Variable yaml_safe_load : string → result value.
Variable open_lines : string → result (list string).
Variable json_loads : string → result value.
Variable ET_parse : string → result elem.

Lemma ndjson_line_extends (rec_expr fields : value) (ctx : context)
    (out out' : list (gmap string value)) (line : string) :
  ndjson_line now jmespath_search json_loads rec_expr fields ctx out line
  = Ok out' →
  ∃ new, out' = out ++ new ∧ Forall complete_finding new.
Proof.
  unfold ndjson_line. destruct (is_empty (strip line)).
  { intros [= <-]. exists []. by rewrite app_nil_r. }
  destruct (json_loads (strip line)) as [raw| |];
    try (intros [= <-]; exists []; by rewrite app_nil_r).
  destruct (jmespath_search rec_expr raw) as [base| |]; try done.
  cbn [mbind result_bind]. apply foldM_extends.
  intros o itm o'.
  destruct (map_fields (λ expr, _eval_jmes jmespath_search expr itm ctx)
              fields) as [obj| |] eqn:Hm;
    destruct itm; try done;
    try (intros [= <-]; exists []; by rewrite app_nil_r);
    cbn [mbind result_bind]; apply emit_extends.
Qed.

Lemma run_parser_extends (ctx : context)
    (out out' : list (gmap string value)) (p : string) :
  run_parser now jmespath_search elem elem_xpath elem_text run_glob
    yaml_safe_load open_lines json_loads ET_parse ctx out p = Ok out' →
  ∃ new, out' = out ++ new ∧ Forall complete_finding new.
Proof.
  unfold run_parser.
  destruct (yaml_safe_load p) as [loaded| |]; try done.
  cbn [mbind result_bind].
  destruct (value_get _ "type" VNone) as [ptype| |]; try done.
  cbn [mbind result_bind].
  assert (Hskip : Ok out = Ok out' →
                  ∃ new, out' = out ++ new ∧ Forall complete_finding new).
  { intros [= <-]. exists []. by rewrite app_nil_r. }
  destruct ptype as [|b|n|nz c r|s|l|items]; try done.
  destruct (String.eqb_spec s "ndjson") as [->|Hn].
  { destruct (value_get _ "glob" _) as [glob_pat| |]; try done.
    cbn [mbind result_bind].
    destruct (value_get _ "record_jmes" _) as [rec_expr| |]; try done.
    cbn [mbind result_bind].
    destruct (value_get _ "fields" _) as [fields| |]; try done.
    cbn [mbind result_bind].
    destruct (matched_files run_glob glob_pat) as [paths| |]; try done.
    cbn [mbind result_bind]. apply foldM_extends. intros o path o'.
    destruct (open_lines path) as [lines| |];
      try (intros [= <-]; exists []; by rewrite app_nil_r).
    apply foldM_extends. intros o1 line o1'. apply ndjson_line_extends. }
  destruct (String.eqb_spec s "xml") as [->|Hx].
  { destruct (value_get _ "glob" _) as [glob_pat| |]; try done.
    cbn [mbind result_bind].
    destruct (value_get _ "record_xpath" _) as [rx| |]; try done.
    cbn [mbind result_bind].
    destruct (value_get _ "fields" _) as [fields| |]; try done.
    cbn [mbind result_bind].
    destruct (matched_files run_glob glob_pat) as [paths| |]; try done.
    cbn [mbind result_bind]. apply foldM_extends. intros o path o'.
    destruct (ET_parse path) as [root| |];
      try (intros [= <-]; exists []; by rewrite app_nil_r).
    destruct (xpath_records elem elem_xpath root rx) as [items| |]; try done.
    cbn [mbind result_bind]. apply foldM_extends. intros o1 item o1'.
    destruct (map_fields _ fields) as [obj| |]; try done.
    cbn [mbind result_bind]. apply emit_extends. }
  intros H. apply Hskip. etrans; [|exact H]. symmetry.
  repeat match goal with
         | |- context [match ?x with _ => _ end] => destruct x; try done
         end.
Qed.

(** X14: every finding that [parse_and_merge] writes is complete: its
    [tool], [asset] and [summary] are truthy, its [partial] is false, and
    it has a [run_id], a [ts] and a [severity]. *)
Theorem parse_and_merge_writes_complete_findings
    (records : list (gmap string value)) :
  parse_and_merge now run_id jmespath_search elem elem_xpath elem_text
    parsers_glob run_glob yaml_safe_load open_lines json_loads ET_parse
  = Ok records →
  Forall complete_finding records.
Proof.
  unfold parse_and_merge. intros H.
  destruct (foldM_extends complete_finding _ _
              (λ out p out', run_parser_extends _ out out' p) _ _ H)
    as (new & -> & Hnew).
  done.
Qed.

(** X15: a rule only appends: the findings collected before it are kept,
    in their order, and no finding is compared with an earlier one. *)
Theorem run_parser_appends_only (ctx : context)
    (out out' : list (gmap string value)) (p : string) :
  run_parser now jmespath_search elem elem_xpath elem_text run_glob
    yaml_safe_load open_lines json_loads ET_parse ctx out p = Ok out' →
  out `prefix_of` out'.
Proof.
  intros H. destruct (run_parser_extends ctx out out' p H) as (new & -> & _).
  by exists new.
Qed.

End EngineOutput.

Lemma parse_and_merge_writes_complete_findings_witness :
  ∃ records,
    Fixture.run_engine ["parsers.d/20-nmap.yaml"] = Ok records
    ∧ length records = 1%nat
    ∧ Forall complete_finding records.
Proof.
  assert (Hok : match Fixture.run_engine ["parsers.d/20-nmap.yaml"] with
                | Ok l => length l = 1%nat
                | _ => False
                end) by (by vm_compute).
  destruct (Fixture.run_engine ["parsers.d/20-nmap.yaml"])
    as [records| |] eqn:H; [|destruct Hok..].
  exists records. refine (conj eq_refl (conj Hok _)).
  exact (parse_and_merge_writes_complete_findings _ _ _ _ _ _ _ _ _ _ _ _
           records H).
Defined.

Lemma run_parser_appends_only_witness :
  ∃ out',
    run_parser "2026-01-01T00:00:00Z" Fixture.jmespath_fields unit
      (λ _ _, Raise XPathError) (λ _, VNone) (λ pat, [pat])
      Fixture.yaml_files (λ _, Ok [Fixture.nmap_line; "not json"])
      Fixture.json_lines (λ _, Raise XMLSyntaxError)
      Fixture.ctx_global [Fixture.host_only_record] "parsers.d/20-nmap.yaml"
    = Ok out'
    ∧ length out' = 2%nat
    ∧ [Fixture.host_only_record] `prefix_of` out'.
Proof.
  assert (Hok : match
                  run_parser "2026-01-01T00:00:00Z" Fixture.jmespath_fields
                    unit (λ _ _, Raise XPathError) (λ _, VNone) (λ pat, [pat])
                    Fixture.yaml_files
                    (λ _, Ok [Fixture.nmap_line; "not json"])
                    Fixture.json_lines (λ _, Raise XMLSyntaxError)
                    Fixture.ctx_global [Fixture.host_only_record]
                    "parsers.d/20-nmap.yaml"
                with
                | Ok l => length l = 2%nat
                | _ => False
                end) by (by vm_compute).
  destruct (run_parser "2026-01-01T00:00:00Z" Fixture.jmespath_fields
              unit (λ _ _, Raise XPathError) (λ _, VNone) (λ pat, [pat])
              Fixture.yaml_files (λ _, Ok [Fixture.nmap_line; "not json"])
              Fixture.json_lines (λ _, Raise XMLSyntaxError)
              Fixture.ctx_global [Fixture.host_only_record]
              "parsers.d/20-nmap.yaml")
    as [out'| |] eqn:H; [|destruct Hok..].
  exists out'. refine (conj eq_refl (conj Hok _)).
  exact (run_parser_appends_only _ _ _ _ _ _ _ _ _ _ _ _ _ _ H).
Defined.

(** ** Quoted literals and placeholders *)

Lemma strip_prefix_refl (p rest : string) :
  strip_prefix p (p +:+ rest) = Some rest.
Proof.
  induction p as [|a p IH]; simpl; [done|]. by rewrite Ascii.eqb_refl.
Qed.

Lemma string_length_app (a b : string) :
  String.length (a +:+ b) = (String.length a + String.length b)%nat.
Proof.
  induction a as [|c a IH]; [done|].
  rewrite app_String. cbn [String.length]. by rewrite IH.
Qed.

Lemma strip_prefix_length (p s rest : string) :
  strip_prefix p s = Some rest → is_empty p = false →
  (String.length rest < String.length s)%nat.
Proof.
  intros H Hp. apply strip_prefix_app in H. subst s.
  rewrite string_length_app. destruct p as [|a p]; [done|].
  cbn [String.length]. lia.
Qed.

(** The first occurrence of a separator, after a text that lacks the
    separator's first character. *)
Lemma find_sep_first (c : ascii) (sep pre post : string) :
  has_char c pre = false →
  find_sep (String c sep) (pre +:+ String c sep +:+ post) = Some (pre, post).
Proof.
  induction pre as [|x pre IH]; intros H.
  - change ("" +:+ String c sep +:+ post) with (String c sep +:+ post).
    rewrite app_String. cbn [find_sep strip_prefix].
    by rewrite Ascii.eqb_refl, strip_prefix_refl.
  - simpl in H. apply orb_false_elim in H as [Hx Hp].
    rewrite app_String. cbn [find_sep strip_prefix].
    destruct (Ascii.eqb_spec c x) as [->|Hne];
      [by rewrite Ascii.eqb_refl in Hx|].
    by rewrite IH.
Qed.

Lemma replace_fuel_none (fuel : nat) (old new s : string) :
  find_sep old s = None → replace_fuel fuel old new s = s.
Proof.
  revert s. induction fuel as [|fuel IH]; intros s; [done|].
  destruct s as [|c s]; simpl.
  - by destruct (strip_prefix old "").
  - destruct (strip_prefix old (String c s)); [done|].
    destruct (find_sep old s) as [[a b]|] eqn:Hf; [done|].
    intros _. by rewrite IH.
Qed.

(** Replacing in a text that does not hold [old] changes nothing. *)
Lemma replace_none (old new s : string) :
  find_sep old s = None → replace old new s = s.
Proof.
  intros H. unfold replace. destruct (is_empty old); [done|].
  by apply replace_fuel_none.
Qed.

Lemma replace_fuel_first (fuel : nat) (old new s a b : string) :
  is_empty old = false → find_sep old s = Some (a, b) →
  (String.length s < fuel)%nat →
  replace_fuel fuel old new s
  = a +:+ new +:+ replace_fuel (fuel - S (String.length a)) old new b.
Proof.
  intros Hold. revert s a b.
  induction fuel as [|fuel IH]; intros s a b Hf Hlen; [lia|].
  destruct s as [|c s].
  - simpl in Hf. simpl.
    destruct (strip_prefix old "") as [rest|] eqn:Hp; [|done].
    injection Hf as <- <-. simpl. by rewrite Nat.sub_0_r.
  - simpl in Hf. cbn [replace_fuel].
    destruct (strip_prefix old (String c s)) as [rest|] eqn:Hp.
    + injection Hf as <- <-. simpl. by rewrite Nat.sub_0_r.
    + destruct (find_sep old s) as [[a' b']|] eqn:Hf'; [|done].
      injection Hf as <- <-. simpl in Hlen.
      rewrite (IH s a' b') by (done || lia). done.
Qed.

Lemma replace_fuel_enough (fuel fuel' : nat) (old new s : string) :
  is_empty old = false →
  (String.length s < fuel)%nat → (String.length s < fuel')%nat →
  replace_fuel fuel old new s = replace_fuel fuel' old new s.
Proof.
  intros Hold. revert fuel' s.
  induction fuel as [|fuel IH]; intros fuel' s H1 H2; [lia|].
  destruct fuel' as [|fuel']; [lia|]. cbn [replace_fuel].
  destruct (strip_prefix old s) as [rest|] eqn:Hp.
  - pose proof (strip_prefix_length _ _ _ Hp Hold).
    f_equal. apply IH; lia.
  - destruct s as [|c s]; [done|]. simpl in H1, H2.
    f_equal. apply IH; lia.
Qed.

(** The text up to the first occurrence is kept, the occurrence is
    replaced, and the replacement is not searched again. *)
Lemma replace_first (old new s a b : string) :
  is_empty old = false → find_sep old s = Some (a, b) →
  replace old new s = a +:+ new +:+ replace old new b.
Proof.
  intros Hold Hf. unfold replace. rewrite Hold.
  rewrite (replace_fuel_first _ old new s a b) by (done || lia).
  do 2 f_equal. apply replace_fuel_enough; [done| |lia].
  pose proof (find_sep_app _ _ _ _ Hf) as Hs.
  apply (f_equal String.length) in Hs.
  rewrite !string_length_app in Hs. destruct old as [|c old]; [done|].
  cbn [String.length] in Hs. lia.
Qed.

Lemma placeholder_absent (k new s : string) :
  has_char "{" s = false → replace ("{{" +:+ k +:+ "}}") new s = s.
Proof. intros H. apply replace_none. by apply find_sep_none. Qed.

Lemma sub_literals_plain (s : string) (ctx : context) :
  has_char "{" s = false → _sub_literals s ctx = s.
Proof.
  intros H. unfold _sub_literals. induction ctx as [|kv ctx IH]; [done|].
  simpl. rewrite placeholder_absent by done. apply IH.
Qed.

Lemma get_last (t : string) (c : ascii) :
  String.get (String.length t) (t +:+ String c "") = Some c.
Proof. induction t as [|x t IH]; [done|]. simpl. apply IH. Qed.

Lemma substring_prefix (t r : string) :
  String.substring 0 (String.length t) (t +:+ r) = t.
Proof.
  induction t as [|x t IH]; simpl; [by destruct r|]. by rewrite IH.
Qed.

Lemma quoted_literal_quoted (t : string) :
  quoted_literal (VStr (String SQUOTE (t +:+ String SQUOTE ""))) = Some t.
Proof.
  unfold quoted_literal, strip_ends. cbn [String.length].
  rewrite string_length_app. cbn [String.length].
  replace (S (String.length t + 1) - 1)%nat with (S (String.length t)) by lia.
  replace (S (String.length t + 1) - 2)%nat with (String.length t) by lia.
  replace (2 <=? S (String.length t + 1))%nat with true
    by (symmetry; apply Nat.leb_le; lia).
  cbn [String.get String.substring]. rewrite get_last, substring_prefix.
  by rewrite !bool_decide_eq_true_2.
Qed.

(** X16: a rule expression between single quotes is a literal: its value
    is the text between the quotes with the placeholders of the run context
    filled in, whatever the record or the XML element, and the expression
    evaluators of jmespath and lxml are not consulted; a literal without an
    opening brace stands for itself. *)
Theorem quoted_expression_is_literal
    (jmespath_search : value → value → result value)
    (elem : Type) (elem_xpath : elem → value → result (xpath_result elem))
    (elem_text : elem → value)
    (t : string) (rec : value) (item : xpath_item elem) (ctx : context) :
  _eval_jmes jmespath_search (VStr (String SQUOTE (t +:+ String SQUOTE "")))
    rec ctx = VStr (_sub_literals t ctx)
  ∧ _eval_xpath elem elem_xpath elem_text
      (VStr (String SQUOTE (t +:+ String SQUOTE ""))) item ctx
    = VStr (_sub_literals t ctx)
  ∧ (has_char "{" t = false → _sub_literals t ctx = t).
Proof.
  unfold _eval_jmes, _eval_xpath. rewrite quoted_literal_quoted.
  split; [done|]. split; [done|]. apply sub_literals_plain.
Qed.

(** X17: in the run context of the engine the placeholder of the run
    identifier is replaced by the identifier, and the text around it is
    kept. *)
Theorem run_id_placeholder_filled (pre post run_id : string) :
  has_char "{" pre = false → has_char "{" post = false →
  _sub_literals (pre +:+ "{{run_id}}" +:+ post) [("run_id", VStr run_id)]
  = pre +:+ run_id +:+ post.
Proof.
  intros Hpre Hpost. unfold _sub_literals. cbn [fold_left fst snd py_str].
  change ("{{" +:+ "run_id" +:+ "}}") with "{{run_id}}".
  rewrite (replace_first "{{run_id}}" run_id _ pre post);
    [|done|by apply (find_sep_first "{" "{run_id}}")].
  by rewrite (replace_none "{{run_id}}" run_id post)
    by (by apply find_sep_none).
Qed.

Lemma run_id_placeholder_filled_witness :
  has_char "{" "scan of " = false ∧ has_char "{" " done" = false
  ∧ _sub_literals "scan of {{run_id}} done" [("run_id", VStr "run-1")]
    = "scan of run-1 done".
Proof.
  assert (H1 : has_char "{" "scan of " = false) by reflexivity.
  assert (H2 : has_char "{" " done" = false) by reflexivity.
  exact (conj H1 (conj H2
           (run_id_placeholder_filled "scan of " " done" "run-1" H1 H2))).
Defined.

(** ** Sorted sets of lines *)

Import IO Discovery Aggregate Samples.

Lemma elem_of_sorted_set (l : list string) (x : string) :
  x ∈ sorted_set l ↔ x ∈ l.
Proof.
  unfold sorted_set. rewrite merge_sort_Permutation.
  rewrite elem_of_elements. apply elem_of_list_to_set.
Qed.

Lemma NoDup_sorted_set (l : list string) : NoDup (sorted_set l).
Proof.
  unfold sorted_set. rewrite merge_sort_Permutation. apply NoDup_elements.
Qed.

Lemma Sorted_sorted_set (l : list string) :
  StronglySorted String.le (sorted_set l).
Proof. apply StronglySorted_merge_sort; apply _. Qed.

Lemma length_sorted_set (l : list string) :
  (length (sorted_set l) ≤ length l)%nat.
Proof.
  apply submseteq_length, NoDup_submseteq; [apply NoDup_sorted_set|].
  intros x. by rewrite elem_of_sorted_set.
Qed.

Lemma sorted_set_nil (l : list string) : sorted_set l = [] ↔ l = [].
Proof.
  split.
  - intros H. destruct l as [|x l]; [done|].
    assert (Hx : x ∈ sorted_set (x :: l)) by (apply elem_of_sorted_set; left).
    rewrite H in Hx. by apply elem_of_nil in Hx.
  - intros ->. destruct (sorted_set []) as [|x l] eqn:H; [done|].
    assert (Hx : x ∈ sorted_set []) by (rewrite H; left).
    apply elem_of_sorted_set in Hx. by apply elem_of_nil in Hx.
Qed.

(** ** The link networks of the host *)

Lemma routes_line_spec (nets : list string) (line : string) :
  (∃ net, ip_network (strip line) false = Ok net ∧ strip line ≠ ""
          ∧ routes_line nets line = Ok (nets ++ [strip line]))
  ∨ ((strip line = "" ∨ ∀ net, ip_network (strip line) false ≠ Ok net)
     ∧ routes_line nets line = Ok nets).
Proof.
  unfold routes_line. destruct (is_empty (strip line)) eqn:He.
  { right. apply is_empty_true in He. by split; [left|]. }
  pose proof (rov_ip_network (strip line) false) as Hrov.
  destruct (ip_network (strip line) false) as [net|e|] eqn:Hn.
  - left. exists net. split; [done|]. split; [|done].
    intros H0. by rewrite H0 in He.
  - right. split; [by right|]. simpl in Hrov. simpl. by rewrite Hrov.
  - done.
Qed.

Lemma routes_loop_spec (lines : list string) (nets : list string) :
  ∃ new,
    foldM routes_line nets lines = Ok (nets ++ new)
    ∧ ∀ s, s ∈ new ↔ ∃ line, line ∈ lines ∧ s = strip line ∧ kept_route s.
Proof.
  revert nets. induction lines as [|line lines IH]; intros nets.
  - exists []. rewrite app_nil_r. split; [done|]. intros s. split.
    + by intros ?%elem_of_nil.
    + by intros (line & ?%elem_of_nil & _).
  - cbn [foldM].
    destruct (routes_line_spec nets line)
      as [(net & Hn & Hne & ->)|(Hbad & ->)]; cbn [mbind result_bind].
    + destruct (IH (nets ++ [strip line])) as (new & -> & Hnew).
      exists (strip line :: new). rewrite <- app_assoc. split; [done|].
      intros s. rewrite elem_of_cons, Hnew. split.
      * intros [->|(l & Hl & Hs)].
        -- exists line. split; [left|]. split; [done|].
           split; [done|]. split; [apply strip_idem|by exists net].
        -- exists l. split; [by right|done].
      * intros (l & Hl & Hs & Hk). apply elem_of_cons in Hl as [->|Hl].
        -- by left.
        -- right. by exists l.
    + destruct (IH nets) as (new & -> & Hnew).
      exists new. split; [done|]. intros s. rewrite Hnew. split.
      * intros (l & Hl & Hs). exists l. split; [by right|done].
      * intros (l & Hl & Hs & Hk). apply elem_of_cons in Hl as [->|Hl].
        -- exfalso. destruct Hk as (Hne & _ & net & Hnet). subst s.
           destruct Hbad as [H0|Hno]; [done|by apply (Hno net)].
        -- by exists l.
Qed.

(** X18: when the route listing runs, [routes_cidr] returns: its result
    is sorted, without duplicates, and holds exactly the stripped non-empty
    lines of the listing that name a network; a line that does not is
    skipped. *)
Theorem routes_cidr_sorted_networks
    (world : Type) (subprocess_text : string → io world string)
    (w w' : world) (stdout : string) :
  subprocess_text routes_cmd w = (Ok stdout, w') →
  ∃ nets,
    routes_cidr world subprocess_text w = (Ok nets, w')
    ∧ StronglySorted String.le nets
    ∧ NoDup nets
    ∧ ∀ s, s ∈ nets
           ↔ ∃ line, line ∈ splitlines stdout ∧ s = strip line
                     ∧ kept_route s.
Proof.
  intros Hrun. unfold routes_cidr. cbv [mbind io_bind]. rewrite Hrun.
  destruct (routes_loop_spec (splitlines stdout) []) as (new & Hloop & Hnew).
  unfold lift. rewrite Hloop. cbn [mbind result_bind app].
  eexists. split; [reflexivity|].
  split; [apply Sorted_sorted_set|]. split; [apply NoDup_sorted_set|].
  intros s. by rewrite elem_of_sorted_set.
Qed.

Lemma routes_cidr_sorted_networks_witness :
  route_listing routes_cmd () = (Ok route_text, ())
  ∧ ∃ nets,
      routes_cidr unit route_listing () = (Ok nets, ())
      ∧ StronglySorted String.le nets.
Proof.
  assert (H : route_listing routes_cmd () = (Ok route_text, ()))
    by reflexivity.
  refine (conj H _).
  destruct (routes_cidr_sorted_networks unit route_listing () ()
              route_text H) as (nets & Hr & Hs & _).
  exact (ex_intro _ nets (conj Hr Hs)).
Defined.

(** ** No network starts with the comment sign *)

Lemma split_head_char (sep c : ascii) (r : string) :
  Ascii.eqb c sep = false →
  ∃ h t, split sep (String c r) = String c h :: t.
Proof.
  intros H. cbn [split]. rewrite H.
  destruct (split sep r) as [|h t]; eauto.
Qed.

Lemma find_sep_head_char (sep : string) (s0 c : ascii) (r a b : string) :
  Ascii.eqb s0 c = false →
  find_sep (String s0 sep) (String c r) = Some (a, b) →
  ∃ a', a = String c a'.
Proof.
  intros H. cbn [find_sep strip_prefix]. rewrite H.
  destruct (find_sep (String s0 sep) r) as [[a' b']|]; [|done].
  intros [= <- <-]. eauto.
Qed.

Lemma parse_octet_hash (h : string) :
  parse_octet (String "#" h) = Raise ValueError.
Proof. reflexivity. Qed.

Lemma parse_hextet_hash (h : string) :
  parse_hextet (String "#" h) = Raise ValueError.
Proof. reflexivity. Qed.

Lemma IPv4Address_hash (h : string) (a : ip) :
  IPv4Address_of_string (String "#" h) ≠ Ok a.
Proof.
  unfold IPv4Address_of_string. destruct (contains "/" _); [done|].
  unfold v4_int_from_string. cbn [is_empty].
  destruct (split_head_char "." "#" h eq_refl) as (o & t & ->).
  destruct (negb _); [done|].
  cbn [mapM]. rewrite parse_octet_hash. done.
Qed.

Lemma shift_in_hextets_hash (acc : Z) (k : nat) (h : string)
    (rest : list string) :
  shift_in_hextets acc (take (S k) (String "#" h :: rest))
  = Raise ValueError.
Proof.
  unfold shift_in_hextets. cbn [take foldM]. by rewrite parse_hextet_hash.
Qed.

Lemma v6_int_hash (h : string) (n : Z) :
  v6_int_from_string (String "#" h) ≠ Ok n.
Proof.
  unfold v6_int_from_string. cbn [is_empty].
  destruct (split_head_char ":" "#" h eq_refl) as (p0 & t & ->).
  destruct (length (String "#" p0 :: t) <? 3)%nat eqn:Hlen; [done|].
  apply Nat.ltb_ge in Hlen.
  match goal with
  | |- (?c ≫= ?k) ≠ _ =>
      assert (Hparts : ∀ parts, c = Ok parts →
                                ∃ rest, parts = String "#" p0 :: rest);
      [|destruct c as [parts| |]; [|done..]]
  end.
  { destruct (contains "." _); [|intros parts [= <-]; eauto].
    destruct (reraise_as _ _ _) as [a| |]; [|done..].
    cbn [mbind result_bind]. intros parts [= <-].
    destruct t as [|t1 t]; [simpl in Hlen; lia|].
    change (removelast (String "#" p0 :: t1 :: t))
      with (String "#" p0 :: removelast (t1 :: t)).
    eauto. }
  destruct (Hparts parts eq_refl) as (rest & ->). clear Hparts.
  cbn [mbind result_bind].
  destruct (9 <? _)%nat; [done|].
  change (is_empty (nth 0 (String "#" p0 :: rest) "")) with false.
  cbv iota.
  destruct (List.filter _ _) as [|skip [|? ?]] eqn:Hf; [| |done].
  - destruct (negb _); [done|].
    destruct (is_empty (List.last _ _)); [done|].
    cbn [mbind result_bind length].
    rewrite shift_in_hextets_hash. done.
  - assert (Hskip : In skip [skip]) by (by left).
    rewrite <- Hf in Hskip. apply filter_In in Hskip as [Hin _].
    apply in_seq in Hin. destruct skip as [|k]; [lia|].
    cbn [mbind result_bind].
    destruct (is_empty (List.last _ _)).
    + destruct (_ =? 0)%nat; [|done]. cbn [mbind result_bind].
      destruct (_ <? 1); [done|]. cbn [mbind result_bind].
      rewrite shift_in_hextets_hash. done.
    + cbn [mbind result_bind].
      destruct (_ <? 1); [done|]. cbn [mbind result_bind].
      rewrite shift_in_hextets_hash. done.
Qed.

Lemma IPv6Address_hash (h : string) (a : ip) :
  IPv6Address_of_string (String "#" h) ≠ Ok a.
Proof.
  unfold IPv6Address_of_string. destruct (contains "/" _); [done|].
  unfold split_scope_id.
  destruct (find_sep "%" (String "#" h)) as [[addr scope]|] eqn:Hf.
  - destruct (find_sep_head_char "" "%" "#" h addr scope eq_refl Hf)
      as (a' & ->).
    destruct (_ || _); [done|]. cbn [mbind result_bind].
    pose proof (v6_int_hash a') as Hno.
    destruct (v6_int_from_string (String "#" a')) as [n| |]; [|done..].
    by destruct (Hno n).
  - cbn [mbind result_bind].
    pose proof (v6_int_hash h) as Hno.
    destruct (v6_int_from_string (String "#" h)) as [n| |]; [|done..].
    by destruct (Hno n).
Qed.

Lemma Network_hash (v6 : bool) (h : string) (strict : bool) (net : network) :
  Network_of_string v6 (String "#" h) strict ≠ Ok net.
Proof.
  unfold Network_of_string, split_addr_prefix.
  destruct (split_head_char "/" "#" h eq_refl) as (addr & t & ->).
  assert (Haddr : ∀ a, (if v6 then IPv6Address_of_string (String "#" addr)
                        else IPv4Address_of_string (String "#" addr))
                       ≠ Ok a).
  { intros a. destruct v6; [apply IPv6Address_hash|apply IPv4Address_hash]. }
  destruct t as [|mask [|? ?]]; [| |done]; cbn [mbind result_bind];
    (destruct (if v6 then _ else _) as [a| |]; [by destruct (Haddr a)|done..]).
Qed.

(** A text that names a network does not start with the comment sign. *)
Lemma ip_network_not_comment (s : string) (strict : bool) (net : network) :
  ip_network s strict = Ok net → startswith "#" s = false.
Proof.
  intros H. destruct (startswith "#" s) eqn:Hs; [exfalso|done].
  unfold startswith in Hs.
  destruct (strip_prefix "#" s) as [h|] eqn:Hp; [|done].
  apply strip_prefix_app in Hp. subst s.
  change ("#" +:+ h) with (String "#" h) in H.
  unfold ip_network in H.
  pose proof (Network_hash false h strict) as H4.
  pose proof (Network_hash true h strict) as H6.
  destruct (Network_of_string false (String "#" h) strict) as [n4|e4|];
    [by destruct (H4 n4)| |done].
  cbn [try_except] in H. destruct (is_Address_or_Netmask_error e4); [|done].
  destruct (Network_of_string true (String "#" h) strict) as [n6|e6|];
    [by destruct (H6 n6)| |done].
  cbn [try_except] in H. by destruct (is_Address_or_Netmask_error e6).
Qed.

(** The expander skips no kept line of the routing table. *)
Lemma kept_route_normalize (s : string) :
  kept_route s → normalize s ≠ None.
Proof.
  intros (Hne & Hs & net & Hnet). unfold normalize. rewrite Hs.
  rewrite (ip_network_not_comment s false net Hnet).
  by destruct s.
Qed.

(** ** Gathering the targets *)

Lemma io_bind_ok {W A B} (c : io W A) (k : A → io W B) (w w' : W) (b : B) :
  (c ≫= k) w = (Ok b, w') →
  ∃ a w1, c w = (Ok a, w1) ∧ k a w1 = (Ok b, w').
Proof.
  unfold mbind, io_bind. destruct (c w) as [[a|e|] w1]; try done. eauto.
Qed.

Lemma py_or_truthy (a b : value) :
  truthy b = true → truthy (py_or a b) = true.
Proof. intros Hb. unfold py_or. by destruct (truthy a) eqn:Ha. Qed.

Lemma get_or_truthy (cfg v : value) (k1 k2 : string) (dflt : value) :
  get_or cfg k1 k2 dflt = Ok v → truthy dflt = true → truthy v = true.
Proof.
  intros H Hd. revert H. unfold get_or. destruct (get_either cfg k1 k2); try done.
  simpl. intros [= <-]. by apply py_or_truthy.
Qed.

Lemma value_get_not_dict (cfg : value) (k : string) (dflt : value) :
  (∀ items, cfg ≠ VDict items) → value_get cfg k dflt = Raise AttributeError.
Proof. intros H. destruct cfg; try done. by destruct (H items). Qed.

Section GatherFacts.
Variable world : Type.
Variable Path : Type.
Variable Path_of : string → Path.
Variable str_path : Path → string.
Variable joinpath : Path → string → Path.
Variable parents1 : Path → result Path.
Variable path_exists : Path → world → bool.
Variable read_text : Path → world → result string.
Variable parent : Path → Path.
Variable mkdir : Path → io world unit.
Variable write_file : Path → string → io world unit.
Variable yaml_safe_load : string → result value.
Variable run_shell : string → io world unit.
Variable subprocess_text : string → io world string.
Variable subprocess_run : string → world → result CompletedProcess * world.
Variable create_connection :
  string → Z → Z → world → result unit * world.


Lemma load_ftp_targets_not_skipped (project_root agg_dir : Path)
    (env : gmap string string) (w w' : world) (lines : list string) :
  load_ftp_targets world Path str_path joinpath path_exists read_text
    yaml_safe_load run_shell project_root agg_dir env w = (Ok lines, w') →
  Forall (λ line, normalize line ≠ None) lines.
Proof.
  unfold load_ftp_targets. intros H.
  apply io_bind_ok in H as (cfg & w1 & _ & H).
  destruct (match cfg with Some c => Some c | None => ftp_cfg_of_env env end).
  - apply io_bind_ok in H as ([] & w2 & _ & H). unfold reads in H.
    injection H as <- <-. apply read_lines_not_skipped.
  - injection H as <- <-. constructor.
Qed.

Lemma routes_cidr_not_skipped (w w' : world) (nets : list string) :
  routes_cidr world subprocess_text w = (Ok nets, w') →
  Forall (λ line, normalize line ≠ None) nets.
Proof.
  unfold routes_cidr. intros H.
  apply io_bind_ok in H as (stdout & w1 & _ & H). unfold lift in H.
  destruct (routes_loop_spec (splitlines stdout) []) as (new & Hloop & Hnew).
  rewrite Hloop in H. cbn [mbind result_bind app] in H.
  injection H as <- <-. apply Forall_forall. intros s.
  rewrite elem_of_sorted_set, Hnew. intros (line & _ & _ & Hk).
  by apply kept_route_normalize.
Qed.

Lemma gather_not_skipped (project_root agg_dir : Path)
    (env : gmap string string) (w w' : world)
    (ftp_lines tg_lines local_lines auto_nets : list string) :
  gather world Path str_path joinpath path_exists read_text yaml_safe_load
    run_shell subprocess_text project_root agg_dir env w
  = (Ok (ftp_lines, tg_lines, local_lines, auto_nets), w') →
  Forall (λ line, normalize line ≠ None)
    (ftp_lines ++ tg_lines ++ local_lines ++ auto_nets).
Proof.
  unfold gather. intros H.
  apply io_bind_ok in H as (ftp & w1 & Hftp & H).
  apply io_bind_ok in H as (tg & w2 & Htg & H).
  apply io_bind_ok in H as (loc & w3 & Hloc & H).
  apply io_bind_ok in H as (auto & w4 & Hauto & H).
  injection H as <- <- <- <- <-.
  unfold reads in Htg, Hloc. injection Htg as <- <-. injection Hloc as <- <-.
  rewrite !Forall_app. split; [by eapply load_ftp_targets_not_skipped|].
  split; [apply read_lines_not_skipped|].
  split; [apply read_lines_not_skipped|].
  destruct (String.eqb _ "1").
  - by eapply routes_cidr_not_skipped.
  - injection Hauto as <- <-. constructor.
Qed.

(** X20: the summary that [aggregate] returns is consistent: the number
    of raw targets is at most the sum of the four sources, it is zero
    exactly when nothing was expanded, and then nothing is alive; the
    expanded targets and the alive hosts hold no duplicate, and no expanded
    target holds a slash or a colon. *)
Theorem aggregate_summary_consistent (run_dir : string)
    (env : gmap string string) (w w' : world) (s : summary) :
  aggregate world Path Path_of str_path joinpath parents1 path_exists
    read_text parent mkdir write_file yaml_safe_load run_shell
    subprocess_text subprocess_run create_connection run_dir env w
  = (Ok s, w') →
  (n_raw_all s ≤ n_ftp s + n_tg s + n_local s + n_autodiscovery s)%nat
  ∧ (n_raw_all s = 0%nat ↔ expanded s = [])
  ∧ (expanded s = [] → alive s = [])
  ∧ NoDup (expanded s) ∧ NoDup (alive s)
  ∧ Forall (λ t, has_char "/" t = false ∧ has_char ":" t = false)
      (expanded s).
Proof.
  unfold aggregate. intros H.
  apply io_bind_ok in H as (project_root & w1 & _ & H).
  apply io_bind_ok in H as ([] & w2 & _ & H).
  apply io_bind_ok in H as ([[[ftp tg] loc] auto] & w3 & Hg & H).
  apply gather_not_skipped in Hg.
  apply io_bind_ok in H as ([] & w4 & _ & H).
  apply io_bind_ok in H as ([] & w5 & _ & H).
  apply io_bind_ok in H as ([] & w6 & _ & H).
  apply io_bind_ok in H as ([] & w7 & _ & H).
  pose proof (length_sorted_set (ftp ++ tg ++ loc ++ auto)) as Hlen.
  rewrite !length_app in Hlen.
  assert (Hraw : Forall (λ line, normalize line ≠ None)
                   (sorted_set (ftp ++ tg ++ loc ++ auto))).
  { apply Forall_forall. intros x Hx.
    apply (proj1 (elem_of_sorted_set _ _)) in Hx.
    exact (proj1 (Forall_forall _ _) Hg x Hx). }
  destruct (sorted_set (ftp ++ tg ++ loc ++ auto)) as [|x raw] eqn:Hs.
  - apply io_bind_ok in H as ([] & w8 & _ & H).
    apply io_bind_ok in H as ([] & w9 & _ & H).
    injection H as <- <-. cbn.
    split; [lia|]. split; [done|]. split; [done|].
    split; [constructor|]. split; constructor.
  - apply io_bind_ok in H as (ex & w8 & Hex & H).
    apply io_bind_ok in H as ([] & w9 & _ & H).
    apply io_bind_ok in H as (al & w10 & Hal & H).
    apply io_bind_ok in H as ([] & w11 & _ & H).
    injection H as <- <-. cbn [n_raw_all n_ftp n_tg n_local n_autodiscovery
                               expanded alive].
    unfold lift in Hex. injection Hex as Hex _.
    assert (Hne : ex ≠ []).
    { intros ->. by destruct (expand_targets_not_nil (x :: raw)). }
    split; [cbn [length] in Hlen |- *; lia|].
    split; [by split|]. split; [done|].
    destruct (expand_targets_ok (x :: raw)) as (emitted & _ & Hout).
    rewrite Hex in Hout. injection Hout as ->.
    split; [rewrite dedupe_first_occurrences; apply NoDup_first_occurrences|].
    split.
    + pose proof (NoDup_fping_alive world subprocess_run create_connection
                    (_dedupe_preserve_order emitted) w9) as Hnd.
      destruct (fping_alive _ _ _ _ _) as [al' w'']. injection Hal as <- _.
      done.
    + destruct (expand_targets_clean (x :: raw)) as (out & Ho & Hclean).
      rewrite Hex in Ho. by injection Ho as <-.
Qed.

End GatherFacts.

(** ** Severity names *)

Import Report.

Lemma lower_char_idem (c : ascii) : lower_char (lower_char c) = lower_char c.
Proof. by destruct c as [[] [] [] [] [] [] [] []]. Qed.

Lemma is_space_lower_char (c : ascii) : is_space (lower_char c) = is_space c.
Proof. by destruct c as [[] [] [] [] [] [] [] []]. Qed.

Lemma lower_idem (s : string) : lower (lower s) = lower s.
Proof.
  induction s as [|c s IH]; [done|]. simpl. by rewrite lower_char_idem, IH.
Qed.

Lemma is_empty_lower (s : string) : is_empty (lower s) = is_empty s.
Proof. by destruct s. Qed.

Lemma lstrip_lower (s : string) : lstrip (lower s) = lower (lstrip s).
Proof.
  induction s as [|c s IH]; [done|]. simpl. rewrite is_space_lower_char.
  by destruct (is_space c).
Qed.

Lemma rstrip_lower (s : string) : rstrip (lower s) = lower (rstrip s).
Proof.
  induction s as [|c s IH]; [done|]. simpl.
  rewrite is_space_lower_char, IH, is_empty_lower.
  by destruct (is_space c && is_empty (rstrip s)).
Qed.

Lemma strip_lower (s : string) : strip (lower s) = lower (strip s).
Proof. unfold strip. by rewrite lstrip_lower, rstrip_lower. Qed.

(** X21: a normalised severity is in lower case, has no blank at either
    end and is never [informational]; normalising it again gives the same
    name, unless it is empty (the severity was blank), which a second pass
    turns into [unknown]. *)
Theorem norm_severity_normal_form (v : value) :
  lower (_norm_severity v) = _norm_severity v
  ∧ strip (_norm_severity v) = _norm_severity v
  ∧ _norm_severity v ≠ "informational"
  ∧ _norm_severity (VStr (_norm_severity v))
    = (if is_empty (_norm_severity v) then "unknown" else _norm_severity v).
Proof.
  assert (Hform : ∃ t, _norm_severity v = "unknown"
                       ∨ _norm_severity v = "info"
                       ∨ (_norm_severity v = lower (strip t)
                          ∧ lower (strip t) ≠ "informational"
                          ∧ lower (strip t) ≠ "info")).
  { unfold _norm_severity. exists (py_str v).
    destruct (negb (truthy v)); [by left|]. right.
    destruct (String.eqb_spec (lower (strip (py_str v))) "informational")
      as [->|Hn1]; [by left|].
    destruct (String.eqb_spec (lower (strip (py_str v))) "info")
      as [->|Hn2]; [by left|].
    by right. }
  destruct Hform as (t & [->| [->|(-> & Hn1 & Hn2)]]); [done|done|].
  assert (Hl : lower (lower (strip t)) = lower (strip t)) by apply lower_idem.
  assert (Hs : strip (lower (strip t)) = lower (strip t))
    by (by rewrite strip_lower, strip_idem).
  split; [done|]. split; [done|]. split; [done|].
  unfold _norm_severity. cbn [truthy py_str].
  destruct (is_empty (lower (strip t))); [done|]. cbn [negb].
  rewrite Hs, Hl.
  destruct (String.eqb_spec (lower (strip t)) "informational"); [done|].
  by destruct (String.eqb_spec (lower (strip t)) "info").
Qed.

(** ** Lines written and read again *)

Import Utils.

Lemma splitlines_from_plain (s t cur : string) :
  all_chars (λ c, negb (is_linebreak c)) s = true →
  splitlines_from (s +:+ t) cur false = splitlines_from t (cur +:+ s) false.
Proof.
  revert cur. induction s as [|c s IH]; intros cur H.
  - by rewrite app_empty_r.
  - simpl in H. apply andb_prop in H as [Hc Hs]. apply negb_true_iff in Hc.
    rewrite app_String. cbn [splitlines_from andb]. rewrite Hc.
    rewrite IH by done. f_equal.
    clear. induction cur as [|x cur IH]; [done|].
    rewrite !app_String. by rewrite IH.
Qed.

Lemma splitlines_join (lines : list string) :
  Forall (λ l, l ≠ "" ∧ all_chars (λ c, negb (is_linebreak c)) l = true)
    lines →
  splitlines (join LF lines) = lines.
Proof.
  unfold splitlines. induction 1 as [|x l [Hne Hx] Hall IH]; [done|].
  destruct l as [|y l].
  - cbn [join]. rewrite <- (app_empty_r x) at 1.
    rewrite splitlines_from_plain by done. cbn. by destruct x.
  - change (join LF (x :: y :: l)) with (x +:+ LF +:+ join LF (y :: l)).
    rewrite splitlines_from_plain by done.
    unfold LF at 1. rewrite app_String.
    change ("" +:+ join LF (y :: l)) with (join LF (y :: l)).
    cbn [splitlines_from andb]. 
    change (is_linebreak (ascii_of_nat 10)) with true. cbv iota.
    change (code (ascii_of_nat 10) =? 13) with false.
    by rewrite IH.
Qed.

(** X22: lines written one per line are read back as they were: for
    stripped, non-empty lines that are no comments and hold no line break,
    reading the text that joins them gives the same list. *)
Theorem written_lines_read_back
    (world Path : Type) (path_exists : Path → world → bool)
    (read_text : Path → world → result string)
    (p : Path) (w : world) (lines : list string) :
  Forall (λ l, l ≠ "" ∧ strip l = l ∧ startswith "#" l = false
               ∧ all_chars (λ c, negb (is_linebreak c)) l = true) lines →
  path_exists p w = true →
  read_text p w = Ok (join LF lines) →
  read_lines world Path path_exists read_text p w = lines.
Proof.
  intros Hall Hex Hread. unfold read_lines. rewrite Hex, Hread. cbn [negb].
  unfold kept_lines. rewrite splitlines_join.
  2: { eapply Forall_impl; [exact Hall|]. by intros l (? & _ & _ & ?). }
  clear Hex Hread.
  induction Hall as [|x l (Hne & Hs & Hc & _) Hall IH]; [done|].
  cbn [map List.filter]. rewrite Hs, Hc.
  destruct x; [done|]. cbn [is_empty negb andb]. by rewrite IH.
Qed.

Lemma written_lines_read_back_witness :
  Forall (λ l, l ≠ "" ∧ strip l = l ∧ startswith "#" l = false
               ∧ all_chars (λ c, negb (is_linebreak c)) l = true)
    ["10.0.0.1"; "example.org"]
  ∧ read_lines unit string (λ _ _, true)
      (λ _ _, Ok (join LF ["10.0.0.1"; "example.org"])) "alive.txt" ()
    = ["10.0.0.1"; "example.org"].
Proof.
  assert (H : Forall (λ l, l ≠ "" ∧ strip l = l ∧ startswith "#" l = false
                           ∧ all_chars (λ c, negb (is_linebreak c)) l = true)
                ["10.0.0.1"; "example.org"]).
  { repeat constructor; discriminate. }
  exact (conj H
           (written_lines_read_back unit string (λ _ _, true)
              (λ _ _, Ok (join LF ["10.0.0.1"; "example.org"])) "alive.txt"
              () ["10.0.0.1"; "example.org"] H eq_refl eq_refl)).
Defined.

(** ** A run without targets *)

Lemma io_bind_eq {W A B} (c : io W A) (k : A → io W B) (w w1 : W) (a : A) :
  c w = (Ok a, w1) → (c ≫= k) w = k a w1.
Proof. intros H. unfold mbind, io_bind. by rewrite H. Qed.

(** X23: when the sources yield no target, [aggregate] does not call the
    liveness prober: whatever the sweep utility and the network would do,
    the same summary is returned and the same world is left behind. *)
Theorem aggregate_without_targets_never_probes
    (world Path : Type) (Path_of : string → Path) (str_path : Path → string)
    (joinpath : Path → string → Path) (parents1 : Path → result Path)
    (path_exists : Path → world → bool)
    (read_text : Path → world → result string) (parent : Path → Path)
    (mkdir : Path → io world unit) (write_file : Path → string → io world unit)
    (yaml_safe_load : string → result value)
    (run_shell : string → io world unit)
    (subprocess_text : string → io world string)
    (run1 run2 : string → world → result CompletedProcess * world)
    (connect1 connect2 : string → Z → Z → world → result unit * world)
    (run_dir : string) (env : gmap string string) (w w' : world)
    (s : summary) :
  aggregate world Path Path_of str_path joinpath parents1 path_exists
    read_text parent mkdir write_file yaml_safe_load run_shell
    subprocess_text run1 connect1 run_dir env w = (Ok s, w') →
  n_raw_all s = 0%nat →
  aggregate world Path Path_of str_path joinpath parents1 path_exists
    read_text parent mkdir write_file yaml_safe_load run_shell
    subprocess_text run2 connect2 run_dir env w = (Ok s, w')
  ∧ expanded s = [] ∧ alive s = [].
Proof.
  unfold aggregate. intros H Hzero.
  apply io_bind_ok in H as (project_root & w1 & Hc & H).
  rewrite (io_bind_eq _ _ _ _ _ Hc). clear Hc.
  apply io_bind_ok in H as ([] & w2 & Hc & H).
  rewrite (io_bind_eq _ _ _ _ _ Hc). clear Hc.
  apply io_bind_ok in H as ([[[ftp tg] loc] auto] & w3 & Hc & H).
  rewrite (io_bind_eq _ _ _ _ _ Hc). clear Hc.
  apply io_bind_ok in H as ([] & w4 & Hc & H).
  rewrite (io_bind_eq _ _ _ _ _ Hc). clear Hc.
  apply io_bind_ok in H as ([] & w5 & Hc & H).
  rewrite (io_bind_eq _ _ _ _ _ Hc). clear Hc.
  apply io_bind_ok in H as ([] & w6 & Hc & H).
  rewrite (io_bind_eq _ _ _ _ _ Hc). clear Hc.
  apply io_bind_ok in H as ([] & w7 & Hc & H).
  rewrite (io_bind_eq _ _ _ _ _ Hc). clear Hc.
  destruct (sorted_set (ftp ++ tg ++ loc ++ auto)) as [|x raw].
  - split; [exact H|].
    apply io_bind_ok in H as ([] & w8 & _ & H).
    apply io_bind_ok in H as ([] & w9 & _ & H).
    by injection H as <- <-.
  - exfalso.
    apply io_bind_ok in H as (ex & w8 & _ & H).
    apply io_bind_ok in H as ([] & w9 & _ & H).
    apply io_bind_ok in H as (al & w10 & _ & H).
    apply io_bind_ok in H as ([] & w11 & _ & H).
    injection H as <- <-. done.
Qed.

Import Samples.

Lemma aggregate_without_targets_never_probes_witness :
  ∃ s,
    aggregate_on false Fixture.sweep_not_started Fixture.connect_always
      {[ "AUTO_DISCOVERY" := "0" ]} = (Ok s, ())
    ∧ n_raw_all s = 0%nat
    ∧ aggregate_on false sweep_finds_two Fixture.connect_one
        {[ "AUTO_DISCOVERY" := "0" ]} = (Ok s, ()).
Proof.
  assert (Hok : match aggregate_on false Fixture.sweep_not_started
                        Fixture.connect_always {[ "AUTO_DISCOVERY" := "0" ]}
                with
                | (Ok s, _) => n_raw_all s = 0%nat
                | _ => False
                end) by (by vm_compute).
  destruct (aggregate_on false Fixture.sweep_not_started
              Fixture.connect_always {[ "AUTO_DISCOVERY" := "0" ]})
    as [[s| |] []] eqn:H; [|destruct Hok..].
  exists s. refine (conj eq_refl (conj Hok _)).
  exact (proj1 (aggregate_without_targets_never_probes _ _ _ _ _ _ _ _ _ _ _
                  _ _ _ _ sweep_finds_two _ Fixture.connect_one _ _ _ _ _
                  H Hok)).
Defined.

Lemma aggregate_summary_consistent_witness :
  ∃ s,
    aggregate_on true Fixture.sweep_not_started Fixture.connect_one ∅
    = (Ok s, ())
    ∧ n_raw_all s = 4%nat
    ∧ alive s = ["10.0.0.2"]
    ∧ NoDup (expanded s).
Proof.
  assert (Hok : match aggregate_on true Fixture.sweep_not_started
                        Fixture.connect_one ∅
                with
                | (Ok s, _) => n_raw_all s = 4%nat ∧ alive s = ["10.0.0.2"]
                | _ => False
                end) by (by vm_compute).
  destruct (aggregate_on true Fixture.sweep_not_started Fixture.connect_one ∅)
    as [[s| |] []] eqn:H; [|destruct Hok..].
  exists s. refine (conj eq_refl (conj (proj1 Hok) (conj (proj2 Hok) _))).
  exact (proj1 (proj2 (proj2 (proj2
           (aggregate_summary_consistent _ _ _ _ _ _ _ _ _ _ _ _ _ _ _ _
              _ _ _ _ _ H))))).
Defined.

(** ** The scan loop *)

Import Plugins.

Section ScanFacts.
Variable world : Type.
Variable Path : Type.
Variable joinpath : Path → string → Path.
Variable path_exists : Path → world → bool.
Variable read_text : Path → world → result string.
Variable yaml_safe_load : string → result value.
Variable run_shell : value → io world Z.
Variable exn_text : exn → string.
Variable home : Path.
Variable rid : string.

(** Every call of a step returns or raises. *)
Hypothesis steps_end :
  ∀ step w,
    (run_plugin world Path joinpath path_exists read_text yaml_safe_load
       run_shell home rid step w).1 ≠ OutOfFuel.

Lemma scan_loop_continue (steps : list string)
    (errors : list (string * string)) (w : world) :
  ∃ new w',
    scan_loop world Path joinpath path_exists read_text yaml_safe_load
      run_shell exn_text home rid true steps errors w
    = (Ok (errors ++ new), w')
    ∧ map fst new `sublist_of` steps.
Proof.
  revert errors w. induction steps as [|step steps IH]; intros errors w.
  - exists [], w. by rewrite app_nil_r.
  - cbn [scan_loop]. pose proof (steps_end step w) as Hend.
    destruct (run_plugin _ _ _ _ _ _ _ _ _ step w) as [[rc|e|] w1];
      [| |done].
    + destruct (negb (rc =? 0)).
      * destruct (IH (errors ++ [(step, "exit " +:+ str_of_int rc)]) w1)
          as (new & w' & -> & Hsub).
        exists ((step, "exit " +:+ str_of_int rc) :: new), w'.
        rewrite <- app_assoc. split; [done|]. by apply sublist_skip.
      * destruct (IH errors w1) as (new & w' & -> & Hsub).
        exists new, w'. split; [done|]. by apply sublist_cons.
    + cbn [negb].
      destruct (IH (errors ++ [(step, exn_text e)]) w1)
        as (new & w' & -> & Hsub).
      exists ((step, exn_text e) :: new), w'.
      rewrite <- app_assoc. split; [done|]. by apply sublist_skip.
Qed.

Lemma scan_loop_abort (steps : list string)
    (errors : list (string * string)) (w w' : world) (e : exn) :
  scan_loop world Path joinpath path_exists read_text yaml_safe_load
    run_shell exn_text home rid false steps errors w = (Raise e, w') →
  ∃ step w0,
    step ∈ steps
    ∧ run_plugin world Path joinpath path_exists read_text yaml_safe_load
        run_shell home rid step w0 = (Raise e, w').
Proof.
  revert errors w. induction steps as [|step steps IH]; intros errors w.
  - done.
  - cbn [scan_loop].
    destruct (run_plugin _ _ _ _ _ _ _ _ _ step w) as [[rc|e1|] w1] eqn:Hrun;
      [| |done].
    + intros H. destruct (IH _ _ H) as (st & w0 & Hin & Hst).
      exists st, w0. split; [by right|done].
    + cbn [negb]. intros [= <- <-]. exists step, w. split; [left|done].
Qed.


End ScanFacts.


(** ** The command of a step *)

Lemma render_cmd_str (s : string) (ctx : context) :
  render_cmd (VStr s) ctx = Ok (VStr (_sub_literals s ctx)).
Proof.
  unfold render_cmd, _sub_literals. revert s.
  induction ctx as [|kv ctx IH]; intros s; [done|].
  cbn [foldM fold_left value_replace mbind result_bind]. apply IH.
Qed.

Lemma render_cmd_not_str (c : value) (kv : string * value) (ctx : context) :
  (∀ s, c ≠ VStr s) → render_cmd c (kv :: ctx) = Raise AttributeError.
Proof.
  intros H. unfold render_cmd. cbn [foldM].
  destruct c; try done. by destruct (H s).
Qed.


